(** * rfqrelayer: the ledger (package core) and the node server (package network)

    A shallow embedding of [core/blockchain.go] and of the message handlers of
    the network server, with the properties of the ledger contract, the
    message router, the sync manager and the validator loop.

    The model is sequential.  A Go function returning [error] becomes a
    function into [Res unit]; a function that also mutates its receiver
    returns the new receiver next to the result.  A run-time panic (slice
    index out of range, nil dereference) is a result of its own, [Panic].
    The mutex [bc.lock] and the server's [mu] are left out of the handlers;
    the calls that take them are modelled once more, with what the
    goroutine holds of the mutex, in the part on the mutexes.  The calls to
    the logger and to [fmt.Printf] are dropped. *)

From Stdlib Require Import ZArith List String Lia Bool.
From Stdlib.Strings Require Import Byte.
From stdpp Require Import base gmap strings list pretty.

Import ListNotations.
Local Open Scope string_scope.
Local Open Scope Z_scope.

(** ** Results of Go calls *)

Definition error := string.

Inductive Res (A : Type) : Type :=
| Ok (a : A)
| Err (e : error)
| Panic (msg : string).

Arguments Ok {A} a.
Arguments Err {A} e.
Arguments Panic {A} msg.

(** A stateful call: the result and the receiver after the call. *)
Definition M (S A : Type) : Type := S -> Res A * S.

Definition ret {S A} (a : A) : M S A := fun s => (Ok a, s).
Definition fail {S A} (e : error) : M S A := fun s => (Err e, s).
Definition panic {S A} (msg : string) : M S A := fun s => (Panic msg, s).

Definition bind {S A B} (m : M S A) (k : A -> M S B) : M S B :=
  fun s =>
    match m s with
    | (Ok a, s') => k a s'
    | (Err e, s') => (Err e, s')
    | (Panic msg, s') => (Panic msg, s')
    end.

Definition get {S} : M S S := fun s => (Ok s, s).
Definition put {S} (s : S) : M S unit := fun _ => (Ok tt, s).
Definition modify {S} (f : S -> S) : M S unit := fun s => (Ok tt, f s).

(** A call that cannot change the receiver. *)
Definition lift {S A} (r : Res A) : M S A := fun s => (r, s).

(** [if err := f(); err != nil { return err }] for a call returning [error]. *)
Definition check {S} (o : option error) : M S unit :=
  match o with
  | None => ret tt
  | Some e => fail e
  end.

Declare Scope go_scope.
Delimit Scope go_scope with go.
Notation "x <- m ;; k" := (bind m (fun x => k))
  (at level 100, m at level 99, right associativity) : go_scope.
Notation "m ;;; k" := (bind m (fun _ => k))
  (at level 100, right associativity) : go_scope.

Definition is_error {A} (r : Res A) : bool :=
  match r with
  | Err _ => true
  | _ => false
  end.

(** ** Bytes, hashes, integers *)

Definition bytes := list byte.
Definition Hash := bytes.       (* common.Hash, a [32]byte, as hash.Bytes() *)
Definition Address := bytes.    (* common.Address, a [20]byte *)

#[global] Instance byte_eq_dec : EqDecision byte := Byte.byte_eq_dec.
#[global] Instance byte_countable : Countable byte :=
  inj_countable Byte.to_N Byte.of_N Byte.of_to_N.

Definition two64 : Z := 2 ^ 64.
Definition two63 : Z := 2 ^ 63.

(** Conversion to [int64] and to [uint64], with the wrap-around of Go. *)
Definition to_int64 (z : Z) : Z := (z + two63) mod two64 - two63.
Definition to_uint64 (z : Z) : Z := z mod two64.

(** [Int64] of a big integer: the low 64 bits of the magnitude, as an int64, with
    the sign of [x]. *)
Definition Int64 (x : Z) : Z :=
  let low := to_int64 (Z.abs x mod two64) in
  if x <? 0 then to_int64 (- low) else low.

(** [Uint64] of a big integer: the low 64 bits of the magnitude. *)
Definition Uint64 (x : Z) : Z := Z.abs x mod two64.

(** [Cmp] of two big integers. *)
Definition Cmp (x y : Z) : Z :=
  match x ?= y with
  | Lt => -1
  | Eq => 0
  | Gt => 1
  end.

(** [len(s)], a Go [int]: at most [2^63 - 1], so that the conversions
    [int64(len(s))] and [uint64(len(s))] keep the number and are not written
    out below. *)
Definition len {A} (l : list A) : Z := Z.of_nat (length l).

(** [s[i]] for a slice [s] and an integer index [i].  The run-time names
    the length only for an index that is not negative. *)
Definition index {A} (l : list A) (i : Z) : Res A :=
  if i <? 0
  then Panic ("runtime error: index out of range [" +:+ pretty i +:+ "]")
  else
    match l !! Z.to_nat i with
    | Some a => Ok a
    | None => Panic ("runtime error: index out of range [" +:+ pretty i
                     +:+ "] with length " +:+ pretty (len l))
    end.

(** [%x] of a byte slice. *)
Definition hex_digit (n : N) : string :=
  String.substring (N.to_nat n) 1 "0123456789abcdef".

Fixpoint hex (b : bytes) : string :=
  match b with
  | [] => ""
  | x :: b' =>
      hex_digit (Byte.to_N x / 16) +:+ hex_digit (Byte.to_N x mod 16) +:+ hex b'
  end.

(** Lexicographic order on byte strings, the key order of the store. *)
Fixpoint bytes_compare (a b : bytes) : comparison :=
  match a, b with
  | [], [] => Eq
  | [], _ :: _ => Lt
  | _ :: _, [] => Gt
  | x :: a', y :: b' =>
      match N.compare (Byte.to_N x) (Byte.to_N y) with
      | Eq => bytes_compare a' b'
      | c => c
      end
  end.

(** [bytes.HasPrefix] and the rest after the prefix. *)
Fixpoint strip_prefix (p k : bytes) : option bytes :=
  match p, k with
  | [], _ => Some k
  | _ :: _, [] => None
  | x :: p', y :: k' => if decide (x = y) then strip_prefix p' k' else None
  end.

(** ** Data model (package types) *)

Record Header := {
  hdr_Version : Z;
  hdr_TxHash : Hash;
  hdr_ParentHash : Hash;
  hdr_Height : Z;
  hdr_Timestamp : Z;
  hdr_BlockSignature : option bytes
}.

Record Token := {
  tok_Address : Address;
  tok_Symbol : string;
  tok_Decimals : Z
}.

Record SignableData := {
  RequestorId : string;
  BaseTokenAmount : option Z;           (* a big integer behind a pointer *)
  BaseToken : option Token;
  QuoteToken : option Token;
  RFQDurationMs : Z
}.

Record RFQRequest := {
  rfq_From : Address;
  rfq_Data : option SignableData;
  rfq_V : option Z;
  rfq_R : option Z;
  rfq_S : option Z
}.

(** A transaction, as the values of the accessors the ledger and the server
    call on it: [Type()], [From()], [RFQData()], [RawSignatureValues()],
    [ReferenceTxHash()] and [Data()].  [Hash()] and [Verify()] are computed
    by the crypto package and are parameters below. *)
Record Transaction := {
  tx_Type : Z;
  tx_From : option Address;
  tx_RFQData : option SignableData;
  tx_V : option Z;
  tx_R : option Z;
  tx_S : option Z;
  tx_ReferenceTxHash : Hash;
  tx_Data : bytes
}.

Definition PublicKey := bytes.
Definition PrivateKey := bytes.

Record Block := {
  blk_header : option Header;          (* b.Header(), nil when absent *)
  blk_transactions : list Transaction; (* b.Transactions() *)
  blk_Validator : option PublicKey
}.

#[global] Instance Header_eq_dec : EqDecision Header.
Proof. solve_decision. Defined.
#[global] Instance Token_eq_dec : EqDecision Token.
Proof. solve_decision. Defined.
#[global] Instance SignableData_eq_dec : EqDecision SignableData.
Proof. solve_decision. Defined.
#[global] Instance Transaction_eq_dec : EqDecision Transaction.
Proof. solve_decision. Defined.

(** ** The key-value store (packages rfqdb/pebble and core/rawdb) *)

(** Modelled from the spec: the store and the rawdb helpers are not among the
    sources.  One storage instance holds the blocks, keyed by header hash and
    height, and the key-value pairs of the tables, which an iterator yields
    in key order; [Put(key, value) -> error], [NewIterator(lowerBound,
    upperBound) -> sequence of (key, value)]. *)
Record Database := {
  db_blocks : gmap (Hash * Z) Block;
  db_kv : list (bytes * bytes)
}.

(** Modelled from the spec: a table is a view of the one storage instance
    ([rfqRequests[txHash]], [openRFQs[refHash]], ...): its keys are the keys
    of the store that carry the table's name in front. *)
Record Table := { tbl_prefix : bytes }.

Definition NewTable (name : string) : Table :=
  {| tbl_prefix := list_byte_of_string name |}.

Fixpoint kv_put (k v : bytes) (l : list (bytes * bytes)) : list (bytes * bytes) :=
  match l with
  | [] => [(k, v)]
  | (k', v') :: l' =>
      match bytes_compare k k' with
      | Lt => (k, v) :: l
      | Eq => (k, v) :: l'
      | Gt => (k', v') :: kv_put k v l'
      end
  end.

Definition table_entry (t : Table) (kv : bytes * bytes) : option (bytes * bytes) :=
  match strip_prefix (tbl_prefix t) kv.1 with
  | Some k => Some (k, kv.2)
  | None => None
  end.

(** The pairs of a table, in key order, the table's name taken off the keys. *)
Definition table_entries (t : Table) (d : Database) : list (bytes * bytes) :=
  omap (table_entry t) (db_kv d).

(** An iterator that has run: the pairs it yielded before [Next] returned
    false, and what [Error] returns then. *)
Record Iterator := {
  it_items : list (bytes * bytes);
  it_Error : option error
}.

(** [rawdb.WriteBlock] and [rawdb.ReadBlock]. *)
Definition block_key (hash : Hash) (number : Z) : Hash * Z := (hash, number).

Definition set_blocks (d : Database) (m : gmap (Hash * Z) Block) : Database :=
  {| db_blocks := m; db_kv := db_kv d |}.

Definition set_kv (d : Database) (l : list (bytes * bytes)) : Database :=
  {| db_blocks := db_blocks d; db_kv := l |}.

Definition ReadBlock (d : Database) (hash : Hash) (number : Z) : option Block :=
  db_blocks d !! block_key hash number.

Definition empty_db : Database := {| db_blocks := ∅; db_kv := [] |}.

(** ** The codec of the request table, and reference data *)

(** Modelled from the spec: the codec is not among the sources
    ([RFQRequest.EncodeRLP] of package types and [DecodeBytes] of the rlp
    package, the canonical byte encoding used for persistence); the
    request table maps [txHash] to the encoded [RFQRequest], and
    [GetRFQRequests] decodes each record and surfaces the first decode
    error.  The encoding is RLP, as the source names it: a byte string or a
    list of items behind a length prefix; an [RFQRequest] is the list of its
    fields, a structure behind a pointer the list of its fields, a big
    integer its big-endian bytes, a nil pointer the empty item of its kind.
    The decoder fills every field of the structures it is given, so that an
    empty list where a token is due does not decode. *)
Module Rlp.

#[local] Unset Elimination Schemes.
Inductive Item :=
| Str (b : bytes)
| Lst (l : list Item).
#[local] Set Elimination Schemes.

Definition byte_of_N (n : N) : byte :=
  match Byte.of_N (n mod 256) with
  | Some b => b
  | None => x00
  end.

(** Big-endian bytes of a number, without leading zeros. *)
Fixpoint be_bytes_aux (fuel : nat) (n : N) (acc : bytes) : bytes :=
  match fuel with
  | O => acc
  | S fuel' =>
      if (n =? 0)%N then acc
      else be_bytes_aux fuel' (n / 256)%N (byte_of_N n :: acc)
  end.

Definition be_bytes (n : N) : bytes := be_bytes_aux (N.size_nat n) n [].

Definition be_value (b : bytes) : N :=
  fold_left (fun acc x => (acc * 256 + Byte.to_N x)%N) b 0%N.

Definition length_prefix (offset : N) (n : N) : bytes :=
  if (n <? 56)%N then [byte_of_N (offset + n)]
  else let l := be_bytes n in
       byte_of_N (offset + 55 + N.of_nat (length l)) :: l.

Fixpoint encode (i : Item) : bytes :=
  match i with
  | Str b =>
      match b with
      | [x] => if (Byte.to_N x <? 128)%N then [x]
               else (length_prefix 128 1 ++ b)%list
      | _ => (length_prefix 128 (N.of_nat (length b)) ++ b)%list
      end
  | Lst l =>
      let body := flat_map encode l in
      (length_prefix 192 (N.of_nat (length body)) ++ body)%list
  end.

(** The first [n] bytes and the rest, when there are that many. *)
Definition split_at (n : N) (b : bytes) : option (bytes * bytes) :=
  if (N.of_nat (length b) <? n)%N then None
  else Some (take (N.to_nat n) b, drop (N.to_nat n) b).

(** The items of the body of a list, with [dec] for one item. *)
Fixpoint decode_items (dec : bytes -> option (Item * bytes)) (n : nat) (body : bytes)
  : option (list Item) :=
  match n with
  | O => None
  | S n' =>
      match body with
      | [] => Some []
      | _ :: _ =>
          match dec body with
          | Some (i, rest) =>
              match decode_items dec n' rest with
              | Some l => Some (i :: l)
              | None => None
              end
          | None => None
          end
      end
  end.

(** One item off the front of [b], and the rest. *)
Fixpoint decode (fuel : nat) (b : bytes) : option (Item * bytes) :=
  match fuel with
  | O => None
  | S fuel' =>
      let items := decode_items (decode fuel') in
      match b with
      | [] => None
      | x :: b' =>
          let t := Byte.to_N x in
          if (t <? 128)%N then Some (Str [x], b')
          else if (t <? 184)%N then
            match split_at (t - 128) b' with
            | Some (s, rest) => Some (Str s, rest)
            | None => None
            end
          else if (t <? 192)%N then
            match split_at (t - 183) b' with
            | Some (l, b'') =>
                match split_at (be_value l) b'' with
                | Some (s, rest) => Some (Str s, rest)
                | None => None
                end
            | None => None
            end
          else
            let payload :=
              if (t <? 248)%N then split_at (t - 192) b'
              else match split_at (t - 247) b' with
                   | Some (l, b'') => split_at (be_value l) b''
                   | None => None
                   end in
            match payload with
            | Some (body, rest) =>
                match items (S (length body)) body with
                | Some l => Some (Lst l, rest)
                | None => None
                end
            | None => None
            end
      end
  end.

Definition of_Z (z : Z) : Res Item :=
  if z <? 0 then Err "rlp: cannot encode negative big.Int"
  else Ok (Str (be_bytes (Z.to_N z))).

Definition of_string (s : string) : Item := Str (list_byte_of_string s).

Definition of_bigInt (z : option Z) : Res Item :=
  match z with
  | Some z => of_Z z
  | None => Ok (Str [])
  end.

Definition of_Token (t : option Token) : Res Item :=
  match t with
  | Some t =>
      match of_Z (tok_Decimals t) with
      | Ok d => Ok (Lst [Str (tok_Address t); of_string (tok_Symbol t); d])
      | Err e => Err e
      | Panic msg => Panic msg
      end
  | None => Ok (Lst [])
  end.

Definition of_SignableData (d : option SignableData) : Res Item :=
  match d with
  | Some d =>
      match of_bigInt (BaseTokenAmount d), of_Token (BaseToken d),
            of_Token (QuoteToken d), of_Z (RFQDurationMs d) with
      | Ok a, Ok b, Ok q, Ok ms =>
          Ok (Lst [of_string (RequestorId d); a; b; q; ms])
      | Err e, _, _, _ | Ok _, Err e, _, _ | Ok _, Ok _, Err e, _
      | Ok _, Ok _, Ok _, Err e => Err e
      | _, _, _, _ => Panic "unreachable"
      end
  | None => Ok (Lst [])
  end.

Definition EncodeRLP (r : RFQRequest) : Res bytes :=
  match of_SignableData (rfq_Data r), of_bigInt (rfq_V r), of_bigInt (rfq_R r),
        of_bigInt (rfq_S r) with
  | Ok d, Ok v, Ok r', Ok s =>
      Ok (encode (Lst [Str (rfq_From r); d; v; r'; s]))
  | Err e, _, _, _ | Ok _, Err e, _, _ | Ok _, Ok _, Err e, _
  | Ok _, Ok _, Ok _, Err e => Err e
  | _, _, _, _ => Panic "unreachable"
  end.

Definition to_Z (b : bytes) : Z := Z.of_N (be_value b).

Definition to_Token (i : Item) : option Token :=
  match i with
  | Lst [Str a; Str s; Str d] =>
      Some {| tok_Address := a; tok_Symbol := string_of_list_byte s;
              tok_Decimals := to_Z d |}
  | _ => None
  end.

Definition to_SignableData (i : Item) : option SignableData :=
  match i with
  | Lst [Str id; Str a; b; q; Str ms] =>
      match to_Token b, to_Token q with
      | Some b, Some q =>
          Some {| RequestorId := string_of_list_byte id;
                  BaseTokenAmount := Some (to_Z a);
                  BaseToken := Some b; QuoteToken := Some q;
                  RFQDurationMs := to_Z ms |}
      | _, _ => None
      end
  | _ => None
  end.

Definition DecodeBytes (b : bytes) : Res RFQRequest :=
  match decode (S (length b)) b with
  | Some (Lst [Str from; d; Str v; Str r; Str s], []) =>
      match to_SignableData d with
      | Some d =>
          Ok {| rfq_From := from; rfq_Data := Some d; rfq_V := Some (to_Z v);
                rfq_R := Some (to_Z r); rfq_S := Some (to_Z s) |}
      | None => Err "rlp: input does not match an RFQRequest"
      end
  | Some (_, _ :: _) => Err "rlp: input contains more than one value"
  | _ => Err "rlp: input does not match an RFQRequest"
  end.








End Rlp.

Module Sample.

Definition byte_of_Z (z : Z) : byte := Rlp.byte_of_N (Z.to_N (z mod 256)).

(** Stand-ins for the hash functions: enough to tell the sample data apart. *)
Definition header_Hash (h : Header) : Hash :=
  [byte_of_Z (hdr_Height h); byte_of_Z (hdr_Timestamp h)].

Definition tx_Hash (tx : Transaction) : Hash :=
  (byte_of_Z (tx_Type tx) :: tx_Data tx)%list.

(** A transaction verifies when it carries the three signature values. *)
Definition tx_Verify (tx : Transaction) : option error :=
  match tx_V tx, tx_R tx, tx_S tx with
  | Some _, Some _, Some _ => None
  | _, _, _ => Some "invalid transaction signature"
  end.

Definition no_put_fault (d : Database) (k v : bytes) : option error := None.
Definition no_iter_fault (d : Database) (p : bytes) : option (nat * error) := None.

Definition genesisHeader : Header :=
  {| hdr_Version := 1; hdr_TxHash := []; hdr_ParentHash := []; hdr_Height := 0;
     hdr_Timestamp := 7; hdr_BlockSignature := None |}.

Definition genesis : Block :=
  {| blk_header := Some genesisHeader; blk_transactions := [];
     blk_Validator := Some [x01] |}.

Definition usdc : Token :=
  {| tok_Address := [xa0; xb8; x69; x91]; tok_Symbol := "USDC"; tok_Decimals := 6 |}.

Definition vfg : Token :=
  {| tok_Address := [xa0; xb8; x69; x91]; tok_Symbol := "VFG"; tok_Decimals := 18 |}.

Definition rfq119 : SignableData :=
  {| RequestorId := "119"; BaseTokenAmount := Some 1000000000000000000;
     BaseToken := Some vfg; QuoteToken := Some usdc; RFQDurationMs := 60000 |}.

(** A signed request, and the same request before signing. *)
Definition requestTx : Transaction :=
  {| tx_Type := 0; tx_From := Some [x0a; x64; x89; x18];
     tx_RFQData := Some rfq119;
     tx_V := Some 27; tx_R := Some 123456789; tx_S := Some 987654321;
     tx_ReferenceTxHash := []; tx_Data := [x31; x31; x39] |}.

Definition unsignedTx : Transaction :=
  {| tx_Type := 0; tx_From := Some [x0a; x64; x89; x18];
     tx_RFQData := Some rfq119;
     tx_V := None; tx_R := None; tx_S := None;
     tx_ReferenceTxHash := []; tx_Data := [x31; x31; x39] |}.

Definition header1 : Header :=
  {| hdr_Version := 1; hdr_TxHash := []; hdr_ParentHash := header_Hash genesisHeader;
     hdr_Height := 1; hdr_Timestamp := 8; hdr_BlockSignature := Some [x05] |}.

Definition block1 : Block :=
  {| blk_header := Some header1; blk_transactions := [requestTx];
     blk_Validator := Some [x01] |}.

(** A block on top of a header: the next height, the hash of the header as
    parent. *)
Definition NewBlockFromPrevHeader (prev : Header) (txs : list Transaction) : Res Block :=
  Ok {| blk_header :=
          Some {| hdr_Version := 1; hdr_TxHash := [];
                  hdr_ParentHash := header_Hash prev;
                  hdr_Height := hdr_Height prev + 1;
                  hdr_Timestamp := hdr_Timestamp prev + 1;
                  hdr_BlockSignature := None |};
        blk_transactions := txs; blk_Validator := None |}.

(** Signing puts the key's bytes in the place of the signature. *)
Definition Block_Sign (b : Block) (key : PrivateKey) : Res Block :=
  match blk_header b with
  | None => Err "block has no header"
  | Some h =>
      Ok {| blk_header :=
              Some {| hdr_Version := hdr_Version h; hdr_TxHash := hdr_TxHash h;
                      hdr_ParentHash := hdr_ParentHash h;
                      hdr_Height := hdr_Height h;
                      hdr_Timestamp := hdr_Timestamp h;
                      hdr_BlockSignature := Some key |};
            blk_transactions := blk_transactions b;
            blk_Validator := Some key |}
  end.

End Sample.

Section Relayer.

Set Default Proof Using "Type".

(** *** Collaborators: hashing and signatures, the store's failures, the codec *)

(** [Header.Hash()], [Transaction.Hash()] and [Transaction.Verify()]. *)
Variable header_Hash : Header -> Hash.
Variable tx_Hash : Transaction -> Hash.
Variable tx_Verify : Transaction -> option error.

(** When the store refuses a write, and when an iterator over the keys with
    a given prefix stops early: after how many pairs, and with which error. *)
Variable put_fault : Database -> bytes -> bytes -> option error.
Variable iter_fault : Database -> bytes -> option (nat * error).

(** [RFQRequest.EncodeRLP] and [rlp.DecodeBytes] into an [RFQRequest]. *)
Variable EncodeRLP : RFQRequest -> Res bytes.
Variable DecodeBytes : bytes -> Res RFQRequest.

(** The type tags of package types, in the order of the switch of
    [WriteRFQTxs]. *)
Variable RFQRequestTxType OpenRFQTxType ClosedRFQTxType : Z.
Variable MatchedRFQTxType SettledRFQTxType QuoteTxType : Z.

(** The implementations of the interface [Validator]. *)
Variable Validator : Type.

Definition db_Put (d : Database) (k v : bytes) : option error * Database :=
  match put_fault d k v with
  | Some e => (Some e, d)
  | None => (None, set_kv d (kv_put k v (db_kv d)))
  end.

Definition table_Put (t : Table) (d : Database) (k v : bytes)
  : option error * Database :=
  db_Put d (tbl_prefix t ++ k)%list v.

Definition table_NewIterator (t : Table) (d : Database) : Iterator :=
  match iter_fault d (tbl_prefix t) with
  | None => {| it_items := table_entries t d; it_Error := None |}
  | Some (n, e) => {| it_items := take n (table_entries t d); it_Error := Some e |}
  end.

Definition WriteBlock (d : Database) (b : Block) : Database :=
  match blk_header b with
  | Some h =>
      set_blocks d (<[block_key (header_Hash h) (Uint64 (hdr_Height h)) := b]>
                      (db_blocks d))
  | None => d
  end.

(** ** The ledger (core/blockchain.go) *)

Record Blockchain := {
  db : Database;
  headers : list Header;
  openRFQS : list Transaction;
  closedRFQS : list Transaction;
  matchedRFQS : list Transaction;
  rfqRequestsTable : Table;
  openRFQSTable : Table;
  closedRFQSTable : Table;
  matchedRFQSTable : Table;
  settledRFQSTable : Table;
  quotesTable : Table;
  txStore : gmap Hash Transaction;
  genesisBlock : option Block;
  validator : option Validator;
  currentBlock : option Header
}.

(** [Validator.ValidateBlock], which reads the chain it validates for. *)
Variable ValidateBlock : Validator -> Blockchain -> Block -> option error.
(** [NewBlockValidator(bc)]. *)
Variable NewBlockValidator : Validator.

Definition set_db (d : Database) (bc : Blockchain) : Blockchain :=
  {| db := d; headers := headers bc; openRFQS := openRFQS bc;
     closedRFQS := closedRFQS bc; matchedRFQS := matchedRFQS bc;
     rfqRequestsTable := rfqRequestsTable bc; openRFQSTable := openRFQSTable bc;
     closedRFQSTable := closedRFQSTable bc;
     matchedRFQSTable := matchedRFQSTable bc;
     settledRFQSTable := settledRFQSTable bc; quotesTable := quotesTable bc;
     txStore := txStore bc; genesisBlock := genesisBlock bc;
     validator := validator bc; currentBlock := currentBlock bc |}.

Definition set_headers (hs : list Header) (bc : Blockchain) : Blockchain :=
  {| db := db bc; headers := hs; openRFQS := openRFQS bc;
     closedRFQS := closedRFQS bc; matchedRFQS := matchedRFQS bc;
     rfqRequestsTable := rfqRequestsTable bc; openRFQSTable := openRFQSTable bc;
     closedRFQSTable := closedRFQSTable bc;
     matchedRFQSTable := matchedRFQSTable bc;
     settledRFQSTable := settledRFQSTable bc; quotesTable := quotesTable bc;
     txStore := txStore bc; genesisBlock := genesisBlock bc;
     validator := validator bc; currentBlock := currentBlock bc |}.

Definition set_genesisBlock (g : option Block) (bc : Blockchain) : Blockchain :=
  {| db := db bc; headers := headers bc; openRFQS := openRFQS bc;
     closedRFQS := closedRFQS bc; matchedRFQS := matchedRFQS bc;
     rfqRequestsTable := rfqRequestsTable bc; openRFQSTable := openRFQSTable bc;
     closedRFQSTable := closedRFQSTable bc;
     matchedRFQSTable := matchedRFQSTable bc;
     settledRFQSTable := settledRFQSTable bc; quotesTable := quotesTable bc;
     txStore := txStore bc; genesisBlock := g;
     validator := validator bc; currentBlock := currentBlock bc |}.

Definition set_validator (v : option Validator) (bc : Blockchain) : Blockchain :=
  {| db := db bc; headers := headers bc; openRFQS := openRFQS bc;
     closedRFQS := closedRFQS bc; matchedRFQS := matchedRFQS bc;
     rfqRequestsTable := rfqRequestsTable bc; openRFQSTable := openRFQSTable bc;
     closedRFQSTable := closedRFQSTable bc;
     matchedRFQSTable := matchedRFQSTable bc;
     settledRFQSTable := settledRFQSTable bc; quotesTable := quotesTable bc;
     txStore := txStore bc; genesisBlock := genesisBlock bc;
     validator := v; currentBlock := currentBlock bc |}.

Definition set_currentBlock (h : option Header) (bc : Blockchain) : Blockchain :=
  {| db := db bc; headers := headers bc; openRFQS := openRFQS bc;
     closedRFQS := closedRFQS bc; matchedRFQS := matchedRFQS bc;
     rfqRequestsTable := rfqRequestsTable bc; openRFQSTable := openRFQSTable bc;
     closedRFQSTable := closedRFQSTable bc;
     matchedRFQSTable := matchedRFQSTable bc;
     settledRFQSTable := settledRFQSTable bc; quotesTable := quotesTable bc;
     txStore := txStore bc; genesisBlock := genesisBlock bc;
     validator := validator bc; currentBlock := h |}.

Definition SetValidator (v : Validator) (bc : Blockchain) : Blockchain :=
  set_validator (Some v) bc.

(** [Height]: the index of the last header, [-1] on an empty chain. *)
Definition Height (bc : Blockchain) : Z :=
  let headLength := len (headers bc) in
  headLength - 1.

Definition Headers (bc : Blockchain) : list Header := headers bc.

Definition CurrentBlock (bc : Blockchain) : option Header := currentBlock bc.

Definition GetBlockHeader (bc : Blockchain) (height : Z) : Res Header :=
  if Cmp height (len (headers bc)) =? 1
  then Err ("blockchain height [" +:+ pretty (len (headers bc))
            +:+ "] is less than requested height [" +:+ pretty (Int64 height)
            +:+ "]")
  else index (headers bc) (Int64 height).

Definition GetBlock (bc : Blockchain) (height : Z) : Res Block :=
  let currHeight := Height bc in
  let reqHeight := Int64 height in
  if Cmp height currHeight =? 1
  then Err ("blockchain height [" +:+ pretty currHeight
            +:+ "] is less than requested height [" +:+ pretty reqHeight
            +:+ "]")
  else
    match GetBlockHeader bc height with
    | Ok blockHeader =>
        match ReadBlock (db bc) (header_Hash blockHeader) (to_uint64 reqHeight) with
        | None => Err ("block with hash [" +:+ hex (header_Hash blockHeader)
                       +:+ "] not found")
        | Some block => Ok block
        end
    | Err e => Err e
    | Panic msg => Panic msg
    end.

Definition HasBlock (bc : Blockchain) (height : Z) : bool :=
  let currHeight := Height bc in
  let c := Cmp height currHeight in
  if c =? 1 then false
  else if c =? 0 then true
  else if c =? -1 then true
  else false.

(** [addBlockWithoutValidation].  The header is appended, the block written
    to the store and the head pointer set; the first block of a chain is
    also kept as the genesis block.  The function logs [b.Hash()] and
    [b.Height()], which read through the header: a block without a header
    faults. *)
Definition addBlockWithoutValidation (b : Block) : M Blockchain unit :=
  fun bc =>
    match blk_header b with
    | None => (Panic "runtime error: invalid memory address or nil pointer dereference", bc)
    | Some h =>
        let bc1 := set_headers (headers bc ++ [h])%list bc in
        let bc2 := set_db (WriteBlock (db bc1) b) bc1 in
        let bc3 := set_currentBlock (Some h) bc2 in
        if len (headers bc3) =? 1
        then (Ok tt, set_genesisBlock (Some b) bc3)
        else (Ok tt, bc3)
    end.

(** The loop of [VerifyBlock] over the transactions: the first failure is
    returned. *)
Fixpoint verifyTransactions (txs : list Transaction) : option error :=
  match txs with
  | [] => None
  | tx :: txs' =>
      match tx_Verify tx with
      | Some e => Some e
      | None => verifyTransactions txs'
      end
  end.

Definition VerifyBlock (b : option Block) : M Blockchain unit :=
  match b with
  | None => fail "malformed block: is nil"
  | Some b =>
      match blk_header b with
      | None => fail "malformed block: header is nil"
      | Some _ =>
          (bc <- get ;;
           match validator bc with
           | Some v => check (ValidateBlock v bc b)
           | None => ret tt
           end ;;;
           check (verifyTransactions (blk_transactions b)) ;;;
           addBlockWithoutValidation b)%go
      end
  end.

(** The chain [NewBlockchain] starts from: no header, the six tables over
    the one store. *)
Definition emptyChain (d : Database) : Blockchain :=
  {| db := d; headers := [];
     openRFQS := []; closedRFQS := []; matchedRFQS := [];
     rfqRequestsTable := NewTable "rfqRequests";
     openRFQSTable := NewTable "openRFQs";
     closedRFQSTable := NewTable "closeRFQs";
     matchedRFQSTable := NewTable "matchedRFQs";
     settledRFQSTable := NewTable "settledRFQs";
     quotesTable := NewTable "quotes";
     txStore := ∅; genesisBlock := None; validator := None;
     currentBlock := None |}.

(** [NewBlockchain].  [GetBlock] returns a block or an error, so the test
    [genesis == nil] after it never fires. *)
Definition NewBlockchain (genesis : Block) (d : Database) (isValidator : bool)
  : Res Blockchain :=
  let bc := emptyChain d in
  if isValidator then
    let bc := SetValidator NewBlockValidator bc in
    match addBlockWithoutValidation genesis bc with
    | (Ok _, bc) =>
        match GetBlock bc 0 with
        | Ok genesis => Ok (set_currentBlock None (set_genesisBlock (Some genesis) bc))
        | Err e => Err e
        | Panic msg => Panic msg
        end
    | (Err e, _) => Err e
    | (Panic msg, _) => Panic msg
    end
  else Ok (set_currentBlock None bc).

(** The end of [WriteRFQTxs]: the error of [Put], wrapped. *)
Definition putResult (bc : Blockchain) (r : option error * Database)
  : Res unit * Blockchain :=
  match r with
  | (Some e, _) =>
      (Err ("error writing transaction to kv store tables: " +:+ e), bc)
  | (None, d) => (Ok tt, set_db d bc)
  end.

Definition WriteRFQTxs (tx : Transaction) : M Blockchain unit :=
  fun bc =>
    let t := tx_Type tx in
    if t =? RFQRequestTxType then
      match tx_From tx with
      | None =>
          (Panic "runtime error: invalid memory address or nil pointer dereference", bc)
      | Some from =>
          let rfqRequest :=
            {| rfq_From := from; rfq_Data := tx_RFQData tx;
               rfq_V := tx_V tx; rfq_R := tx_R tx; rfq_S := tx_S tx |} in
          match EncodeRLP rfqRequest with
          | Err e => (Err e, bc)
          | Panic msg => (Panic msg, bc)
          | Ok encRFQ =>
              putResult bc (table_Put (rfqRequestsTable bc) (db bc) (tx_Hash tx) encRFQ)
          end
      end
    else if t =? OpenRFQTxType then
      putResult bc (table_Put (openRFQSTable bc) (db bc) (tx_ReferenceTxHash tx) (tx_Data tx))
    else if t =? ClosedRFQTxType then
      putResult bc (table_Put (closedRFQSTable bc) (db bc) (tx_ReferenceTxHash tx) (tx_Data tx))
    else if t =? MatchedRFQTxType then
      putResult bc (table_Put (matchedRFQSTable bc) (db bc) (tx_ReferenceTxHash tx) (tx_Data tx))
    else if t =? SettledRFQTxType then
      putResult bc (table_Put (settledRFQSTable bc) (db bc) (tx_ReferenceTxHash tx) (tx_Data tx))
    else if t =? QuoteTxType then
      putResult bc (table_Put (quotesTable bc) (db bc) (tx_ReferenceTxHash tx) (tx_Data tx))
    else (Err ("unknown transaction type: " +:+ pretty t), bc).

(** The loop of [GetRFQRequests] over the pairs the iterator yields. *)
Fixpoint decodeRequests (items : list (bytes * bytes)) (rfqRequests : list RFQRequest)
  : Res (list RFQRequest) :=
  match items with
  | [] => Ok rfqRequests
  | (_, txData) :: items' =>
      match DecodeBytes txData with
      | Ok rfqRequest => decodeRequests items' (rfqRequests ++ [rfqRequest])%list
      | Err e => Err ("error decoding RFQRequest: " +:+ e)
      | Panic msg => Panic msg
      end
  end.

Definition GetRFQRequests (bc : Blockchain) : Res (list RFQRequest) :=
  let it := table_NewIterator (rfqRequestsTable bc) (db bc) in
  match decodeRequests (it_items it) [] with
  | Ok rfqRequests =>
      match it_Error it with
      | Some e => Err ("error iterating over transactions: " +:+ e)
      | None => Ok rfqRequests
      end
  | Err e => Err e
  | Panic msg => Panic msg
  end.

(** ** The mempool *)

(** Modelled from the spec: the pool (type [TxPool]) is not among the
    sources.  A set keyed by transaction hash, insertion order kept for
    [Pending]; [Add] inserts unless the hash is present; [ClearPending]
    empties it.  What happens at full capacity is left open by the spec and
    is not modelled. *)
Record TxPool := {
  pool_all : list Transaction;
  pool_maxLength : Z
}.

Definition NewTxPool (maxLength : Z) : TxPool :=
  {| pool_all := []; pool_maxLength := maxLength |}.

Definition Contains (p : TxPool) (hash : Hash) : bool :=
  existsb (fun tx => bool_decide (tx_Hash tx = hash)) (pool_all p).

Definition Add (p : TxPool) (tx : Transaction) : TxPool :=
  if Contains p (tx_Hash tx) then p
  else {| pool_all := (pool_all p ++ [tx])%list; pool_maxLength := pool_maxLength p |}.

Definition Pending (p : TxPool) : list Transaction := pool_all p.

Definition ClearPending (p : TxPool) : TxPool :=
  {| pool_all := []; pool_maxLength := pool_maxLength p |}.

Definition PendingCount (p : TxPool) : Z := len (pool_all p).

(** ** The node server (package network) *)

Definition Addr := string.      (* net.Addr, by its string form *)

Inductive MessageType :=
| MessageTypeTx
| MessageTypeBlock
| MessageTypeGetBlocks
| MessageTypeStatus
| MessageTypeGetStatus
| MessageTypeBlocks.

(** A pair of a [BlocksMessage]: two pointers, each of which a message that
    was received can leave nil. *)
Record FullBlock := {
  fb_Block : option Block;
  fb_Header : option Header
}.

Record GetBlocksMessage := {
  gbm_From : Z;                 (* uint64 *)
  gbm_To : Z                    (* uint64 *)
}.

Record StatusMessage := {
  sm_ID : string;
  sm_CurrentLength : Z          (* int64 *)
}.

Record BlocksMessage := { bm_Blocks : list FullBlock }.

(** The bytes of a buffer, by what gob encoded into it. *)
Inductive Payload :=
| EmptyBuffer
| GobStatus (m : StatusMessage)
| GobGetBlocks (m : GetBlocksMessage)
| GobBlocks (m : BlocksMessage).

Record Message := {
  msg_Header : MessageType;
  msg_Data : Payload;
  msg_ID : string
}.

Definition NewMessage (t : MessageType) (data : Payload) (id : string) : Message :=
  {| msg_Header := t; msg_Data := data; msg_ID := id |}.

Record TCPPeer := {
  conn_RemoteAddr : Addr;
  Outgoing : bool
}.

(** What a handler starts with [go]. *)
Inductive Task :=
| GoBroadcastTx (tx : Transaction)
| GoBroadcastBlock (b : Block)
| GoRequestBlocksLoop (peer : Addr) (blocksIndex : Z).

(** What the server does to the outside, oldest first. *)
Inductive Event :=
| Started (t : Task)
| Sent (to : Addr) (m : Message)
| TickerWait (d : Z).

Record Server := {
  srv_ID : string;
  peerMap : gmap Addr TCPPeer;
  memPool : TxPool;
  chain : Blockchain;
  isValidator : bool;
  srv_PrivateKey : option PrivateKey;
  events : list Event
}.

(** When gob fails to encode, and when a send to a peer fails. *)
Variable gob_fault : Payload -> option error.
Variable send_fault : TCPPeer -> Message -> option error.

(** [Blockchain.GetHeader], [types.NewBlockFromPrevHeader] and [Block.Sign],
    which [CreateNewBlock] calls. *)
Variable GetHeader : Blockchain -> Z -> Res Header.
Variable NewBlockFromPrevHeader : Header -> list Transaction -> Res Block.
Variable Block_Sign : Block -> PrivateKey -> Res Block.

Definition set_memPool (p : TxPool) (s : Server) : Server :=
  {| srv_ID := srv_ID s; peerMap := peerMap s; memPool := p; chain := chain s;
     isValidator := isValidator s; srv_PrivateKey := srv_PrivateKey s;
     events := events s |}.

Definition set_chain (bc : Blockchain) (s : Server) : Server :=
  {| srv_ID := srv_ID s; peerMap := peerMap s; memPool := memPool s; chain := bc;
     isValidator := isValidator s; srv_PrivateKey := srv_PrivateKey s;
     events := events s |}.

Definition emit (evs : list Event) (s : Server) : Server :=
  {| srv_ID := srv_ID s; peerMap := peerMap s; memPool := memPool s;
     chain := chain s; isValidator := isValidator s;
     srv_PrivateKey := srv_PrivateKey s; events := (events s ++ evs)%list |}.

(** A call on [s.chain]. *)
Definition onChain {A} (m : M Blockchain A) : M Server A :=
  fun s =>
    match m (chain s) with
    | (r, bc) => (r, set_chain bc s)
    end.

(** [broadcast]: one send to each peer of the map, in the order the map
    yields them; a failed send is logged and the loop goes on. *)
Definition broadcast (payload : Message) : M Server unit :=
  fun s =>
    (Ok tt, emit (map (fun ap => Sent (conn_RemoteAddr ap.2) payload)
                      (map_to_list (peerMap s))) s).

(** [broadcastTx]: the encoding of the transaction into the buffer is
    commented out in the source, the buffer stays empty. *)
Definition broadcastTx (tx : Transaction) : M Server unit :=
  fun s => broadcast (NewMessage MessageTypeTx EmptyBuffer (srv_ID s)) s.

Definition processTransaction (tx : Transaction) : M Server unit :=
  fun s =>
    let hash := tx_Hash tx in
    if Contains (memPool s) hash then (Ok tt, s)
    else
      let s := emit [Started (GoBroadcastTx tx)] s in
      (Ok tt, set_memPool (Add (memPool s) tx) s).

(** The loop of [processGetBlocksMessage] over the heights. *)
Fixpoint collectBlocks (bc : Blockchain) (heights : list Z) (fullBlocks : list FullBlock)
  : Res (list FullBlock) :=
  match heights with
  | [] => Ok fullBlocks
  | i :: heights' =>
      match GetBlock bc i with
      | Ok block =>
          collectBlocks bc heights'
            (fullBlocks ++ [{| fb_Block := Some block;
                               fb_Header := blk_header block |}])%list
      | Err e => Err e
      | Panic msg => Panic msg
      end
  end.

Definition processGetBlocksMessage (from : Addr) (data : GetBlocksMessage)
  : M Server unit :=
  fun s =>
    let ourHeadersLength := len (Headers (chain s)) in
    let collected :=
      if (gbm_From data <=? ourHeadersLength) && (gbm_To data <=? ourHeadersLength)
      then
        let lo := to_int64 (gbm_To data) in
        let hi := to_int64 (gbm_From data) in
        collectBlocks (chain s) (seqZ lo (hi - lo + 1)) []
      else Ok [] in
    match collected with
    | Err e => (Err e, s)
    | Panic msg => (Panic msg, s)
    | Ok fullBlocks =>
        let blocksMsg := {| bm_Blocks := fullBlocks |} in
        match gob_fault (GobBlocks blocksMsg) with
        | Some e => (Err e, s)
        | None =>
            let msg := NewMessage MessageTypeBlocks (GobBlocks blocksMsg) (srv_ID s) in
            match peerMap s !! from with
            | None => (Err "peer not found", s)
            | Some peer =>
                let s := emit [Sent (conn_RemoteAddr peer) msg] s in
                match send_fault peer msg with
                | Some e => (Err e, s)
                | None => (Ok tt, s)
                end
            end
        end
    end.

Definition processStatusMessage (from : Addr) (data : StatusMessage) : M Server unit :=
  fun s =>
    let myHeadersLength := len (Headers (chain s)) in
    if sm_CurrentLength data <? myHeadersLength then (Ok tt, s)
    else if negb (isValidator s) && (myHeadersLength <? sm_CurrentLength data)
    then (Ok tt, emit [Started (GoRequestBlocksLoop from (sm_CurrentLength data))] s)
    else (Ok tt, s).

Definition Second : Z := 1000000000.

(** One turn of the loop of [requestBlocksLoop] on the server as it is at
    that turn: the result if the loop returns, and what the turn does.  When
    the peer is gone the error message reads [peer.conn] through the nil
    peer, which faults. *)
Definition requestBlocksTurn (peer : Addr) (blocksIndex : Z) (s : Server)
  : option (Res unit) * list Event :=
  let headersLength := len (Headers (chain s)) in
  if headersLength >=? blocksIndex then (Some (Ok tt), [])
  else
    let getBlocksMsg :=
      {| gbm_From := to_uint64 blocksIndex; gbm_To := headersLength |} in
    match gob_fault (GobGetBlocks getBlocksMsg) with
    | Some e => (Some (Err e), [])
    | None =>
        let msg := NewMessage MessageTypeGetBlocks (GobGetBlocks getBlocksMsg) (srv_ID s) in
        match peerMap s !! peer with
        | None =>
            (Some (Panic "runtime error: invalid memory address or nil pointer dereference"), [])
        | Some p => (None, [Sent (conn_RemoteAddr p) msg; TickerWait (6 * Second)])
        end
    end.

(** [requestBlocksLoop] against the rest of the node: [turns] is the server
    as the loop finds it at its first turn, at its second, and so on.  The
    result is [None] while the loop is still waiting on its ticker after the
    last of them. *)
Fixpoint requestBlocksLoop (peer : Addr) (blocksIndex : Z) (turns : list Server)
  : option (Res unit) * list Event :=
  match turns with
  | [] => (None, [])
  | s :: turns' =>
      match requestBlocksTurn peer blocksIndex s with
      | (Some r, evs) => (Some r, evs)
      | (None, evs) =>
          let (r, evs') := requestBlocksLoop peer blocksIndex turns' in
          (r, (evs ++ evs')%list)
      end
  end.

Definition CreateNewBlock : M Server unit :=
  (s <- get ;;
   currentHeader <- lift (GetHeader (chain s) (Height (chain s))) ;;
   let txx := Pending (memPool s) in
   block <- lift (NewBlockFromPrevHeader currentHeader txx) ;;
   block <- match srv_PrivateKey s with
            | None => panic "runtime error: invalid memory address or nil pointer dereference"
            | Some key => lift (Block_Sign block key)
            end ;;
   onChain (VerifyBlock (Some block)) ;;;
   modify (fun s => set_memPool (ClearPending (memPool s)) s) ;;;
   modify (emit [Started (GoBroadcastBlock block)]))%go.

(** ** The rest of the ledger *)

Definition set_openRFQS (l : list Transaction) (bc : Blockchain) : Blockchain :=
  {| db := db bc; headers := headers bc; openRFQS := l;
     closedRFQS := closedRFQS bc; matchedRFQS := matchedRFQS bc;
     rfqRequestsTable := rfqRequestsTable bc; openRFQSTable := openRFQSTable bc;
     closedRFQSTable := closedRFQSTable bc;
     matchedRFQSTable := matchedRFQSTable bc;
     settledRFQSTable := settledRFQSTable bc; quotesTable := quotesTable bc;
     txStore := txStore bc; genesisBlock := genesisBlock bc;
     validator := validator bc; currentBlock := currentBlock bc |}.

(** [GetBlockByHash]: the lookup is commented out in the source; an empty
    block and no error are returned. *)
Definition GetBlockByHash (bc : Blockchain) (hash : Hash) : Res Block :=
  Ok {| blk_header := None; blk_transactions := []; blk_Validator := None |}.

Definition GetTxByHash (bc : Blockchain) (hash : Hash) : Res Transaction :=
  match txStore bc !! hash with
  | Some tx => Ok tx
  | None => Err ("transaction with hash [" +:+ hex hash +:+ "] not found")
  end.

(** [AddOpenRFQTx]: the hash it is given is not used. *)
Definition AddOpenRFQTx (kvHash : Hash) (openRFQ : Transaction) (bc : Blockchain)
  : Blockchain :=
  set_openRFQS (openRFQS bc ++ [openRFQ])%list bc.

Definition GetOpenRFQs (bc : Blockchain) : list Transaction := openRFQS bc.

(** A call of one of the methods that change the chain, and a run of such
    calls one after the other, whatever each returns. *)
Inductive LedgerCall :=
| CallVerifyBlock (b : option Block)
| CallWriteRFQTxs (tx : Transaction)
| CallAddOpenRFQTx (kvHash : Hash) (openRFQ : Transaction).

Definition ledgerCall (c : LedgerCall) (bc : Blockchain) : Blockchain :=
  match c with
  | CallVerifyBlock b => (VerifyBlock b bc).2
  | CallWriteRFQTxs tx => (WriteRFQTxs tx bc).2
  | CallAddOpenRFQTx kvHash openRFQ => AddOpenRFQTx kvHash openRFQ bc
  end.

Definition ledgerCalls (cs : list LedgerCall) (bc : Blockchain) : Blockchain :=
  fold_left (fun bc c => ledgerCall c bc) cs bc.

(** ** The rest of the server *)

Definition processBlock (b : option Block) : M Server unit :=
  (onChain (VerifyBlock b) ;;;
   match b with
   | Some blk => modify (emit [Started (GoBroadcastBlock blk)])
   | None => ret tt
   end)%go.

(** [createStatusMessage]: nil when gob fails. *)
Definition createStatusMessage (s : Server) : option Message :=
  let statusMsg :=
    {| sm_ID := srv_ID s; sm_CurrentLength := len (Headers (chain s)) |} in
  match gob_fault (GobStatus statusMsg) with
  | Some _ => None
  | None => Some (NewMessage MessageTypeStatus (GobStatus statusMsg) (srv_ID s))
  end.

(** The first statement of [statusLoop], before its loop: the height of the
    current head, read through the head pointer.  (The loop then compares
    the pointers to the heights of successive heads, which a model of
    headers as values does not have.) *)
Definition statusLoop_lastBroadcastHeight (s : Server) : Res Z :=
  match CurrentBlock (chain s) with
  | None => Panic "runtime error: invalid memory address or nil pointer dereference"
  | Some h => Ok (hdr_Height h)
  end.

(** [validatorLoop], for a number of ticks of its ticker: one
    [CreateNewBlock] per tick, its error dropped. *)
Fixpoint validatorLoop (ticks : nat) : M Server unit :=
  match ticks with
  | O => ret tt
  | S ticks' =>
      fun s =>
        match CreateNewBlock s with
        | (Panic msg, s') => (Panic msg, s')
        | (_, s') => validatorLoop ticks' s'
        end
  end.

Section Router.

(** [types.NewBlockWithHeader], which returns a block or, as it may for a
    nil header, stops with a run-time fault (its message), and
    [Block.WithBody]; what [TCPPeer.Send] does when handed a nil message;
    the decoder of the transport, which returns a message (or nil) and an
    error (or nil). *)
Variable NewBlockWithHeader : option Header -> Block + string.
Variable WithBody : Block -> list Transaction -> option PublicKey -> Block.
Variable Send_nil : TCPPeer -> Res unit.
Variable RPC : Type.

(** What a decoded message carries.  A block may be nil. *)
Inductive MessageData :=
| DataTransaction (t : Transaction)
| DataBlock (t : option Block)
| DataGetStatus
| DataStatus (t : StatusMessage)
| DataGetBlocks (t : GetBlocksMessage)
| DataBlocks (t : BlocksMessage)
| DataOther.

Record DecodeMessage := {
  dm_From : Addr;
  dm_Data : MessageData
}.

Variable RPCDecodeFunc : RPC -> option DecodeMessage * option error.

(** The body of the loop of [processBlocksMessage] for one pair.  The new
    block is made from the pair's header first; the transactions and the
    validator are then read through the pair's block pointer, which faults
    when the pair came without a block; the error of [VerifyBlock] is logged
    and the loop goes on. *)
Definition processFullBlock (fb : FullBlock) : M Blockchain unit :=
  fun bc =>
    let header := fb_Header fb in
    match NewBlockWithHeader header with
    | inr msg => (Panic msg, bc)
    | inl withHeader =>
        match fb_Block fb with
        | None =>
            (Panic "runtime error: invalid memory address or nil pointer dereference", bc)
        | Some block =>
            let newBlock :=
              WithBody withHeader (blk_transactions block) (blk_Validator block) in
            (Ok tt, (VerifyBlock (Some newBlock) bc).2)
        end
    end.

Fixpoint processFullBlocks (fbs : list FullBlock) : M Blockchain unit :=
  match fbs with
  | [] => ret tt
  | fb :: rest => (processFullBlock fb ;;; processFullBlocks rest)%go
  end.

Definition processBlocksMessage (from : Addr) (data : BlocksMessage) : M Server unit :=
  onChain (processFullBlocks (bm_Blocks data)).

Definition processGetStatusMessage (from : Addr) : M Server unit :=
  fun s =>
    let msg := createStatusMessage s in
    match peerMap s !! from with
    | None => (Err "peer not found", s)
    | Some peer =>
        match msg with
        | None => (Send_nil peer, s)
        | Some msg =>
            let s := emit [Sent (conn_RemoteAddr peer) msg] s in
            match send_fault peer msg with
            | Some e => (Err e, s)
            | None => (Ok tt, s)
            end
        end
    end.

Definition ProcessMessage (msg : DecodeMessage) : M Server unit :=
  match dm_Data msg with
  | DataTransaction t => processTransaction t
  | DataBlock t => processBlock t
  | DataGetStatus => processGetStatusMessage (dm_From msg)
  | DataStatus t => processStatusMessage (dm_From msg) t
  | DataGetBlocks t => processGetBlocksMessage (dm_From msg) t
  | DataBlocks t => processBlocksMessage (dm_From msg) t
  | DataOther => ret tt
  end.

(** What the select of [Start] can receive. *)
Inductive Arrival :=
| PeerArrives (peer : TCPPeer)
| TxArrives (tx : Transaction)
| RpcArrives (rpc : RPC)
| QuitArrives.

Definition set_peerMap (m : gmap Addr TCPPeer) (s : Server) : Server :=
  {| srv_ID := srv_ID s; peerMap := m; memPool := memPool s; chain := chain s;
     isValidator := isValidator s; srv_PrivateKey := srv_PrivateKey s;
     events := events s |}.

(** The error of a handler is logged: the loop goes on with the server as
    the handler left it. *)
Definition logged (r : Res unit * Server) : Res bool * Server :=
  match r with
  | (Panic msg, s) => (Panic msg, s)
  | (_, s) => (Ok true, s)
  end.

(** One turn of the loop of [Start], with the server as its own
    [RPCProcessor]: [true] when the loop goes on, [false] when it is left.
    The peer's read loop, which the turn starts for a new peer, is not part
    of the model.  The decoded message is printed before the error of the
    decoder is looked at, which reads through the message. *)
Definition serve (a : Arrival) : M Server bool :=
  fun s =>
    match a with
    | PeerArrives peer =>
        (Ok true, set_peerMap (<[conn_RemoteAddr peer := peer]> (peerMap s)) s)
    | TxArrives tx => logged (processTransaction tx s)
    | RpcArrives rpc =>
        match RPCDecodeFunc rpc with
        | (None, _) =>
            (Panic "runtime error: invalid memory address or nil pointer dereference", s)
        | (Some msg, Some err) => (Ok true, s)
        | (Some msg, None) => logged (ProcessMessage msg s)
        end
    | QuitArrives => (Ok false, s)
    end.

(** [Start] on the arrivals one after the other, until the loop is left or
    faults. *)
Fixpoint serveAll (arrivals : list Arrival) : M Server bool :=
  match arrivals with
  | [] => ret true
  | a :: arrivals' =>
      fun s =>
        match serve a s with
        | (Ok true, s') => serveAll arrivals' s'
        | (r, s') => (r, s')
        end
  end.

End Router.

(** ** The mutexes *)

(** A [sync.RWMutex], seen from one goroutine: what this goroutine has
    acquired and not yet released.  The other goroutines are taken to
    release what they hold, so an acquisition waits for ever exactly when
    it waits for the goroutine itself: [RLock] while the goroutine holds the
    write lock, [Lock] while it holds the write lock or a read lock. *)
Record Holds := {
  held_write : bool;
  held_read : nat
}.

Definition noHolds : Holds := {| held_write := false; held_read := 0 |}.

Definition RLock (h : Holds) : option Holds :=
  if held_write h then None
  else Some {| held_write := false; held_read := S (held_read h) |}.

Definition RUnlock (h : Holds) : Holds :=
  {| held_write := held_write h; held_read := pred (held_read h) |}.

Definition Lock (h : Holds) : option Holds :=
  if held_write h || (0 <? held_read h)%nat then None
  else Some {| held_write := true; held_read := 0 |}.

Definition Unlock (h : Holds) : Holds :=
  {| held_write := false; held_read := held_read h |}.

(** How a call ends on its goroutine: it returns, with its result, the
    receiver and the holds left, or it waits for the mutex for ever, the
    receiver as it is then. *)
Inductive Run (S A : Type) : Type :=
| Returns (r : Res A) (s : S) (h : Holds)
| Waits (s : S) (h : Holds).

Arguments Returns {S A} r s h.
Arguments Waits {S A} s h.

(** [GetBlock] with [bc.lock]: [Height] takes and releases the read lock;
    after the test of the height the read lock is taken again, and released
    only on the way that returns the block. *)
Definition locked_GetBlock (bc : Blockchain) (height : Z) (h : Holds)
  : Run Blockchain Block :=
  match RLock h with
  | None => Waits bc h
  | Some h1 =>
      let currHeight := Height bc in
      let h := RUnlock h1 in
      let reqHeight := Int64 height in
      if Cmp height currHeight =? 1
      then Returns (Err ("blockchain height [" +:+ pretty currHeight
                         +:+ "] is less than requested height [" +:+ pretty reqHeight
                         +:+ "]")) bc h
      else
        match RLock h with
        | None => Waits bc h
        | Some h1 =>
            match GetBlockHeader bc height with
            | Ok blockHeader =>
                match ReadBlock (db bc) (header_Hash blockHeader) (to_uint64 reqHeight) with
                | None => Returns (Err ("block with hash [" +:+ hex (header_Hash blockHeader)
                                        +:+ "] not found")) bc h1
                | Some block => Returns (Ok block) bc (RUnlock h1)
                end
            | Err e => Returns (Err e) bc h1
            | Panic msg => Returns (Panic msg) bc h1
            end
        end
  end.

(** [addBlockWithoutValidation] with [bc.lock]: the write lock around the
    append and the write to the store. *)
Definition locked_addBlockWithoutValidation (b : Block) (bc : Blockchain) (h : Holds)
  : Run Blockchain unit :=
  match Lock h with
  | None => Waits bc h
  | Some h1 =>
      match addBlockWithoutValidation b bc with
      | (r, bc') => Returns r bc' (Unlock h1)
      end
  end.

(** [VerifyBlock] with [bc.lock], which it takes only in
    [addBlockWithoutValidation]. *)
Definition locked_VerifyBlock (b : option Block) (bc : Blockchain) (h : Holds)
  : Run Blockchain unit :=
  match b with
  | None => Returns (Err "malformed block: is nil") bc h
  | Some b =>
      match blk_header b with
      | None => Returns (Err "malformed block: header is nil") bc h
      | Some _ =>
          match match validator bc with
                | Some v => ValidateBlock v bc b
                | None => None
                end with
          | Some e => Returns (Err e) bc h
          | None =>
              match verifyTransactions (blk_transactions b) with
              | Some e => Returns (Err e) bc h
              | None => locked_addBlockWithoutValidation b bc h
              end
          end
      end
  end.

(** [broadcast] with [s.mu]: the read lock around the sends. *)
Definition locked_broadcast (payload : Message) (s : Server) (h : Holds)
  : Run Server unit :=
  match RLock h with
  | None => Waits s h
  | Some h1 =>
      match broadcast payload s with
      | (r, s') => Returns r s' (RUnlock h1)
      end
  end.

(** [broadcastBlock]: the write lock of [s.mu], then [broadcast]; the
    encoding of the block into the buffer is commented out in the source. *)
Definition locked_broadcastBlock (b : Block) (s : Server) (h : Holds)
  : Run Server unit :=
  match Lock h with
  | None => Waits s h
  | Some h1 =>
      match locked_broadcast (NewMessage MessageTypeBlock EmptyBuffer (srv_ID s)) s h1 with
      | Returns r s' h2 => Returns r s' (Unlock h2)
      | Waits s' h' => Waits s' h'
      end
  end.

Definition locked_broadcastTx (tx : Transaction) (s : Server) (h : Holds)
  : Run Server unit :=
  locked_broadcast (NewMessage MessageTypeTx EmptyBuffer (srv_ID s)) s h.

(** After its height test [GetBlock] does not return a block. *)
Definition leaksReadLock (bc : Blockchain) (height : Z) : bool :=
  negb (Cmp height (Height bc) =? 1) &&
  match GetBlock bc height with
  | Ok _ => false
  | _ => true
  end.

(** The chain is indexed by height: the header at index [i] has height [i],
    and the store has, under its hash and [i], a block with that header. *)
Definition wellIndexed (bc : Blockchain) : Prop :=
  forall (i : nat) (h : Header),
    headers bc !! i = Some h ->
    hdr_Height h = Z.of_nat i /\
    exists b, ReadBlock (db bc) (header_Hash h) (Z.of_nat i) = Some b /\
              blk_header b = Some h.

(** ** Reading the model, for the statements *)

Fixpoint kv_get (k : bytes) (l : list (bytes * bytes)) : option bytes :=
  match l with
  | [] => None
  | (k', v) :: l' => if decide (k' = k) then Some v else kv_get k l'
  end.

(** [Get] on a table. *)
Definition table_Get (t : Table) (d : Database) (k : bytes) : option bytes :=
  kv_get (tbl_prefix t ++ k)%list (db_kv d).

(** The tables of a chain are the six that [NewBlockchain] makes. *)
Definition standardTables (bc : Blockchain) : Prop :=
  rfqRequestsTable bc = NewTable "rfqRequests" /\
  openRFQSTable bc = NewTable "openRFQs" /\
  closedRFQSTable bc = NewTable "closeRFQs" /\
  matchedRFQSTable bc = NewTable "matchedRFQs" /\
  settledRFQSTable bc = NewTable "settledRFQs" /\
  quotesTable bc = NewTable "quotes".

Definition tables (bc : Blockchain) : list Table :=
  [rfqRequestsTable bc; openRFQSTable bc; closedRFQSTable bc;
   matchedRFQSTable bc; settledRFQSTable bc; quotesTable bc].

(** Between [bc] and [bc'] the pair [(k, v)] was written to table [t] and
    nothing else changed: the other keys of [t], the other tables, the
    blocks and the rest of the chain are as before. *)
Definition writtenTo (t : Table) (k v : bytes) (bc bc' : Blockchain) : Prop :=
  table_Get t (db bc') k = Some v /\
  (forall k', k' <> k -> table_Get t (db bc') k' = table_Get t (db bc) k') /\
  (forall t', t' ∈ tables bc -> t' <> t ->
     table_entries t' (db bc') = table_entries t' (db bc)) /\
  db_blocks (db bc') = db_blocks (db bc) /\
  bc' = set_db (db bc') bc.

(** The record [WriteRFQTxs] builds from a request transaction sent by
    [from]. *)
Definition rfqRequestOf (tx : Transaction) (from : Address) : RFQRequest :=
  {| rfq_From := from; rfq_Data := tx_RFQData tx;
     rfq_V := tx_V tx; rfq_R := tx_R tx; rfq_S := tx_S tx |}.

(** The five type tags written under the reference hash, with their tables. *)
Definition referenceTables (bc : Blockchain) : list (Z * Table) :=
  [(OpenRFQTxType, openRFQSTable bc); (ClosedRFQTxType, closedRFQSTable bc);
   (MatchedRFQTxType, matchedRFQSTable bc); (SettledRFQTxType, settledRFQSTable bc);
   (QuoteTxType, quotesTable bc)].

Definition typeTags : list Z :=
  [RFQRequestTxType; OpenRFQTxType; ClosedRFQTxType; MatchedRFQTxType;
   SettledRFQTxType; QuoteTxType].


(** What one turn of the catch-up loop does on a server that is still short
    of [blocksIndex] headers: the request to the peer, then the wait for the
    ticker. *)
Definition catchUpRequest (peer : Addr) (blocksIndex : Z) (s : Server) : list Event :=
  match peerMap s !! peer with
  | Some p =>
      [Sent (conn_RemoteAddr p)
         (NewMessage MessageTypeGetBlocks
            (GobGetBlocks {| gbm_From := to_uint64 blocksIndex;
                             gbm_To := len (Headers (chain s)) |})
            (srv_ID s));
       TickerWait (6 * Second)]
  | None => []
  end.

(** The server is short of [blocksIndex] headers and knows the peer. *)
Definition behind (peer : Addr) (blocksIndex : Z) (s : Server) : Prop :=
  len (Headers (chain s)) < blocksIndex /\ is_Some (peerMap s !! peer).

(** The block [b] passes the checks of [VerifyBlock] on the chain [bc]. *)
Definition passesValidation (bc : Blockchain) (b : Block) : Prop :=
  match validator bc with
  | Some v => ValidateBlock v bc b = None
  | None => True
  end.

(** ** Properties of the ledger *)

Ltac run := unfold bind, get, put, modify, lift, check, ret, fail, panic, onChain in *.

Lemma verifyTransactions_failure (txs : list Transaction) (tx : Transaction) (e : error) :
  tx ∈ txs -> tx_Verify tx = Some e -> exists e', verifyTransactions txs = Some e'.
Proof.
  induction txs as [|tx0 txs IH]; intros Hin He.
  - inversion Hin.
  - simpl. destruct (tx_Verify tx0) as [e0|] eqn:E0; [eauto|].
    apply elem_of_cons in Hin as [->|Hin]; [congruence|auto].
Qed.

Lemma verifyTransactions_ok (txs : list Transaction) :
  verifyTransactions txs = None <-> Forall (fun tx => tx_Verify tx = None) txs.
Proof.
  induction txs as [|tx0 txs IH]; simpl.
  - split; auto.
  - destruct (tx_Verify tx0) eqn:E0; split; intros H.
    + discriminate.
    + inversion H; congruence.
    + constructor; [assumption | apply IH, H].
    + inversion H; subst. apply IH. assumption.
Qed.

Lemma addBlockWithoutValidation_spec (b : Block) (h : Header) (bc : Blockchain) :
  blk_header b = Some h ->
  exists bc', addBlockWithoutValidation b bc = (Ok tt, bc') /\
    headers bc' = (headers bc ++ [h])%list /\
    db bc' = WriteBlock (db bc) b /\
    currentBlock bc' = Some h /\
    validator bc' = validator bc /\
    tables bc' = tables bc.
Proof.
  intros Hh. unfold addBlockWithoutValidation. rewrite Hh.
  destruct (len _ =? 1); eexists; (split; [reflexivity|]); simpl; auto.
Qed.

Lemma ReadBlock_WriteBlock (d : Database) (b : Block) (h : Header) :
  blk_header b = Some h ->
  ReadBlock (WriteBlock d b) (header_Hash h) (Uint64 (hdr_Height h)) = Some b.
Proof.
  intros Hh. unfold ReadBlock, WriteBlock. rewrite Hh. simpl.
  apply lookup_insert_eq.
Qed.

Lemma VerifyBlock_some (b : Block) (h : Header) (bc : Blockchain) :
  blk_header b = Some h ->
  VerifyBlock (Some b) bc =
    match validator bc with
    | Some v =>
        match ValidateBlock v bc b with
        | Some e => (Err e, bc)
        | None =>
            match verifyTransactions (blk_transactions b) with
            | Some e => (Err e, bc)
            | None => addBlockWithoutValidation b bc
            end
        end
    | None =>
        match verifyTransactions (blk_transactions b) with
        | Some e => (Err e, bc)
        | None => addBlockWithoutValidation b bc
        end
    end.
Proof.
  intros Hh. unfold VerifyBlock. rewrite Hh. run.
  destruct (validator bc) as [v|]; simpl.
  - destruct (ValidateBlock v bc b); simpl; [reflexivity|].
    destruct (verifyTransactions _); reflexivity.
  - destruct (verifyTransactions _); reflexivity.
Qed.

Lemma VerifyBlock_not_ok (b : option Block) (r : Res unit) (bc bc' : Blockchain) :
  VerifyBlock b bc = (r, bc') -> r <> Ok tt -> (exists e, r = Err e) /\ bc' = bc.
Proof.
  intros Hrun Hr. destruct b as [b|]; [|inversion Hrun; subst; eauto].
  destruct (blk_header b) as [h|] eqn:Hh.
  - rewrite (VerifyBlock_some b h bc Hh) in Hrun.
    destruct (addBlockWithoutValidation_spec b h bc Hh) as (bc2 & Hadd & _).
    rewrite Hadd in Hrun.
    destruct (validator bc) as [v|];
      [destruct (ValidateBlock v bc b)|];
      destruct (verifyTransactions (blk_transactions b));
      inversion Hrun; subst; eauto; congruence.
  - unfold VerifyBlock in Hrun. rewrite Hh in Hrun. inversion Hrun; subst; eauto.
Qed.

Lemma VerifyBlock_ok_inv (b : option Block) (bc bc' : Blockchain) :
  VerifyBlock b bc = (Ok tt, bc') ->
  exists blk h, b = Some blk /\ blk_header blk = Some h /\
    addBlockWithoutValidation blk bc = (Ok tt, bc') /\
    passesValidation bc blk /\
    verifyTransactions (blk_transactions blk) = None.
Proof.
  intros Hrun. destruct b as [b|]; [|discriminate].
  destruct (blk_header b) as [h|] eqn:Hh.
  - rewrite (VerifyBlock_some b h bc Hh) in Hrun.
    exists b, h. unfold passesValidation.
    destruct (validator bc) as [v|];
      [destruct (ValidateBlock v bc b)|];
      destruct (verifyTransactions (blk_transactions b)); try discriminate; auto.
  - unfold VerifyBlock in Hrun. rewrite Hh in Hrun. discriminate.
Qed.

Lemma VerifyBlock_ok_state (b : option Block) (bc bc' : Blockchain) :
  VerifyBlock b bc = (Ok tt, bc') ->
  exists blk h, b = Some blk /\ blk_header blk = Some h /\
    headers bc' = (headers bc ++ [h])%list /\
    Height bc' = Height bc + 1 /\
    ReadBlock (db bc') (header_Hash h) (Uint64 (hdr_Height h)) = Some blk /\
    CurrentBlock bc' = Some h.
Proof.
  intros Hrun. apply VerifyBlock_ok_inv in Hrun as (blk & h & -> & Hh & Hadd & _).
  destruct (addBlockWithoutValidation_spec blk h bc Hh)
    as (bc2 & Hadd2 & Hhs & Hdb & Hcur & _).
  assert (bc' = bc2) as -> by congruence.
  exists blk, h. repeat split; auto.
  - unfold Height, len. rewrite Hhs, length_app. simpl. lia.
  - rewrite Hdb. apply ReadBlock_WriteBlock. assumption.
Qed.

(** C1.  [VerifyBlock] returns an error for a nil block, for a block with a
    nil header, for a block that fails the block-level validation, and for
    a block one of whose transactions fails to verify.  Whenever it does
    not return nil the chain is left as it was: no header appended, the
    height and the head pointer unchanged.  When it returns nil the header
    is appended, the height is one more, the block can be read back from the
    store under its hash and height, and the head pointer is the block's
    header.  A block with a header that passes the validation and whose
    transactions all verify is accepted. *)
Theorem VerifyBlock_rejects_or_appends (bc : Blockchain) :
  VerifyBlock None bc = (Err "malformed block: is nil", bc) /\
  (forall b, blk_header b = None ->
     VerifyBlock (Some b) bc = (Err "malformed block: header is nil", bc)) /\
  (forall b v e, blk_header b <> None -> validator bc = Some v ->
     ValidateBlock v bc b = Some e -> VerifyBlock (Some b) bc = (Err e, bc)) /\
  (forall b tx e, blk_header b <> None -> tx ∈ blk_transactions b ->
     tx_Verify tx = Some e -> exists e', VerifyBlock (Some b) bc = (Err e', bc)) /\
  (forall b r bc', VerifyBlock b bc = (r, bc') -> r <> Ok tt ->
     (exists e, r = Err e) /\ bc' = bc) /\
  (forall b bc', VerifyBlock b bc = (Ok tt, bc') ->
     exists blk h, b = Some blk /\ blk_header blk = Some h /\
       headers bc' = (headers bc ++ [h])%list /\
       Height bc' = Height bc + 1 /\
       ReadBlock (db bc') (header_Hash h) (Uint64 (hdr_Height h)) = Some blk /\
       CurrentBlock bc' = Some h) /\
  (forall blk h, blk_header blk = Some h -> passesValidation bc blk ->
     Forall (fun tx => tx_Verify tx = None) (blk_transactions blk) ->
     exists bc', VerifyBlock (Some blk) bc = (Ok tt, bc')).
Proof.
  split; [reflexivity|].
  split; [intros b Hb; unfold VerifyBlock; rewrite Hb; reflexivity|].
  split.
  { intros b v e Hb Hv He. destruct (blk_header b) as [h|] eqn:Hh; [|congruence].
    rewrite (VerifyBlock_some b h bc Hh), Hv, He. reflexivity. }
  split.
  { intros b tx e Hb Hin He. destruct (blk_header b) as [h|] eqn:Hh; [|congruence].
    rewrite (VerifyBlock_some b h bc Hh).
    destruct (verifyTransactions_failure _ _ _ Hin He) as [e' He'].
    rewrite He'. destruct (validator bc) as [v|]; [|eauto].
    destruct (ValidateBlock v bc b); eauto. }
  split; [intros b r bc'; apply VerifyBlock_not_ok|].
  split; [intros b bc'; apply VerifyBlock_ok_state|].
  intros blk h Hh Hpass Htxs.
  rewrite (VerifyBlock_some blk h bc Hh).
  apply verifyTransactions_ok in Htxs. rewrite Htxs.
  destruct (addBlockWithoutValidation_spec blk h bc Hh) as (bc2 & Hadd & _).
  unfold passesValidation in Hpass.
  destruct (validator bc) as [v|]; [rewrite Hpass|]; eauto.
Qed.

Lemma Int64_small (x : Z) : 0 <= x < two63 -> Int64 x = x.
Proof.
  intros Hx. unfold Int64, to_int64, two64, two63 in *.
  rewrite Z.abs_eq by lia.
  destruct (x <? 0) eqn:E; [apply Z.ltb_lt in E; lia|].
  rewrite (Z.mod_small x) by lia.
  rewrite Z.mod_small by lia. lia.
Qed.

Lemma Cmp_gt (x y : Z) : (Cmp x y =? 1) = (y <? x).
Proof.
  unfold Cmp. destruct (Z.compare_spec x y); simpl; symmetry.
  - apply Z.ltb_ge. lia.
  - apply Z.ltb_ge. lia.
  - apply Z.ltb_lt. lia.
Qed.

Lemma index_in_range {A} (l : list A) (i : Z) :
  0 <= i < len l -> exists a, index l i = Ok a /\ l !! Z.to_nat i = Some a.
Proof.
  intros Hi. unfold index.
  assert ((i <? 0) = false) as -> by (apply Z.ltb_ge; lia).
  destruct (l !! Z.to_nat i) as [a|] eqn:E; [eauto|].
  apply lookup_ge_None in E. unfold len in Hi. lia.
Qed.

Lemma index_out_of_range {A} (l : list A) (i : Z) :
  len l <= i ->
  index l i = Panic ("runtime error: index out of range [" +:+ pretty i
                     +:+ "] with length " +:+ pretty (len l)).
Proof.
  intros Hi. unfold index. assert (0 <= len l) by (unfold len; lia).
  assert ((i <? 0) = false) as -> by (apply Z.ltb_ge; lia).
  assert (l !! Z.to_nat i = None) as ->; [|reflexivity].
  apply lookup_ge_None. unfold len in Hi. lia.
Qed.

Lemma index_negative {A} (l : list A) (i : Z) :
  i < 0 ->
  index l i = Panic ("runtime error: index out of range [" +:+ pretty i +:+ "]").
Proof.
  intros Hi. unfold index.
  assert ((i <? 0) = true) as -> by (apply Z.ltb_lt; lia). reflexivity.
Qed.

(** Above the height of the chain [GetBlock] returns its error. *)
Lemma GetBlock_above_height (bc : Blockchain) (height : Z) :
  Height bc < height ->
  GetBlock bc height =
    Err ("blockchain height [" +:+ pretty (Height bc)
         +:+ "] is less than requested height [" +:+ pretty (Int64 height) +:+ "]").
Proof.
  intros Hh. unfold GetBlock. rewrite Cmp_gt.
  apply Z.ltb_lt in Hh. rewrite Hh. reflexivity.
Qed.

(** Above the length of the header list [GetBlockHeader] returns its error. *)
Lemma GetBlockHeader_above_length (bc : Blockchain) (height : Z) :
  len (headers bc) < height ->
  GetBlockHeader bc height =
    Err ("blockchain height [" +:+ pretty (len (headers bc))
         +:+ "] is less than requested height [" +:+ pretty (Int64 height) +:+ "]").
Proof.
  intros Hh. unfold GetBlockHeader. rewrite Cmp_gt.
  apply Z.ltb_lt in Hh. rewrite Hh. reflexivity.
Qed.

Lemma GetBlockHeader_in_range (bc : Blockchain) (height : Z) :
  0 <= height < len (headers bc) -> len (headers bc) < two63 ->
  exists h, GetBlockHeader bc height = Ok h /\ headers bc !! Z.to_nat height = Some h.
Proof.
  intros Hh Hlen. unfold GetBlockHeader. rewrite Cmp_gt.
  assert ((len (headers bc) <? height) = false) as -> by (apply Z.ltb_ge; lia).
  rewrite Int64_small by lia. apply index_in_range. assumption.
Qed.

(** C2.  One past the last header: the height equal to the length of the
    header list is above the height of the chain, [GetBlock] returns its
    error there, and [GetBlockHeader] passes its own test (which compares
    with the length, not with the height) and indexes the list out of
    range, which is a run-time fault, not an error. *)
Theorem GetBlockHeader_one_past_last_faults (bc : Blockchain) :
  len (headers bc) < two63 ->
  Height bc < len (headers bc) /\
  is_error (GetBlock bc (len (headers bc))) = true /\
  GetBlockHeader bc (len (headers bc)) =
    Panic ("runtime error: index out of range [" +:+ pretty (len (headers bc))
           +:+ "] with length " +:+ pretty (len (headers bc))).
Proof.
  intros Hlen. assert (0 <= len (headers bc)) by (unfold len; lia).
  split; [unfold Height; lia|]. split.
  - rewrite GetBlock_above_height by (unfold Height; lia). reflexivity.
  - unfold GetBlockHeader. rewrite Cmp_gt, Z.ltb_irrefl, Int64_small by lia.
    apply index_out_of_range. lia.
Qed.

(** What [NewBlockchain] does for a validator node, step by step. *)
Lemma NewBlockchain_validator_inv (genesis : Block) (d : Database) (bc : Blockchain) :
  NewBlockchain genesis d true = Ok bc ->
  exists h g,
    blk_header genesis = Some h /\
    ReadBlock (WriteBlock d genesis) (header_Hash h) 0 = Some g /\
    bc = set_currentBlock None
           (set_genesisBlock (Some g)
              (set_genesisBlock (Some genesis)
                 (set_currentBlock (Some h)
                    (set_db (WriteBlock d genesis)
                       (set_headers [h]
                          (SetValidator NewBlockValidator (emptyChain d))))))).
Proof.
  unfold NewBlockchain, addBlockWithoutValidation. simpl.
  destruct (blk_header genesis) as [h|] eqn:Hh; [|discriminate].
  simpl. unfold GetBlock, GetBlockHeader, Height, ReadBlock. simpl.
  intros Hrun. exists h.
  match type of Hrun with
  | context [db_blocks ?m !! ?k] => destruct (db_blocks m !! k) as [g|] eqn:Hg
  end; [|discriminate].
  exists g. split; [reflexivity|]. split; [exact Hg|]. congruence.
Qed.

Lemma NewBlockchain_validator_total (genesis : Block) (d : Database) (h : Header) :
  blk_header genesis = Some h -> Uint64 (hdr_Height h) = 0 ->
  exists bc, NewBlockchain genesis d true = Ok bc.
Proof.
  intros Hh H0. unfold NewBlockchain, addBlockWithoutValidation. simpl.
  rewrite Hh. simpl. unfold GetBlock, GetBlockHeader, Height. simpl.
  change (to_uint64 (Int64 0)) with 0. rewrite <- H0.
  rewrite (ReadBlock_WriteBlock d genesis h Hh). eauto.
Qed.

(** C9.  After [NewBlockchain] has returned a chain for a validator node,
    the genesis block is committed (its header is the one header of the
    chain, the height is 0, the block is read back by [GetBlock] and kept as
    the genesis block) and [CurrentBlock] returns nil.  The head pointer
    becomes non-nil with the next [VerifyBlock] that returns nil, and stays
    nil through every [VerifyBlock] that does not. *)
Theorem NewBlockchain_validator_head_is_nil (genesis : Block) (d : Database)
    (bc : Blockchain) :
  NewBlockchain genesis d true = Ok bc ->
  CurrentBlock bc = None /\
  Height bc = 0 /\
  (exists h g, blk_header genesis = Some h /\ headers bc = [h] /\
     GetBlock bc 0 = Ok g /\ genesisBlock bc = Some g) /\
  (forall b bc', VerifyBlock b bc = (Ok tt, bc') ->
     exists blk h, b = Some blk /\ blk_header blk = Some h /\
       CurrentBlock bc' = Some h) /\
  (forall b r bc', VerifyBlock b bc = (r, bc') -> r <> Ok tt ->
     CurrentBlock bc' = None).
Proof.
  intros Hnew.
  pose proof (NewBlockchain_validator_inv _ _ _ Hnew) as (h & g & Hh & Hg & Hbc).
  assert (Hcur : CurrentBlock bc = None) by (rewrite Hbc; reflexivity).
  split; [exact Hcur|]. split; [rewrite Hbc; reflexivity|]. split.
  - exists h, g. split; [exact Hh|]. rewrite Hbc.
    split; [reflexivity|]. split; [|reflexivity].
    unfold GetBlock, GetBlockHeader, Height. simpl.
    change (to_uint64 (Int64 0)) with 0. rewrite Hg. reflexivity.
  - split.
    + intros b bc' Hrun.
      apply VerifyBlock_ok_state in Hrun
        as (blk & h' & -> & Hh' & _ & _ & _ & Hc).
      eauto.
    + intros b r bc' Hrun Hr.
      apply VerifyBlock_not_ok in Hrun as [_ ->]; assumption.
Qed.

(** *** The tables over the one store *)

Lemma to_N_inj (x y : byte) : Byte.to_N x = Byte.to_N y -> x = y.
Proof.
  intros H. pose proof (Byte.of_to_N x) as Hx. rewrite H, Byte.of_to_N in Hx.
  congruence.
Qed.

Lemma bytes_compare_refl (a : bytes) : bytes_compare a a = Eq.
Proof. induction a as [|x a IH]; simpl; [reflexivity|]. rewrite N.compare_refl. exact IH. Qed.

Lemma bytes_compare_Eq (a b : bytes) : bytes_compare a b = Eq -> a = b.
Proof.
  revert b. induction a as [|x a IH]; intros [|y b]; simpl; try discriminate; auto.
  destruct (N.compare_spec (Byte.to_N x) (Byte.to_N y)) as [E| |]; try discriminate.
  intros H. apply to_N_inj in E. f_equal; auto.
Qed.

Lemma kv_get_put_eq (k v : bytes) (l : list (bytes * bytes)) :
  kv_get k (kv_put k v l) = Some v.
Proof.
  induction l as [|[k' v'] l IH]; simpl.
  - rewrite decide_True; reflexivity.
  - destruct (bytes_compare k k') eqn:E; simpl.
    + rewrite decide_True; reflexivity.
    + rewrite decide_True; reflexivity.
    + rewrite decide_False; [exact IH|].
      intros ->. rewrite bytes_compare_refl in E. discriminate.
Qed.

Lemma kv_get_put_ne (k k0 v : bytes) (l : list (bytes * bytes)) :
  k0 <> k -> kv_get k0 (kv_put k v l) = kv_get k0 l.
Proof.
  intros Hne. induction l as [|[k' v'] l IH]; simpl.
  - rewrite decide_False; [reflexivity|congruence].
  - destruct (bytes_compare k k') eqn:E; simpl.
    + apply bytes_compare_Eq in E. subst k'.
      rewrite !decide_False by congruence. reflexivity.
    + rewrite (decide_False (P := k = k0)) by congruence. reflexivity.
    + rewrite IH. reflexivity.
Qed.


Lemma omap_cons {A B} (f : A -> option B) (x : A) (l : list A) :
  omap f (x :: l) = match f x with
                    | Some y => y :: omap f l
                    | None => omap f l
                    end.
Proof. reflexivity. Qed.

(** A write under a key that is not of table [t] leaves the pairs of [t]. *)
Lemma table_entries_put_other (t : Table) (k v : bytes) (l : list (bytes * bytes)) :
  strip_prefix (tbl_prefix t) k = None ->
  omap (table_entry t) (kv_put k v l) = omap (table_entry t) l.
Proof.
  intros Hk.
  assert (Hkv : forall v0, table_entry t (k, v0) = None).
  { intros v0. unfold table_entry. simpl. rewrite Hk. reflexivity. }
  induction l as [|[k' v'] l IH]; cbn [kv_put].
  - rewrite omap_cons, Hkv. reflexivity.
  - destruct (bytes_compare k k') eqn:E; rewrite !omap_cons.
    + apply bytes_compare_Eq in E. subst k'. rewrite !Hkv. reflexivity.
    + rewrite Hkv. reflexivity.
    + rewrite IH. reflexivity.
Qed.


(** The names of the six tables start with six different letters, so no key
    of one table is a key of another. *)
Lemma standard_tables_apart (bc : Blockchain) (t t' : Table) (k : bytes) :
  standardTables bc -> t ∈ tables bc -> t' ∈ tables bc -> t' <> t ->
  strip_prefix (tbl_prefix t') (tbl_prefix t ++ k)%list = None.
Proof.
  intros (H1 & H2 & H3 & H4 & H5 & H6) Ht Ht' Hne.
  unfold tables in *. rewrite H1, H2, H3, H4, H5, H6 in *.
  repeat (apply elem_of_cons in Ht as [->|Ht]);
    try (apply elem_of_nil in Ht; contradiction);
    repeat (apply elem_of_cons in Ht' as [->|Ht']);
    try (apply elem_of_nil in Ht'; contradiction);
    try contradiction; reflexivity.
Qed.

Lemma putResult_writtenTo (bc : Blockchain) (t : Table) (k v : bytes) :
  standardTables bc -> t ∈ tables bc ->
  put_fault (db bc) (tbl_prefix t ++ k)%list v = None ->
  exists bc', putResult bc (table_Put t (db bc) k v) = (Ok tt, bc') /\
    writtenTo t k v bc bc'.
Proof.
  intros Hstd Ht Hput. unfold table_Put, db_Put, putResult. rewrite Hput.
  eexists. split; [reflexivity|]. unfold writtenTo, table_Get. simpl.
  split; [apply kv_get_put_eq|].
  split.
  { intros k' Hk'. apply kv_get_put_ne. intros Heq. apply app_inv_head in Heq. auto. }
  split; [|split; reflexivity].
  intros t' Ht' Hne. unfold table_entries. simpl.
  apply table_entries_put_other. eapply standard_tables_apart; eauto.
Qed.

(** The chains the ledger makes have the six tables. *)
Lemma standardTables_tables (bc bc' : Blockchain) :
  tables bc' = tables bc -> standardTables bc -> standardTables bc'.
Proof.
  unfold tables, standardTables. intros [= -> -> -> -> -> ->]. auto.
Qed.

Lemma NewBlockchain_standardTables (genesis : Block) (d : Database) (v : bool)
    (bc : Blockchain) :
  NewBlockchain genesis d v = Ok bc -> standardTables bc.
Proof.
  destruct v.
  - intros Hnew. apply NewBlockchain_validator_inv in Hnew as (h & g & _ & _ & ->).
    repeat split.
  - unfold NewBlockchain. intros [= <-]. repeat split.
Qed.

Lemma VerifyBlock_standardTables (b : option Block) (r : Res unit) (bc bc' : Blockchain) :
  VerifyBlock b bc = (r, bc') -> standardTables bc -> standardTables bc'.
Proof.
  intros Hrun Hstd. destruct r as [[]|e|msg].
  - apply VerifyBlock_ok_inv in Hrun as (blk & h & _ & Hh & Hadd & _).
    destruct (addBlockWithoutValidation_spec blk h bc Hh) as (bc2 & Hadd2 & _ & _ & _ & _ & Ht).
    assert (bc' = bc2) as -> by congruence.
    exact (standardTables_tables _ _ Ht Hstd).
  - apply VerifyBlock_not_ok in Hrun as [_ ->]; [exact Hstd|discriminate].
  - apply VerifyBlock_not_ok in Hrun as [_ ->]; [exact Hstd|discriminate].
Qed.

Lemma WriteRFQTxs_standardTables (tx : Transaction) (r : Res unit) (bc bc' : Blockchain) :
  WriteRFQTxs tx bc = (r, bc') -> standardTables bc -> standardTables bc'.
Proof.
  assert (Hput : forall p, standardTables bc -> standardTables (putResult bc p).2).
  { intros [[e|] d] H; exact H. }
  intros Hrun Hstd. replace bc' with (WriteRFQTxs tx bc).2 by (rewrite Hrun; reflexivity).
  unfold WriteRFQTxs. cbv zeta.
  repeat match goal with
         | |- context [if ?c then _ else _] => destruct c
         | |- context [match tx_From tx with _ => _ end] => destruct (tx_From tx)
         | |- context [match EncodeRLP ?x with _ => _ end] => destruct (EncodeRLP x)
         end; try apply Hput; exact Hstd.
Qed.

Lemma typeTags_distinct :
  NoDup typeTags ->
  RFQRequestTxType <> OpenRFQTxType /\ RFQRequestTxType <> ClosedRFQTxType /\
  RFQRequestTxType <> MatchedRFQTxType /\ RFQRequestTxType <> SettledRFQTxType /\
  RFQRequestTxType <> QuoteTxType /\
  OpenRFQTxType <> ClosedRFQTxType /\ OpenRFQTxType <> MatchedRFQTxType /\
  OpenRFQTxType <> SettledRFQTxType /\ OpenRFQTxType <> QuoteTxType /\
  ClosedRFQTxType <> MatchedRFQTxType /\ ClosedRFQTxType <> SettledRFQTxType /\
  ClosedRFQTxType <> QuoteTxType /\
  MatchedRFQTxType <> SettledRFQTxType /\ MatchedRFQTxType <> QuoteTxType /\
  SettledRFQTxType <> QuoteTxType.
Proof.
  unfold typeTags. intros Hnd.
  repeat (apply NoDup_cons in Hnd as [? Hnd]).
  repeat match goal with
         | H : _ ∉ _ :: _ |- _ => apply not_elem_of_cons in H as [? ?]
         end.
  repeat split; assumption.
Qed.

Ltac decide_tags :=
  repeat match goal with
         | |- context [?a =? ?a] => rewrite (Z.eqb_refl a)
         | |- context [?a =? ?b] => rewrite (proj2 (Z.eqb_neq a b)) by congruence
         end.

(** C3.  [WriteRFQTxs] routes by the type tag.  On a chain with the six
    tables of [NewBlockchain] and a store that takes the write: a request
    transaction is written to the request table under the transaction's own
    hash, its value the encoded [RFQRequest]; an open, closed, matched,
    settled or quote transaction is written to the table of its type under
    its [ReferenceTxHash], its value the transaction's data; in each case
    the other keys, the other tables and the blocks are as before.  For a
    type tag that is none of the six the call returns the error "unknown
    transaction type: " followed by the tag, and the chain is unchanged. *)
Theorem WriteRFQTxs_routes_by_type (bc : Blockchain) (tx : Transaction) :
  standardTables bc -> NoDup typeTags ->
  (forall from enc,
     tx_Type tx = RFQRequestTxType -> tx_From tx = Some from ->
     EncodeRLP (rfqRequestOf tx from) = Ok enc ->
     put_fault (db bc) (tbl_prefix (rfqRequestsTable bc) ++ tx_Hash tx)%list enc = None ->
     exists bc', WriteRFQTxs tx bc = (Ok tt, bc') /\
       writtenTo (rfqRequestsTable bc) (tx_Hash tx) enc bc bc') /\
  (forall t,
     (tx_Type tx, t) ∈ referenceTables bc ->
     put_fault (db bc) (tbl_prefix t ++ tx_ReferenceTxHash tx)%list (tx_Data tx) = None ->
     exists bc', WriteRFQTxs tx bc = (Ok tt, bc') /\
       writtenTo t (tx_ReferenceTxHash tx) (tx_Data tx) bc bc') /\
  (tx_Type tx ∉ typeTags ->
     WriteRFQTxs tx bc =
       (Err ("unknown transaction type: " +:+ pretty (tx_Type tx)), bc)).
Proof.
  clear tx_Verify ValidateBlock NewBlockValidator GetHeader DecodeBytes.
  intros Hstd Hnd. pose proof (typeTags_distinct Hnd) as Htags. destruct_and!.
  split; [|split].
  - intros from enc Hty Hfrom Henc Hput.
    unfold WriteRFQTxs. cbv zeta. rewrite Hty. decide_tags. rewrite Hfrom.
    fold (rfqRequestOf tx from). rewrite Henc.
    apply putResult_writtenTo; auto. unfold tables. set_solver.
  - intros t Hin Hput. unfold referenceTables in Hin.
    repeat (apply elem_of_cons in Hin as [Hin|Hin]);
      try (apply elem_of_nil in Hin; contradiction);
      inversion Hin as [[Hty Ht]]; rewrite Ht in *; clear Ht;
      unfold WriteRFQTxs; cbv zeta; rewrite Hty; decide_tags;
      (apply putResult_writtenTo; [assumption | unfold tables; set_solver | assumption]).
  - intros Hnot. unfold typeTags in Hnot.
    repeat (apply not_elem_of_cons in Hnot as [? Hnot]).
    unfold WriteRFQTxs. cbv zeta.
    rewrite !(proj2 (Z.eqb_neq _ _)) by assumption. reflexivity.
Qed.





(** ** Properties of the server *)

Lemma to_int64_small (x : Z) : 0 <= x < two63 -> to_int64 x = x.
Proof.
  intros Hx. unfold to_int64, two64, two63 in *. rewrite Z.mod_small by lia. lia.
Qed.

Lemma collectBlocks_stops (bc : Blockchain) (heights : list Z) (i : Z)
    (acc : list FullBlock) :
  i ∈ heights -> is_error (GetBlock bc i) = true ->
  forall fullBlocks, collectBlocks bc heights acc <> Ok fullBlocks.
Proof.
  revert acc. induction heights as [|j heights IH]; intros acc Hin Herr fullBlocks.
  - inversion Hin.
  - simpl. apply elem_of_cons in Hin as [<-|Hin].
    + destruct (GetBlock bc i); [discriminate|discriminate|discriminate].
    + destruct (GetBlock bc j); [eapply IH; eauto|discriminate|discriminate].
Qed.

(** X26.  A [GetBlocks] range with a bound above the length of the header
    list is answered once, with an empty batch and no error. *)
Lemma processGetBlocksMessage_beyond_length (s : Server) (from : Addr)
    (data : GetBlocksMessage) (peer : TCPPeer) :
  len (Headers (chain s)) < gbm_From data \/ len (Headers (chain s)) < gbm_To data ->
  (forall m, gob_fault (GobBlocks m) = None) ->
  peerMap s !! from = Some peer ->
  (forall m, send_fault peer m = None) ->
  processGetBlocksMessage from data s =
    (Ok tt,
     emit [Sent (conn_RemoteAddr peer)
             (NewMessage MessageTypeBlocks (GobBlocks {| bm_Blocks := [] |}) (srv_ID s))] s).
Proof.
  intros Hout Hgob Hpeer Hsend. unfold processGetBlocksMessage. cbv zeta.
  assert ((gbm_From data <=? len (Headers (chain s)))
          && (gbm_To data <=? len (Headers (chain s))) = false) as ->.
  { apply andb_false_iff. destruct Hout; [left|right]; apply Z.leb_gt; lia. }
  rewrite Hgob, Hpeer, Hsend. reflexivity.
Qed.

(** C5.  A [GetBlocks] message whose upper bound [From] is the length of the
    responder's header list, which is what the catch-up loop of a peer asks
    for after a [Status] with that length, passes the guard of
    [processGetBlocksMessage]; the walk over the heights [To .. From] then
    asks [GetBlock] for the height [From], one above the height of the
    chain, and the handler returns without sending anything: no batch, full
    or empty, reaches the peer, and the server is as it was. *)
Theorem processGetBlocksMessage_at_length_no_reply (s : Server) (from : Addr)
    (data : GetBlocksMessage) :
  len (Headers (chain s)) < two63 ->
  gbm_From data = len (Headers (chain s)) ->
  0 <= gbm_To data <= gbm_From data ->
  exists r, processGetBlocksMessage from data s = (r, s) /\ r <> Ok tt.
Proof.
  intros Hlen Hfrom Hto. unfold processGetBlocksMessage. cbv zeta.
  assert ((gbm_From data <=? len (Headers (chain s)))
          && (gbm_To data <=? len (Headers (chain s))) = true) as ->.
  { apply andb_true_iff. split; apply Z.leb_le; lia. }
  rewrite !to_int64_small by lia.
  pose proof (collectBlocks_stops (chain s)
                (seqZ (gbm_To data) (gbm_From data - gbm_To data + 1))
                (gbm_From data) []) as Hstop.
  destruct (collectBlocks _ _ _) as [fullBlocks|e|msg].
  - exfalso. apply (Hstop) with (fullBlocks := fullBlocks); [|  |reflexivity].
    + apply elem_of_seqZ. lia.
    + rewrite Hfrom. unfold Headers.
      rewrite GetBlock_above_height by (unfold Height; lia). reflexivity.
  - eexists. split; [reflexivity|discriminate].
  - eexists. split; [reflexivity|discriminate].
Qed.

Lemma collectBlocks_ok (bc : Blockchain) (heights : list Z) (fbs acc : list FullBlock) :
  Forall2 (fun i fb => exists b, GetBlock bc i = Ok b /\ fb_Block fb = Some b /\
                                 fb_Header fb = blk_header b) heights fbs ->
  collectBlocks bc heights acc = Ok (acc ++ fbs)%list.
Proof.
  intros H. revert acc.
  induction H as [|i [b h] heights fbs (b0 & Hb & Hfb & Hh) _ IH]; intros acc; simpl.
  - rewrite app_nil_r. reflexivity.
  - simpl in Hfb, Hh. rewrite Hb, IH, <- app_assoc, Hfb, Hh. reflexivity.
Qed.

(** A range below the length of the header list, all of whose blocks
    [GetBlock] returns, is answered once, with one pair per height, lowest
    height first. *)
Lemma processGetBlocksMessage_in_range (s : Server) (from : Addr)
    (data : GetBlocksMessage) (peer : TCPPeer) (fbs : list FullBlock) :
  len (Headers (chain s)) < two63 ->
  0 <= gbm_To data <= len (Headers (chain s)) ->
  0 <= gbm_From data <= len (Headers (chain s)) ->
  Forall2 (fun i fb => exists b, GetBlock (chain s) i = Ok b /\ fb_Block fb = Some b /\
                                 fb_Header fb = blk_header b)
          (seqZ (gbm_To data) (gbm_From data - gbm_To data + 1)) fbs ->
  (forall m, gob_fault (GobBlocks m) = None) ->
  peerMap s !! from = Some peer ->
  (forall m, send_fault peer m = None) ->
  processGetBlocksMessage from data s =
    (Ok tt,
     emit [Sent (conn_RemoteAddr peer)
             (NewMessage MessageTypeBlocks (GobBlocks {| bm_Blocks := fbs |}) (srv_ID s))] s).
Proof.
  intros Hlen Hto Hfrom Hall Hgob Hpeer Hsend.
  unfold processGetBlocksMessage. cbv zeta.
  assert ((gbm_From data <=? len (Headers (chain s)))
          && (gbm_To data <=? len (Headers (chain s))) = true) as ->.
  { apply andb_true_iff. split; apply Z.leb_le; lia. }
  rewrite !to_int64_small by lia.
  rewrite (collectBlocks_ok _ _ _ _ Hall). simpl.
  rewrite Hgob, Hpeer, Hsend. reflexivity.
Qed.

(** *** The mempool and the transaction handler *)

Lemma Contains_spec (p : TxPool) (hash : Hash) :
  Contains p hash = true <-> hash ∈ map tx_Hash (pool_all p).
Proof.
  unfold Contains. rewrite existsb_exists. split.
  - intros (tx & Hin & Heq). apply bool_decide_eq_true in Heq. subst hash.
    apply list_elem_of_In, in_map, Hin.
  - intros Hin. apply list_elem_of_In, in_map_iff in Hin as (tx & Heq & Hin).
    exists tx. split; [exact Hin|]. apply bool_decide_eq_true. exact Heq.
Qed.

Lemma Add_new (p : TxPool) (tx : Transaction) :
  Contains p (tx_Hash tx) = false -> Pending (Add p tx) = (Pending p ++ [tx])%list.
Proof. intros H. unfold Add. rewrite H. reflexivity. Qed.

Lemma processTransaction_new (s : Server) (tx : Transaction) :
  Contains (memPool s) (tx_Hash tx) = false ->
  processTransaction tx s =
    (Ok tt, set_memPool (Add (memPool s) tx) (emit [Started (GoBroadcastTx tx)] s)).
Proof. intros H. unfold processTransaction. cbv zeta. rewrite H. reflexivity. Qed.

Lemma broadcast_reaches_all (payload : Message) (s : Server) (addr : Addr) (peer : TCPPeer) :
  peerMap s !! addr = Some peer ->
  Sent (conn_RemoteAddr peer) payload ∈ events (broadcast payload s).2.
Proof.
  intros Hpeer. unfold broadcast. simpl. apply elem_of_app. right.
  apply elem_of_map_to_list in Hpeer.
  apply list_elem_of_In, in_map_iff. exists (addr, peer).
  split; [reflexivity|]. apply list_elem_of_In. exact Hpeer.
Qed.

Lemma broadcastTx_sends (tx : Transaction) (s : Server) :
  exists sends,
    broadcastTx tx s = (Ok tt, emit sends s) /\
    forall ev, ev ∈ sends <->
      exists addr peer, peerMap s !! addr = Some peer /\
        ev = Sent (conn_RemoteAddr peer) (NewMessage MessageTypeTx EmptyBuffer (srv_ID s)).
Proof.
  unfold broadcastTx, broadcast. eexists. split; [reflexivity|].
  intros ev. rewrite list_elem_of_fmap. split.
  - intros ([addr peer] & -> & Hin). apply elem_of_map_to_list in Hin. eauto.
  - intros (addr & peer & Hpeer & ->). exists (addr, peer).
    split; [reflexivity|]. apply elem_of_map_to_list. exact Hpeer.
Qed.

(** C6.  A transaction whose hash is in the mempool: [processTransaction]
    returns nil and the server is as it was, nothing added and no broadcast
    started.  A transaction whose hash is new: it returns nil, the
    transaction is the last of the pending ones, and one [broadcastTx] of
    it is started.  If no two pending transactions had the same hash before
    the call, none have after it.  But the transaction is not what the peers
    are sent: [broadcastTx], whose encoding of the transaction is commented
    out in the source, sends to each peer of the peer map one message of
    type Tx with an empty buffer and nothing else, the same messages
    whatever the transaction. *)
Theorem processTransaction_dedup (s : Server) (tx : Transaction) :
  (Contains (memPool s) (tx_Hash tx) = true -> processTransaction tx s = (Ok tt, s)) /\
  (Contains (memPool s) (tx_Hash tx) = false ->
     exists s', processTransaction tx s = (Ok tt, s') /\
       Pending (memPool s') = (Pending (memPool s) ++ [tx])%list /\
       events s' = (events s ++ [Started (GoBroadcastTx tx)])%list /\
       chain s' = chain s /\ peerMap s' = peerMap s) /\
  (forall r s', processTransaction tx s = (r, s') ->
     NoDup (map tx_Hash (Pending (memPool s))) ->
     NoDup (map tx_Hash (Pending (memPool s')))) /\
  (forall s0, exists sends,
     broadcastTx tx s0 = (Ok tt, emit sends s0) /\
     forall ev, ev ∈ sends <->
       exists addr peer, peerMap s0 !! addr = Some peer /\
         ev = Sent (conn_RemoteAddr peer)
                (NewMessage MessageTypeTx EmptyBuffer (srv_ID s0))) /\
  (forall tx' s0, broadcastTx tx' s0 = broadcastTx tx s0).
Proof.
  split; [|split; [|split; [|split]]].
  - intros H. unfold processTransaction. cbv zeta. rewrite H. reflexivity.
  - intros H. rewrite (processTransaction_new s tx H). eexists.
    split; [reflexivity|]. simpl. rewrite (Add_new _ _ H). auto.
  - intros r s' Hrun Hnd.
    destruct (Contains (memPool s) (tx_Hash tx)) eqn:H.
    + unfold processTransaction in Hrun. cbv zeta in Hrun. rewrite H in Hrun.
      inversion Hrun; subst. exact Hnd.
    + rewrite (processTransaction_new s tx H) in Hrun. inversion Hrun; subst.
      simpl. rewrite (Add_new _ _ H). unfold Pending in *.
      rewrite map_app. simpl. apply NoDup_app. split; [exact Hnd|].
      split; [|apply NoDup_singleton].
      intros h Hin Hin'. apply list_elem_of_singleton in Hin'. subst h.
      apply Contains_spec in Hin. congruence.
  - intros s0. apply broadcastTx_sends.
  - intros tx' s0. reflexivity.
Qed.

(** C10.  [processTransaction] does not look at the signature.  A
    transaction that fails [Verify] and whose hash is new is added to the
    pending ones, its [broadcastTx] is started and nil is returned; a block
    with such a transaction is turned down by [VerifyBlock], the chain left
    as it was.  The started [broadcastTx] reaches every peer of the peer
    map, but with a message of type Tx whose buffer is empty (the encoding
    is commented out in the source): its run is the same as for any other
    transaction, and the transaction itself is sent to no peer. *)
Theorem processTransaction_no_signature_check (s : Server) (tx : Transaction)
    (e : error) :
  tx_Verify tx = Some e ->
  Contains (memPool s) (tx_Hash tx) = false ->
  (exists s', processTransaction tx s = (Ok tt, s') /\
     tx ∈ Pending (memPool s') /\ Started (GoBroadcastTx tx) ∈ events s') /\
  (forall bc blk, blk_header blk <> None -> tx ∈ blk_transactions blk ->
     exists e', VerifyBlock (Some blk) bc = (Err e', bc)) /\
  (forall s0 addr peer, peerMap s0 !! addr = Some peer ->
     Sent (conn_RemoteAddr peer) (NewMessage MessageTypeTx EmptyBuffer (srv_ID s0))
       ∈ events (broadcastTx tx s0).2) /\
  (forall tx' s0, broadcastTx tx s0 = broadcastTx tx' s0).
Proof.
  intros Hbad Hnew. split; [|split; [|split]].
  - rewrite (processTransaction_new s tx Hnew). eexists. split; [reflexivity|].
    simpl. rewrite (Add_new _ _ Hnew). split; apply elem_of_app; right; apply list_elem_of_here.
  - intros bc blk Hh Hin.
    destruct (blk_header blk) as [h|] eqn:Hhdr; [|congruence].
    rewrite (VerifyBlock_some blk h bc Hhdr).
    destruct (verifyTransactions_failure _ _ _ Hin Hbad) as [e' He'].
    rewrite He'. destruct (validator bc) as [v|]; [|eauto].
    destruct (ValidateBlock v bc blk); eauto.
  - intros s0 addr peer Hpeer. unfold broadcastTx.
    apply broadcast_reaches_all with (addr := addr). exact Hpeer.
  - intros tx' s0. reflexivity.
Qed.

(** *** The sync manager *)

Lemma requestBlocksTurn_behind (peer : Addr) (blocksIndex : Z) (s : Server) :
  behind peer blocksIndex s ->
  (forall m, gob_fault (GobGetBlocks m) = None) ->
  requestBlocksTurn peer blocksIndex s = (None, catchUpRequest peer blocksIndex s).
Proof.
  intros [Hlen [p Hp]] Hgob. unfold requestBlocksTurn, catchUpRequest. cbv zeta.
  assert ((len (Headers (chain s)) >=? blocksIndex) = false) as ->.
  { rewrite Z.geb_leb. apply Z.leb_gt. lia. }
  rewrite Hgob, Hp. reflexivity.
Qed.

Lemma requestBlocksTurn_caught_up (peer : Addr) (blocksIndex : Z) (s : Server) :
  blocksIndex <= len (Headers (chain s)) ->
  requestBlocksTurn peer blocksIndex s = (Some (Ok tt), []).
Proof.
  intros Hlen. unfold requestBlocksTurn. cbv zeta.
  assert ((len (Headers (chain s)) >=? blocksIndex) = true) as ->; [|reflexivity].
  rewrite Z.geb_leb. apply Z.leb_le. lia.
Qed.

Lemma requestBlocksLoop_behind (peer : Addr) (blocksIndex : Z) (before rest : list Server) :
  Forall (behind peer blocksIndex) before ->
  (forall m, gob_fault (GobGetBlocks m) = None) ->
  requestBlocksLoop peer blocksIndex (before ++ rest)%list =
    ((requestBlocksLoop peer blocksIndex rest).1,
     (flat_map (catchUpRequest peer blocksIndex) before
        ++ (requestBlocksLoop peer blocksIndex rest).2)%list).
Proof.
  intros Hall Hgob. induction Hall as [|s before Hs _ IH].
  - simpl. destruct (requestBlocksLoop _ _ rest); reflexivity.
  - cbn [app requestBlocksLoop flat_map].
    rewrite (requestBlocksTurn_behind _ _ _ Hs Hgob), IH.
    cbn [fst snd]. rewrite <- app_assoc. reflexivity.
Qed.

(** C7.  [processStatusMessage] returns nil, and starts the catch-up loop,
    with the sender and the advertised length, exactly when the node is not
    a validator and has fewer headers than advertised; otherwise the server
    is as it was.  The loop, on a node that knows the peer: as long as the
    node is short of the advertised length each turn sends one [GetBlocks]
    request (from the advertised length down to the local header count) and
    waits for the 6-second ticker; at the first turn at which the header
    count has reached the advertised length the loop returns nil without a
    further request, whatever the node does afterwards; and while no such
    turn has come the loop has not returned. *)
Theorem status_catch_up_loop :
  (forall (s : Server) (from : Addr) (data : StatusMessage),
     processStatusMessage from data s =
       (Ok tt,
        if negb (isValidator s) && (len (Headers (chain s)) <? sm_CurrentLength data)
        then emit [Started (GoRequestBlocksLoop from (sm_CurrentLength data))] s
        else s)) /\
  (forall (peer : Addr) (blocksIndex : Z) (before after : list Server) (s : Server),
     (forall m, gob_fault (GobGetBlocks m) = None) ->
     Forall (behind peer blocksIndex) before ->
     blocksIndex <= len (Headers (chain s)) ->
     requestBlocksLoop peer blocksIndex (before ++ s :: after)%list =
       (Some (Ok tt), flat_map (catchUpRequest peer blocksIndex) before) /\
     length (flat_map (catchUpRequest peer blocksIndex) before)
       = (2 * length before)%nat) /\
  (forall (peer : Addr) (blocksIndex : Z) (turns : list Server),
     (forall m, gob_fault (GobGetBlocks m) = None) ->
     Forall (behind peer blocksIndex) turns ->
     requestBlocksLoop peer blocksIndex turns =
       (None, flat_map (catchUpRequest peer blocksIndex) turns)).
Proof.
  split; [|split].
  - intros s from data. unfold processStatusMessage. cbv zeta.
    destruct (sm_CurrentLength data <? len (Headers (chain s))) eqn:E.
    + apply Z.ltb_lt in E.
      assert ((len (Headers (chain s)) <? sm_CurrentLength data) = false) as ->
        by (apply Z.ltb_ge; lia).
      rewrite andb_false_r. reflexivity.
    + destruct (negb (isValidator s) && _); reflexivity.
  - intros peer blocksIndex before after s Hgob Hall Hs. split.
    + rewrite (requestBlocksLoop_behind _ _ _ _ Hall Hgob).
      cbn [requestBlocksLoop]. rewrite (requestBlocksTurn_caught_up _ _ _ Hs).
      cbn [fst snd]. rewrite app_nil_r. reflexivity.
    + induction Hall as [|s0 before [_ [p Hp]] _ IH]; [reflexivity|].
      cbn [flat_map]. rewrite length_app, IH. unfold catchUpRequest. rewrite Hp.
      simpl. lia.
  - intros peer blocksIndex turns Hgob Hall.
    rewrite <- (app_nil_r turns) at 1.
    rewrite (requestBlocksLoop_behind _ _ _ _ Hall Hgob). simpl.
    rewrite app_nil_r. reflexivity.
Qed.

(** *** The validator loop *)

Lemma set_chain_same (s : Server) : set_chain (chain s) s = s.
Proof. destruct s; reflexivity. Qed.

Lemma locked_broadcastBlock_waits (b : Block) (s : Server) (h : Holds) :
  exists h', locked_broadcastBlock b s h = Waits s h'.
Proof.
  unfold locked_broadcastBlock, Lock.
  destruct (held_write h || (0 <? held_read h)%nat); [eauto|].
  unfold locked_broadcast, RLock. simpl. eauto.
Qed.

(** C8.  [CreateNewBlock].  When it returns nil, the block was built from
    the current header and the pending transactions as they were, signed
    with the node's key and committed by [VerifyBlock]; the mempool is then
    empty and [broadcastBlock] is started for the block.  When it returns
    an error, the error is that of the header lookup, of the construction,
    of the signing or of [VerifyBlock], and the server (its mempool, its
    chain, what it has sent and started) is as it was.  But the started
    [broadcastBlock] sends the block to no peer: it takes the write lock of
    [s.mu] and then calls [broadcast], which waits for the read lock of the
    same mutex, so that on whatever server and mutex it runs it waits for
    ever, nothing sent. *)
Theorem CreateNewBlock_clears_after_commit (s : Server) (r : Res unit) (s' : Server) :
  CreateNewBlock s = (r, s') ->
  (r = Ok tt ->
     exists currentHeader b0 key block,
       GetHeader (chain s) (Height (chain s)) = Ok currentHeader /\
       NewBlockFromPrevHeader currentHeader (Pending (memPool s)) = Ok b0 /\
       srv_PrivateKey s = Some key /\ Block_Sign b0 key = Ok block /\
       VerifyBlock (Some block) (chain s) = (Ok tt, chain s') /\
       Pending (memPool s') = [] /\
       events s' = (events s ++ [Started (GoBroadcastBlock block)])%list /\
       (forall s0 h, exists h', locked_broadcastBlock block s0 h = Waits s0 h')) /\
  (forall e, r = Err e ->
     s' = s /\
     (GetHeader (chain s) (Height (chain s)) = Err e \/
      (exists currentHeader,
         GetHeader (chain s) (Height (chain s)) = Ok currentHeader /\
         (NewBlockFromPrevHeader currentHeader (Pending (memPool s)) = Err e \/
          exists b0 key,
            NewBlockFromPrevHeader currentHeader (Pending (memPool s)) = Ok b0 /\
            srv_PrivateKey s = Some key /\
            (Block_Sign b0 key = Err e \/
             exists block, Block_Sign b0 key = Ok block /\
               VerifyBlock (Some block) (chain s) = (Err e, chain s)))))).
Proof.
  unfold CreateNewBlock. run. intros Hrun.
  destruct (GetHeader (chain s) (Height (chain s))) as [currentHeader|e0|m0] eqn:Hget;
    [|inversion Hrun; subst; split; [discriminate|intros e [= ->]; auto]
     |inversion Hrun; subst; split; discriminate].
  destruct (NewBlockFromPrevHeader currentHeader (Pending (memPool s)))
    as [b0|e0|m0] eqn:Hnew;
    [|inversion Hrun; subst; split; [discriminate|intros e [= ->]; eauto 10]
     |inversion Hrun; subst; split; discriminate].
  destruct (srv_PrivateKey s) as [key|] eqn:Hkey;
    [|inversion Hrun; subst; split; discriminate].
  destruct (Block_Sign b0 key) as [block|e0|m0] eqn:Hsign;
    [|inversion Hrun; subst; split; [discriminate|intros e [= ->]; eauto 12]
     |inversion Hrun; subst; split; discriminate].
  destruct (VerifyBlock (Some block) (chain s)) as [rv bc'] eqn:Hverify.
  destruct rv as [[]|e0|m0].
  - inversion Hrun; subst. split; [|discriminate].
    intros _. exists currentHeader, b0, key, block. simpl.
    pose proof (locked_broadcastBlock_waits block) as Hwaits. auto 10.
  - pose proof (VerifyBlock_not_ok _ _ _ _ Hverify ltac:(discriminate)) as [_ ->].
    inversion Hrun; subst. split; [discriminate|].
    intros e [= ->]. rewrite set_chain_same. split; [reflexivity|]. eauto 15.
  - pose proof (VerifyBlock_not_ok _ _ _ _ Hverify ltac:(discriminate)) as [[e He] _].
    discriminate.
Qed.

(** ** More properties of the ledger *)

Lemma set_db_kv_same (bc : Blockchain) :
  set_db (set_kv (db bc) (db_kv (db bc))) bc = bc.
Proof. destruct bc as [[blocks kv] ? ? ? ? ? ? ? ? ? ? ? ? ? ?]. reflexivity. Qed.

Lemma putResult_frame (bc : Blockchain) (t : Table) (k v : bytes) :
  (putResult bc (table_Put t (db bc) k v)).2
    = set_db (set_kv (db bc) (db_kv (db (putResult bc (table_Put t (db bc) k v)).2))) bc /\
  ((putResult bc (table_Put t (db bc) k v)).1 <> Ok tt ->
   (putResult bc (table_Put t (db bc) k v)).2 = bc).
Proof.
  unfold putResult, table_Put, db_Put.
  destruct (put_fault (db bc) (tbl_prefix t ++ k)%list v); simpl.
  - split; [symmetry; apply set_db_kv_same|reflexivity].
  - split; [reflexivity|congruence].
Qed.

Lemma WriteRFQTxs_frame (tx : Transaction) (bc bc' : Blockchain)
    (r : Res unit) :
  WriteRFQTxs tx bc = (r, bc') ->
  bc' = set_db (set_kv (db bc) (db_kv (db bc'))) bc /\
  (r <> Ok tt -> bc' = bc).
Proof.
  intros Hrun.
  assert (Hr : r = (WriteRFQTxs tx bc).1) by (rewrite Hrun; reflexivity).
  assert (Hb : bc' = (WriteRFQTxs tx bc).2) by (rewrite Hrun; reflexivity).
  subst r bc'. clear Hrun. unfold WriteRFQTxs. cbv zeta.
  repeat match goal with
         | |- context [if ?c then _ else _] => destruct c
         | |- context [match tx_From tx with _ => _ end] => destruct (tx_From tx)
         | |- context [match EncodeRLP ?x with _ => _ end] => destruct (EncodeRLP x)
         end;
    try apply putResult_frame;
    (split; [symmetry; apply set_db_kv_same|reflexivity]).
Qed.

(** X1.  [WriteRFQTxs] touches nothing but the key-value pairs of the
    store: headers, blocks, head pointer, validator, tables and the
    in-memory lists are as before, whatever the transaction and whatever is
    returned; and when it does not return nil the chain is as it was. *)
Theorem WriteRFQTxs_changes_only_pairs (tx : Transaction) (bc bc' : Blockchain)
    (r : Res unit) :
  WriteRFQTxs tx bc = (r, bc') ->
  bc' = set_db (set_kv (db bc) (db_kv (db bc'))) bc /\
  (r <> Ok tt -> bc' = bc).
Proof. exact (WriteRFQTxs_frame tx bc bc' r). Qed.

Lemma VerifyBlock_headers (b : option Block) (r : Res unit) (bc bc' : Blockchain) :
  VerifyBlock b bc = (r, bc') ->
  txStore bc' = txStore bc /\
  (headers bc' = headers bc \/ exists h, headers bc' = (headers bc ++ [h])%list).
Proof.
  intros Hrun. destruct r as [[]|e|msg].
  - apply VerifyBlock_ok_inv in Hrun as (blk & h & _ & Hh & Hadd & _).
    unfold addBlockWithoutValidation in Hadd. rewrite Hh in Hadd.
    destruct (len _ =? 1) in Hadd; inversion Hadd; subst; simpl; eauto.
  - apply VerifyBlock_not_ok in Hrun as [_ ->]; [auto|discriminate].
  - apply VerifyBlock_not_ok in Hrun as [_ ->]; [auto|discriminate].
Qed.

Lemma ledgerCall_headers (c : LedgerCall) (bc : Blockchain) :
  txStore (ledgerCall c bc) = txStore bc /\
  (headers (ledgerCall c bc) = headers bc \/
   exists h, headers (ledgerCall c bc) = (headers bc ++ [h])%list).
Proof.
  destruct c as [b|tx|k tx]; simpl.
  - destruct (VerifyBlock b bc) as [r bc'] eqn:E. exact (VerifyBlock_headers _ _ _ _ E).
  - destruct (WriteRFQTxs tx bc) as [r bc'] eqn:E.
    destruct (WriteRFQTxs_frame _ _ _ _ E) as [-> _]. auto.
  - auto.
Qed.

(** X2.  The header list only grows.  Through any run of [VerifyBlock],
    [WriteRFQTxs] and [AddOpenRFQTx] calls, accepted or not, the headers the
    chain had stay where they are, at most one header is added per call,
    and the height does not go down. *)
Theorem ledgerCalls_append_only (cs : list LedgerCall) (bc : Blockchain) :
  headers bc `prefix_of` headers (ledgerCalls cs bc) /\
  Height bc <= Height (ledgerCalls cs bc) <= Height bc + len cs.
Proof.
  revert bc. induction cs as [|c cs IH]; intros bc.
  - simpl. split; [reflexivity|]. unfold len. simpl. lia.
  - change (ledgerCalls (c :: cs) bc) with (ledgerCalls cs (ledgerCall c bc)).
    destruct (IH (ledgerCall c bc)) as [Hp Hh].
    destruct (ledgerCall_headers c bc) as [_ [Heq|[h Heq]]].
    + rewrite Heq in Hp. split; [exact Hp|].
      unfold Height, len in *. rewrite Heq in Hh. simpl. lia.
    + rewrite Heq in Hp. split.
      * etransitivity; [|exact Hp]. apply prefix_app_r. reflexivity.
      * unfold Height, len in *. rewrite Heq, length_app in Hh. simpl in *. lia.
Qed.

(** X3.  Nothing puts a transaction into [txStore]: on a chain made by
    [NewBlockchain], after any run of [VerifyBlock], [WriteRFQTxs] and
    [AddOpenRFQTx] calls, [GetTxByHash] returns its not-found error for
    every hash, also the hash of a transaction of an accepted block. *)
Theorem GetTxByHash_never_finds (genesis : Block) (d : Database) (v : bool)
    (bc : Blockchain) (cs : list LedgerCall) (hash : Hash) :
  NewBlockchain genesis d v = Ok bc ->
  GetTxByHash (ledgerCalls cs bc) hash =
    Err ("transaction with hash [" +:+ hex hash +:+ "] not found").
Proof.
  intros Hnew.
  assert (H0 : txStore bc = ∅).
  { destruct v.
    - apply NewBlockchain_validator_inv in Hnew as (h & g & _ & _ & ->). reflexivity.
    - unfold NewBlockchain in Hnew. injection Hnew as <-. reflexivity. }
  assert (Hall : txStore (ledgerCalls cs bc) = ∅).
  { clear Hnew. revert bc H0. induction cs as [|c cs IH]; intros bc H0; [exact H0|].
    change (ledgerCalls (c :: cs) bc) with (ledgerCalls cs (ledgerCall c bc)).
    apply IH. destruct (ledgerCall_headers c bc) as [-> _]. exact H0. }
  unfold GetTxByHash. rewrite Hall, lookup_empty. reflexivity.
Qed.

Lemma Uint64_small (x : Z) : 0 <= x < two64 -> Uint64 x = x.
Proof.
  intros Hx. unfold Uint64. rewrite Z.abs_eq by lia. apply Z.mod_small. exact Hx.
Qed.

Lemma to_uint64_small (x : Z) : 0 <= x < two64 -> to_uint64 x = x.
Proof. intros Hx. apply Z.mod_small. exact Hx. Qed.

Lemma two63_lt_two64 : two63 < two64.
Proof. reflexivity. Qed.

Lemma GetBlock_at_index (bc : Blockchain) (height : Z) (h : Header) :
  0 <= height <= Height bc -> len (headers bc) < two63 ->
  headers bc !! Z.to_nat height = Some h ->
  GetBlock bc height =
    match ReadBlock (db bc) (header_Hash h) height with
    | None => Err ("block with hash [" +:+ hex (header_Hash h) +:+ "] not found")
    | Some block => Ok block
    end.
Proof.
  intros Hh Hlen Hlook. pose proof two63_lt_two64.
  unfold GetBlock. cbv zeta. rewrite Cmp_gt.
  assert ((Height bc <? height) = false) as -> by (apply Z.ltb_ge; lia).
  unfold Height in Hh.
  destruct (GetBlockHeader_in_range bc height) as (h' & -> & Hh'); [lia|lia|].
  assert (h' = h) as -> by congruence.
  rewrite Int64_small, to_uint64_small by lia. reflexivity.
Qed.

Lemma GetBlock_on_indexed_chain_aux (bc : Blockchain) (height : Z) :
  wellIndexed bc -> len (headers bc) < two63 ->
  0 <= height <= Height bc ->
  exists b h, GetBlock bc height = Ok b /\
              headers bc !! Z.to_nat height = Some h /\
              blk_header b = Some h.
Proof.
  intros Hidx Hlen Hh.
  destruct (headers bc !! Z.to_nat height) as [h|] eqn:Hlook.
  - destruct (Hidx _ _ Hlook) as (Hhh & b & Hb & Hhdr).
    rewrite Z2Nat.id in Hb by lia.
    exists b, h. rewrite (GetBlock_at_index bc height h Hh Hlen Hlook), Hb. auto.
  - apply lookup_ge_None in Hlook. unfold Height, len in Hh. lia.
Qed.

(** X4.  On a chain indexed by height, [GetBlock] returns a block for every
    height from 0 to the height of the chain, and the header of that block
    is the header the chain has at that index. *)
Theorem GetBlock_on_indexed_chain (bc : Blockchain) (height : Z) :
  wellIndexed bc -> len (headers bc) < two63 ->
  0 <= height <= Height bc ->
  exists b h, GetBlock bc height = Ok b /\
              headers bc !! Z.to_nat height = Some h /\
              blk_header b = Some h /\ hdr_Height h = height.
Proof.
  intros Hidx Hlen Hh.
  destruct (headers bc !! Z.to_nat height) as [h|] eqn:Hlook.
  - destruct (Hidx _ _ Hlook) as (Hhh & b & Hb & Hhdr).
    rewrite Z2Nat.id in Hb, Hhh by lia.
    exists b, h. rewrite (GetBlock_at_index bc height h Hh Hlen Hlook), Hb. auto.
  - apply lookup_ge_None in Hlook. unfold Height, len in Hh. lia.
Qed.

Lemma wellIndexed_NewBlockchain (genesis : Block) (d : Database) (h : Header)
    (bc : Blockchain) :
  blk_header genesis = Some h -> hdr_Height h = 0 ->
  NewBlockchain genesis d true = Ok bc -> wellIndexed bc.
Proof.
  intros Hh H0 Hnew.
  apply NewBlockchain_validator_inv in Hnew as (h' & g & Hh' & Hg & ->).
  assert (h' = h) as -> by congruence.
  intros i hi Hi. simpl in Hi. destruct i as [|i]; [|discriminate].
  injection Hi as <-. split; [exact H0|]. exists genesis. simpl.
  split; [|exact Hh].
  rewrite <- (ReadBlock_WriteBlock d genesis h Hh).
  rewrite H0. reflexivity.
Qed.

Lemma wellIndexed_VerifyBlock (blk : Block) (h : Header) (bc bc' : Blockchain) :
  wellIndexed bc -> len (headers bc) < two64 ->
  blk_header blk = Some h -> hdr_Height h = len (headers bc) ->
  VerifyBlock (Some blk) bc = (Ok tt, bc') -> wellIndexed bc'.
Proof.
  intros Hidx Hlen Hh Hheight Hrun.
  apply VerifyBlock_ok_inv in Hrun as (blk' & h' & [= <-] & Hh' & Hadd & _).
  assert (h' = h) as -> by congruence.
  destruct (addBlockWithoutValidation_spec blk h bc Hh)
    as (bc2 & Hadd2 & Hhs & Hdb & _).
  assert (bc' = bc2) as -> by congruence.
  assert (Hkey : Uint64 (hdr_Height h) = len (headers bc)).
  { rewrite Hheight. apply Uint64_small. unfold len in *. lia. }
  intros i hi Hi. rewrite Hhs in Hi. rewrite Hdb.
  unfold ReadBlock, WriteBlock. rewrite Hh. simpl.
  apply lookup_app_Some in Hi as [Hi|[Hge Hi]].
  - destruct (Hidx _ _ Hi) as (Hhi & b & Hb & Hhdr).
    split; [exact Hhi|]. exists b. split; [|exact Hhdr].
    rewrite lookup_insert_ne; [exact Hb|].
    apply lookup_lt_Some in Hi. unfold block_key, len in *.
    intros [= _ Hk]. lia.
  - destruct (i - length (headers bc))%nat as [|j] eqn:Ej; [|destruct j; discriminate].
    injection Hi as <-.
    assert (Z.of_nat i = len (headers bc)) as Hi' by (unfold len; lia).
    split; [congruence|]. exists blk. split; [|exact Hh].
    rewrite Hi', <- Hkey. apply lookup_insert_eq.
Qed.

(** X5.  How a chain comes to be indexed by height, and stays so:
    [NewBlockchain] for a validator with a genesis block of height 0 gives
    an indexed chain; and when [VerifyBlock] accepts, on an indexed chain, a
    block whose height is the number of headers, the chain is indexed
    again. *)
Theorem wellIndexed_kept :
  (forall (genesis : Block) (d : Database) (h : Header) (bc : Blockchain),
     blk_header genesis = Some h -> hdr_Height h = 0 ->
     NewBlockchain genesis d true = Ok bc -> wellIndexed bc) /\
  (forall (blk : Block) (h : Header) (bc bc' : Blockchain),
     wellIndexed bc -> len (headers bc) < two64 ->
     blk_header blk = Some h -> hdr_Height h = len (headers bc) ->
     VerifyBlock (Some blk) bc = (Ok tt, bc') -> wellIndexed bc').
Proof. split; [exact wellIndexed_NewBlockchain|exact wellIndexed_VerifyBlock]. Qed.

(** X6.  A block whose height is not the number of headers, once accepted
    (a node without a validator accepts it), cannot be read back:
    [GetBlock] at its index returns the error that the block with this hash
    was not found, the store having nothing under this hash and that
    index. *)
Theorem GetBlock_after_misnumbered_block (blk : Block) (h : Header)
    (bc bc' : Blockchain) :
  len (headers bc) + 1 < two63 ->
  blk_header blk = Some h ->
  Uint64 (hdr_Height h) <> len (headers bc) ->
  ReadBlock (db bc) (header_Hash h) (len (headers bc)) = None ->
  VerifyBlock (Some blk) bc = (Ok tt, bc') ->
  GetBlock bc' (len (headers bc)) =
    Err ("block with hash [" +:+ hex (header_Hash h) +:+ "] not found").
Proof.
  intros Hlen Hh Hne Hnone Hrun.
  apply VerifyBlock_ok_inv in Hrun as (blk' & h' & [= <-] & Hh' & Hadd & _).
  assert (h' = h) as -> by congruence.
  destruct (addBlockWithoutValidation_spec blk h bc Hh)
    as (bc2 & Hadd2 & Hhs & Hdb & _).
  assert (bc' = bc2) as -> by congruence.
  assert (Hlen2 : len (headers bc2) = len (headers bc) + 1).
  { unfold len. rewrite Hhs, length_app. simpl. lia. }
  assert (0 <= len (headers bc)) by (unfold len; lia).
  rewrite (GetBlock_at_index bc2 (len (headers bc)) h).
  - rewrite Hdb. unfold ReadBlock, WriteBlock in *. rewrite Hh. simpl.
    rewrite lookup_insert_ne, Hnone; [reflexivity|].
    unfold block_key. intros [= Hk]. auto.
  - unfold Height. lia.
  - rewrite Hlen2. exact Hlen.
  - rewrite Hhs. unfold len. rewrite Nat2Z.id.
    rewrite lookup_app_r by lia. rewrite Nat.sub_diag. reflexivity.
Qed.

Lemma Int64_negative (x : Z) : - two63 <= x < 0 -> Int64 x = x.
Proof.
  intros Hx. unfold Int64, to_int64, two64, two63 in *.
  assert ((x <? 0) = true) as -> by (apply Z.ltb_lt; lia).
  rewrite Z.abs_neq by lia.
  rewrite (Z.mod_small (- x)) by lia.
  assert (x = - 2 ^ 63 \/ - 2 ^ 63 < x) as [->|Hlt] by lia; [reflexivity|].
  rewrite (Z.mod_small (- x + 2 ^ 63)) by lia.
  replace (- (- x + 2 ^ 63 - 2 ^ 63) + 2 ^ 63) with (x + 2 ^ 63) by lia.
  rewrite Z.mod_small by lia. lia.
Qed.

(** X7.  [HasBlock] answers true exactly for the heights up to the height
    of the chain, and so also for a height below zero; for such a height
    ([GetBlock] and [GetBlockHeader] take any big integer) both pass their
    tests and index the header list below zero, which is a run-time fault
    (index out of range, the index named without a length), not an
    error. *)
Theorem HasBlock_and_negative_heights (bc : Blockchain) (height : Z) :
  (HasBlock bc height = true <-> height <= Height bc) /\
  (- two63 <= height < 0 ->
   HasBlock bc height = true /\
   GetBlockHeader bc height =
     Panic ("runtime error: index out of range [" +:+ pretty height +:+ "]") /\
   GetBlock bc height =
     Panic ("runtime error: index out of range [" +:+ pretty height +:+ "]")).
Proof.
  assert (Hhas : HasBlock bc height = true <-> height <= Height bc).
  { unfold HasBlock, Cmp. cbv zeta.
    destruct (Z.compare_spec height (Height bc)); simpl; split; intros; try lia;
      try reflexivity; discriminate. }
  split; [exact Hhas|]. intros Hneg.
  assert (0 <= len (headers bc)) by (unfold len; lia).
  assert (Hhdr : GetBlockHeader bc height =
                   Panic ("runtime error: index out of range [" +:+ pretty height
                          +:+ "]")).
  { unfold GetBlockHeader. rewrite Cmp_gt.
    assert ((len (headers bc) <? height) = false) as -> by (apply Z.ltb_ge; lia).
    rewrite Int64_negative by lia. apply index_negative. lia. }
  split; [apply Hhas; unfold Height; lia|]. split; [exact Hhdr|].
  unfold GetBlock. cbv zeta. rewrite Cmp_gt.
  assert ((Height bc <? height) = false) as -> by (apply Z.ltb_ge; unfold Height; lia).
  rewrite Hhdr. reflexivity.
Qed.

Lemma kv_put_idem (k v : bytes) (l : list (bytes * bytes)) :
  kv_put k v (kv_put k v l) = kv_put k v l.
Proof.
  induction l as [|[k' v'] l IH]; simpl.
  - rewrite bytes_compare_refl. reflexivity.
  - destruct (bytes_compare k k') eqn:E; simpl.
    + rewrite bytes_compare_refl. reflexivity.
    + rewrite bytes_compare_refl. reflexivity.
    + rewrite E, IH. reflexivity.
Qed.

Lemma putResult_again (bc bc1 : Blockchain) (t : Blockchain -> Table) (k v : bytes) :
  (forall d b, t (set_db d b) = t b) ->
  (forall k v, put_fault (db bc1) k v = None) ->
  putResult bc (table_Put (t bc) (db bc) k v) = (Ok tt, bc1) ->
  putResult bc1 (table_Put (t bc1) (db bc1) k v) = (Ok tt, bc1).
Proof.
  intros Ht Hput. unfold putResult, table_Put, db_Put.
  destruct (put_fault (db bc) (tbl_prefix (t bc) ++ k)%list v); [discriminate|].
  intros [= <-]. rewrite Hput, Ht. simpl. rewrite kv_put_idem.
  destruct bc as [[blocks kv] ? ? ? ? ? ? ? ? ? ? ? ? ? ?]. reflexivity.
Qed.

(** X8.  Writing a transaction again changes nothing: when [WriteRFQTxs]
    has returned nil and the store still takes writes, the same call on the
    chain it left returns nil and leaves the very same chain (one record
    per key, the second write over the first). *)
Theorem WriteRFQTxs_twice (tx : Transaction) (bc bc1 : Blockchain) :
  WriteRFQTxs tx bc = (Ok tt, bc1) ->
  (forall k v, put_fault (db bc1) k v = None) ->
  WriteRFQTxs tx bc1 = (Ok tt, bc1).
Proof.
  intros Hrun Hput. revert Hrun. unfold WriteRFQTxs. cbv zeta.
  repeat match goal with
         | |- context [if ?c then _ else _] => destruct c
         | |- context [match tx_From tx with _ => _ end] => destruct (tx_From tx)
         | |- context [match EncodeRLP ?x with _ => _ end] => destruct (EncodeRLP x)
         end; try discriminate.
  - apply (putResult_again bc bc1 rfqRequestsTable); auto.
  - apply (putResult_again bc bc1 openRFQSTable); auto.
  - apply (putResult_again bc bc1 closedRFQSTable); auto.
  - apply (putResult_again bc bc1 matchedRFQSTable); auto.
  - apply (putResult_again bc bc1 settledRFQSTable); auto.
  - apply (putResult_again bc bc1 quotesTable); auto.
Qed.

(** X9.  The request table is apart from the others: on a chain with the
    six tables, a transaction of another type than request, whatever
    [WriteRFQTxs] does with it, leaves [GetRFQRequests] returning what it
    returned before (the iterator failing or not as before). *)
Theorem WriteRFQTxs_other_type_keeps_requests (tx : Transaction)
    (bc bc' : Blockchain) (r : Res unit) :
  standardTables bc ->
  tx_Type tx <> RFQRequestTxType ->
  WriteRFQTxs tx bc = (r, bc') ->
  iter_fault (db bc') (tbl_prefix (rfqRequestsTable bc))
    = iter_fault (db bc) (tbl_prefix (rfqRequestsTable bc)) ->
  GetRFQRequests bc' = GetRFQRequests bc.
Proof.
  intros Hstd Hty Hrun Hiter.
  assert (Hentries : rfqRequestsTable bc' = rfqRequestsTable bc /\
                     table_entries (rfqRequestsTable bc) (db bc')
                       = table_entries (rfqRequestsTable bc) (db bc)).
  { assert (Hb : bc' = (WriteRFQTxs tx bc).2) by (rewrite Hrun; reflexivity).
    subst bc'. clear Hrun Hiter. unfold WriteRFQTxs. cbv zeta.
    assert (Hother : forall t k v,
              strip_prefix (tbl_prefix (rfqRequestsTable bc)) (tbl_prefix t ++ k)%list = None ->
              rfqRequestsTable (putResult bc (table_Put t (db bc) k v)).2
                = rfqRequestsTable bc /\
              table_entries (rfqRequestsTable bc)
                (db (putResult bc (table_Put t (db bc) k v)).2)
                = table_entries (rfqRequestsTable bc) (db bc)).
    { intros t k v Hapart. unfold putResult, table_Put, db_Put.
      destruct (put_fault (db bc) (tbl_prefix t ++ k)%list v); simpl; [auto|].
      split; [reflexivity|]. unfold table_entries. simpl.
      apply table_entries_put_other. exact Hapart. }
    assert (Hreq : (tx_Type tx =? RFQRequestTxType) = false) by (apply Z.eqb_neq; exact Hty).
    rewrite Hreq.
    destruct Hstd as (H1 & H2 & H3 & H4 & H5 & H6).
    destruct (tx_Type tx =? OpenRFQTxType); [apply Hother; rewrite H1, H2; reflexivity|].
    destruct (tx_Type tx =? ClosedRFQTxType); [apply Hother; rewrite H1, H3; reflexivity|].
    destruct (tx_Type tx =? MatchedRFQTxType); [apply Hother; rewrite H1, H4; reflexivity|].
    destruct (tx_Type tx =? SettledRFQTxType); [apply Hother; rewrite H1, H5; reflexivity|].
    destruct (tx_Type tx =? QuoteTxType); [apply Hother; rewrite H1, H6; reflexivity|].
    simpl. auto. }
  destruct Hentries as [Ht He].
  unfold GetRFQRequests, table_NewIterator. rewrite Ht, Hiter, He. reflexivity.
Qed.

Lemma bytes_compare_antisym (a b : bytes) :
  bytes_compare b a = CompOpp (bytes_compare a b).
Proof.
  revert b. induction a as [|x a IH]; intros [|y b]; simpl; try reflexivity.
  rewrite (N.compare_antisym (Byte.to_N x) (Byte.to_N y)).
  destruct (Byte.to_N x ?= Byte.to_N y)%N; simpl; auto.
Qed.

Lemma bytes_compare_trans (a b c : bytes) :
  bytes_compare a b = Lt -> bytes_compare b c = Lt -> bytes_compare a c = Lt.
Proof.
  revert b c. induction a as [|x a IH]; intros [|y b] [|z c]; simpl;
    try discriminate; auto.
  destruct (N.compare_spec (Byte.to_N x) (Byte.to_N y)) as [Exy|Lxy|Gxy];
    try discriminate;
    destruct (N.compare_spec (Byte.to_N y) (Byte.to_N z)) as [Eyz|Lyz|Gyz];
    try discriminate; intros H1 H2.
  - rewrite Exy, Eyz, N.compare_refl. eapply IH; eauto.
  - rewrite Exy. apply N.compare_lt_iff in Lyz. rewrite Lyz. reflexivity.
  - rewrite <- Eyz. apply N.compare_lt_iff in Lxy. rewrite Lxy. reflexivity.
  - assert (Byte.to_N x < Byte.to_N z)%N as L by lia.
    apply N.compare_lt_iff in L. rewrite L. reflexivity.
Qed.

Lemma bytes_compare_Gt_Lt (a b : bytes) : bytes_compare a b = Gt -> bytes_compare b a = Lt.
Proof. intros H. rewrite bytes_compare_antisym, H. reflexivity. Qed.

Lemma bytes_compare_Lt_Gt (a b : bytes) : bytes_compare a b = Lt -> bytes_compare b a = Gt.
Proof. intros H. rewrite bytes_compare_antisym, H. reflexivity. Qed.

Ltac cmp_norm :=
  repeat match goal with
         | H : bytes_compare ?a ?b = Eq |- _ => apply bytes_compare_Eq in H; subst
         | H : bytes_compare ?a ?b = Gt |- _ => apply bytes_compare_Gt_Lt in H
         end.

Ltac cmp_absurd :=
  cmp_norm;
  solve
    [ congruence
    | match goal with
      | H : bytes_compare ?a ?a = Lt |- _ =>
          rewrite bytes_compare_refl in H; discriminate
      end
    | match goal with
      | H1 : bytes_compare ?a ?b = Lt, H2 : bytes_compare ?b ?a = Lt |- _ =>
          let X := fresh in
          pose proof (bytes_compare_trans _ _ _ H1 H2) as X;
          rewrite bytes_compare_refl in X; discriminate
      end
    | match goal with
      | H1 : bytes_compare ?a ?b = Lt, H2 : bytes_compare ?b ?c = Lt,
        H3 : bytes_compare ?c ?a = Lt |- _ =>
          let X := fresh in
          pose proof (bytes_compare_trans _ _ _ (bytes_compare_trans _ _ _ H1 H2) H3) as X;
          rewrite bytes_compare_refl in X; discriminate
      end ].

Lemma kv_put_comm (k1 v1 k2 v2 : bytes) (l : list (bytes * bytes)) :
  k1 <> k2 ->
  kv_put k1 v1 (kv_put k2 v2 l) = kv_put k2 v2 (kv_put k1 v1 l).
Proof.
  intros Hne. induction l as [|[k' v'] l IH]; simpl;
    repeat (match goal with
            | |- context [bytes_compare ?a ?b] => destruct (bytes_compare a b) eqn:?
            end; simpl);
    try rewrite IH; try reflexivity; cmp_absurd.
Qed.

(** The chain a request transaction leaves, when the store takes writes. *)
Lemma WriteRFQTxs_request_state (tx : Transaction) (bc : Blockchain) :
  (forall d k v, put_fault d k v = None) ->
  tx_Type tx = RFQRequestTxType ->
  (WriteRFQTxs tx bc).2 =
    match tx_From tx with
    | Some from =>
        match EncodeRLP (rfqRequestOf tx from) with
        | Ok enc =>
            set_db (set_kv (db bc)
                      (kv_put (tbl_prefix (rfqRequestsTable bc) ++ tx_Hash tx)%list enc
                         (db_kv (db bc)))) bc
        | _ => bc
        end
    | None => bc
    end.
Proof.
  intros Hput Hty. unfold WriteRFQTxs. cbv zeta. rewrite Hty, Z.eqb_refl.
  destruct (tx_From tx) as [from|]; [|reflexivity].
  fold (rfqRequestOf tx from).
  destruct (EncodeRLP (rfqRequestOf tx from)); try reflexivity.
  unfold putResult, table_Put, db_Put. rewrite Hput. reflexivity.
Qed.

(** X10.  The order in which requests are written does not matter: two
    request transactions with different hashes, written by [WriteRFQTxs]
    one after the other on a store that takes writes, leave the same chain
    in either order, and [GetRFQRequests] returns the same. *)
Theorem WriteRFQTxs_requests_commute (tx1 tx2 : Transaction) (bc : Blockchain) :
  (forall d k v, put_fault d k v = None) ->
  tx_Type tx1 = RFQRequestTxType -> tx_Type tx2 = RFQRequestTxType ->
  tx_Hash tx1 <> tx_Hash tx2 ->
  (WriteRFQTxs tx2 (WriteRFQTxs tx1 bc).2).2 = (WriteRFQTxs tx1 (WriteRFQTxs tx2 bc).2).2 /\
  GetRFQRequests (WriteRFQTxs tx2 (WriteRFQTxs tx1 bc).2).2
    = GetRFQRequests (WriteRFQTxs tx1 (WriteRFQTxs tx2 bc).2).2.
Proof.
  intros Hput H1 H2 Hne.
  assert (Heq : (WriteRFQTxs tx2 (WriteRFQTxs tx1 bc).2).2
                = (WriteRFQTxs tx1 (WriteRFQTxs tx2 bc).2).2).
  { rewrite !WriteRFQTxs_request_state by assumption.
    destruct (tx_From tx1) as [f1|], (tx_From tx2) as [f2|]; try reflexivity.
    destruct (EncodeRLP (rfqRequestOf tx1 f1)) as [e1| |],
             (EncodeRLP (rfqRequestOf tx2 f2)) as [e2| |]; try reflexivity.
    simpl. rewrite kv_put_comm; [reflexivity|].
    intros Hk. apply app_inv_head in Hk. auto. }
  split; [exact Heq|]. rewrite Heq. reflexivity.
Qed.

(** ** More properties of the server *)

Lemma emit_nil (s : Server) : emit [] s = s.
Proof. destruct s; unfold emit; simpl. rewrite app_nil_r. reflexivity. Qed.

(** X11.  [processBlock] starts the broadcast of a block only when
    [VerifyBlock] has accepted it: then the header is appended and one
    broadcast of this block is started, the mempool as before; a block that
    is turned down (also a nil block) starts nothing, the error of
    [VerifyBlock] is returned and the server is as it was. *)
Theorem processBlock_broadcasts_only_accepted (b : option Block) (s s' : Server)
    (r : Res unit) :
  processBlock b s = (r, s') ->
  (r = Ok tt ->
     exists blk h, b = Some blk /\ blk_header blk = Some h /\
       VerifyBlock b (chain s) = (Ok tt, chain s') /\
       headers (chain s') = (headers (chain s) ++ [h])%list /\
       events s' = (events s ++ [Started (GoBroadcastBlock blk)])%list /\
       memPool s' = memPool s /\ peerMap s' = peerMap s) /\
  (r <> Ok tt ->
     (exists e, r = Err e /\ VerifyBlock b (chain s) = (Err e, chain s)) /\ s' = s).
Proof.
  unfold processBlock. run.
  destruct (VerifyBlock b (chain s)) as [rv bc'] eqn:Hv.
  destruct rv as [[]|e|msg].
  - pose proof (VerifyBlock_ok_state _ _ _ Hv) as (blk & h & -> & Hh & Hhs & _).
    intros [= <- <-]. split; [|congruence].
    intros _. exists blk, h. simpl. auto 10.
  - pose proof (VerifyBlock_not_ok _ _ _ _ Hv ltac:(discriminate)) as [_ ->].
    intros [= <- <-]. split; [discriminate|]. intros _.
    rewrite set_chain_same. eauto.
  - pose proof (VerifyBlock_not_ok _ _ _ _ Hv ltac:(discriminate)) as [[e He] _].
    discriminate.
Qed.

Lemma CreateNewBlock_cases (s s' : Server) (r : Res unit) :
  CreateNewBlock s = (r, s') ->
  (r = Ok tt /\
   (exists block, VerifyBlock (Some block) (chain s) = (Ok tt, chain s')) /\
   Pending (memPool s') = [] /\ peerMap s' = peerMap s) \/
  (r <> Ok tt /\ s' = s).
Proof.
  unfold CreateNewBlock. run. intros Hrun.
  destruct (GetHeader (chain s) (Height (chain s))) as [currentHeader|e0|m0];
    [|inversion Hrun; subst; right; split; [discriminate|reflexivity]..].
  destruct (NewBlockFromPrevHeader currentHeader (Pending (memPool s))) as [b0|e0|m0];
    [|inversion Hrun; subst; right; split; [discriminate|reflexivity]..].
  destruct (srv_PrivateKey s) as [key|];
    [|inversion Hrun; subst; right; split; [discriminate|reflexivity]].
  destruct (Block_Sign b0 key) as [block|e0|m0];
    [|inversion Hrun; subst; right; split; [discriminate|reflexivity]..].
  destruct (VerifyBlock (Some block) (chain s)) as [rv bc'] eqn:Hverify.
  destruct rv as [[]|e0|m0].
  - inversion Hrun; subst. left. simpl. eauto 10.
  - pose proof (VerifyBlock_not_ok _ _ _ _ Hverify ltac:(discriminate)) as [_ ->].
    inversion Hrun; subst. right. rewrite set_chain_same. split; [discriminate|reflexivity].
  - pose proof (VerifyBlock_not_ok _ _ _ _ Hverify ltac:(discriminate)) as [[e He] _].
    discriminate.
Qed.

(** X12.  The validator loop, for any number of ticks: the headers the
    chain had stay, at most one header is added per tick, the pending
    transactions are either the ones there were or none, the peers are as
    before, and no error of [CreateNewBlock] comes out of the loop. *)
Theorem validatorLoop_grows (ticks : nat) (s s' : Server) (r : Res unit) :
  validatorLoop ticks s = (r, s') ->
  headers (chain s) `prefix_of` headers (chain s') /\
  len (headers (chain s')) <= len (headers (chain s)) + Z.of_nat ticks /\
  (Pending (memPool s') = Pending (memPool s) \/ Pending (memPool s') = []) /\
  peerMap s' = peerMap s /\
  (forall e, r <> Err e).
Proof.
  revert s. induction ticks as [|ticks IH]; intros s.
  - intros [= <- <-]. repeat split; auto; try reflexivity; try lia; discriminate.
  - cbn [validatorLoop].
    destruct (CreateNewBlock s) as [r1 s1] eqn:Hc.
    assert (Hstep : headers (chain s) `prefix_of` headers (chain s1) /\
                    len (headers (chain s1)) <= len (headers (chain s)) + 1 /\
                    (Pending (memPool s1) = Pending (memPool s) \/ Pending (memPool s1) = []) /\
                    peerMap s1 = peerMap s).
    { destruct (CreateNewBlock_cases _ _ _ Hc) as [(_ & [block Hv] & Hp & Hm)|[_ ->]].
      - apply VerifyBlock_ok_state in Hv as (blk & h & _ & _ & Hhs & _).
        rewrite Hhs. unfold len. rewrite length_app. simpl.
        repeat split; auto; try (apply prefix_app_r; reflexivity); lia.
      - repeat split; auto; try reflexivity; lia. }
    destruct Hstep as (Hp1 & Hl1 & Hpend1 & Hm1).
    assert (Hrest : validatorLoop ticks s1 = (r, s') ->
                    headers (chain s) `prefix_of` headers (chain s') /\
                    len (headers (chain s')) <= len (headers (chain s)) + Z.of_nat (S ticks) /\
                    (Pending (memPool s') = Pending (memPool s) \/ Pending (memPool s') = []) /\
                    peerMap s' = peerMap s /\ (forall e, r <> Err e)).
    { intros Hrun. destruct (IH _ Hrun) as (Hp & Hl & Hpend & Hm & Hr).
      split; [etransitivity; eassumption|]. split; [lia|].
      split. { destruct Hpend as [Hq|Hq]; rewrite Hq; auto. }
      split; [congruence|exact Hr]. }
    destruct r1 as [[]|e1|m1]; auto.
    intros [= <- <-]. split; [exact Hp1|]. split; [lia|]. split; [exact Hpend1|].
    split; [exact Hm1|discriminate].
Qed.

(** X13.  [statusLoop] reads the height through the head pointer before
    its loop.  On the chain [NewBlockchain] returns, for a validator too,
    the head pointer is nil and this is a run-time fault; once
    [CreateNewBlock] has returned nil the head pointer is the header of the
    new block and its height is read. *)
Theorem statusLoop_start :
  (forall (genesis : Block) (d : Database) (v : bool) (bc : Blockchain) (s : Server),
     NewBlockchain genesis d v = Ok bc -> chain s = bc ->
     statusLoop_lastBroadcastHeight s =
       Panic "runtime error: invalid memory address or nil pointer dereference") /\
  (forall (s s' : Server),
     CreateNewBlock s = (Ok tt, s') ->
     exists h, last (headers (chain s')) = Some h /\
               statusLoop_lastBroadcastHeight s' = Ok (hdr_Height h)).
Proof.
  split.
  - intros genesis d v bc s Hnew Hs. unfold statusLoop_lastBroadcastHeight.
    rewrite Hs. destruct v.
    + apply NewBlockchain_validator_inv in Hnew as (h & g & _ & _ & ->). reflexivity.
    + unfold NewBlockchain in Hnew. injection Hnew as <-. reflexivity.
  - intros s s' Hc.
    destruct (CreateNewBlock_cases _ _ _ Hc) as [(_ & [block Hv] & _)|[Hr _]]; [|congruence].
    apply VerifyBlock_ok_state in Hv as (blk & h & _ & _ & Hhs & _ & _ & Hcur).
    exists h. split; [rewrite Hhs; apply last_snoc|].
    unfold statusLoop_lastBroadcastHeight. rewrite Hcur. reflexivity.
Qed.

Lemma processStatusMessage_spec (s : Server) (from : Addr) (data : StatusMessage) :
  processStatusMessage from data s =
    (Ok tt,
     if negb (isValidator s) && (len (Headers (chain s)) <? sm_CurrentLength data)
     then emit [Started (GoRequestBlocksLoop from (sm_CurrentLength data))] s
     else s).
Proof.
  unfold processStatusMessage. cbv zeta.
  destruct (sm_CurrentLength data <? len (Headers (chain s))) eqn:E.
  - apply Z.ltb_lt in E.
    assert ((len (Headers (chain s)) <? sm_CurrentLength data) = false) as ->
      by (apply Z.ltb_ge; lia).
    rewrite andb_false_r. reflexivity.
  - destruct (negb (isValidator s) && _); reflexivity.
Qed.

Lemma processBlock_frame (b : option Block) (s s' : Server) (r : Res unit) :
  processBlock b s = (r, s') -> peerMap s' = peerMap s /\ memPool s' = memPool s.
Proof.
  unfold processBlock. run.
  destruct (VerifyBlock b (chain s)) as [rv bc'].
  destruct rv as [[]|e|msg]; [destruct b|..]; intros [= <- <-]; auto.
Qed.

Section RouterProperties.

Variable NewBlockWithHeader : option Header -> Block + string.
Variable WithBody : Block -> list Transaction -> option PublicKey -> Block.
Variable Send_nil : TCPPeer -> Res unit.
Variable RPC : Type.
Variable RPCDecodeFunc : RPC -> option DecodeMessage * option error.

(** One pair of the batch adds at most one header. *)
Lemma processFullBlock_headers (fb : FullBlock) (bc : Blockchain) :
  headers (processFullBlock NewBlockWithHeader WithBody fb bc).2 = headers bc \/
  exists h, headers (processFullBlock NewBlockWithHeader WithBody fb bc).2
            = (headers bc ++ [h])%list.
Proof.
  unfold processFullBlock. cbv zeta.
  destruct (NewBlockWithHeader (fb_Header fb)) as [nb|msg]; [|left; reflexivity].
  destruct (fb_Block fb) as [block|]; [|left; reflexivity]. cbn [snd].
  destruct (VerifyBlock _ bc) as [r bc'] eqn:Hv.
  exact (proj2 (VerifyBlock_headers _ _ _ _ Hv)).
Qed.

Lemma processFullBlocks_headers (fbs : list FullBlock) (bc : Blockchain) :
  headers bc `prefix_of`
    headers (processFullBlocks NewBlockWithHeader WithBody fbs bc).2 /\
  len (headers (processFullBlocks NewBlockWithHeader WithBody fbs bc).2)
    <= len (headers bc) + len fbs.
Proof.
  revert bc. induction fbs as [|fb fbs IH]; intros bc; cbn [processFullBlocks].
  - split; [reflexivity|]. unfold len. cbn [length]. simpl. lia.
  - unfold bind.
    pose proof (processFullBlock_headers fb bc) as Hh.
    destruct (processFullBlock NewBlockWithHeader WithBody fb bc) as [r bc1] eqn:Hfb.
    cbn [fst snd] in Hh.
    assert (Hstep : headers bc `prefix_of` headers bc1 /\
                    len (headers bc1) <= len (headers bc) + 1).
    { destruct Hh as [Heq|[h Heq]]; rewrite Heq.
      - split; [reflexivity|lia].
      - split; [apply prefix_app_r; reflexivity|].
        unfold len. rewrite length_app. cbn [length]. lia. }
    destruct Hstep as [Hp1 Hl1].
    assert (Hlen : len (fb :: fbs) = len fbs + 1) by (unfold len; cbn [length]; lia).
    destruct r as [[]|e|msg]; cbn [snd].
    + destruct (IH bc1) as [Hp Hl]. split; [etransitivity; eassumption|lia].
    + split; [exact Hp1|]. unfold len in *. lia.
    + split; [exact Hp1|]. unfold len in *. lia.
Qed.

Lemma processFullBlocks_result (fbs : list FullBlock) (bc : Blockchain) :
  ((processFullBlocks NewBlockWithHeader WithBody fbs bc).1 = Ok tt /\
   Forall (fun fb => is_Some (fb_Block fb) /\
                     exists nb, NewBlockWithHeader (fb_Header fb) = inl nb) fbs) \/
  ((exists msg, (processFullBlocks NewBlockWithHeader WithBody fbs bc).1 = Panic msg) /\
   Exists (fun fb => fb_Block fb = None \/
                     exists msg, NewBlockWithHeader (fb_Header fb) = inr msg) fbs).
Proof.
  revert bc. induction fbs as [|fb fbs IH]; intros bc; cbn [processFullBlocks].
  - left. split; [reflexivity|constructor].
  - unfold bind, processFullBlock. cbv zeta.
    destruct (NewBlockWithHeader (fb_Header fb)) as [nb|msg] eqn:Hnb.
    + destruct (fb_Block fb) as [block|] eqn:Hb.
      * destruct (IH (VerifyBlock
                        (Some (WithBody nb (blk_transactions block) (blk_Validator block)))
                        bc).2)
          as [[Hr Hall]|[Hr Hex]].
        -- left. split; [exact Hr|]. constructor; [|exact Hall].
           rewrite Hb, Hnb. eauto.
        -- right. split; [exact Hr|]. apply Exists_cons_tl. exact Hex.
      * right. split; [eauto|]. apply Exists_cons_hd. left. exact Hb.
    + right. split; [eauto|]. apply Exists_cons_hd. right. rewrite Hnb. eauto.
Qed.

(** X14.  [processBlocksMessage] returns no error and neither sends nor
    starts anything: mempool, peers and events are as before; the headers
    the chain had stay and at most one is added per pair of the batch.  It
    returns nil exactly when every pair of the batch carries a block and
    [NewBlockWithHeader] returns for its header; otherwise it stops with a
    run-time fault at the first pair that is not so, the pairs before it
    handled: the fault of the constructor, or else the nil dereference of
    the missing block.  A pair whose block [VerifyBlock] turns down is
    passed over and the rest of the batch is handled as if the pair were
    not there. *)
Theorem processBlocksMessage_skips_rejected (from : Addr) (data : BlocksMessage)
    (s : Server) :
  exists r s',
    processBlocksMessage NewBlockWithHeader WithBody from data s = (r, s') /\
    memPool s' = memPool s /\ peerMap s' = peerMap s /\ events s' = events s /\
    headers (chain s) `prefix_of` headers (chain s') /\
    len (headers (chain s')) <= len (headers (chain s)) + len (bm_Blocks data) /\
    (r = Ok tt /\
     Forall (fun fb => is_Some (fb_Block fb) /\
                       exists nb, NewBlockWithHeader (fb_Header fb) = inl nb)
            (bm_Blocks data) \/
     (exists msg, r = Panic msg) /\
     Exists (fun fb => fb_Block fb = None \/
                       exists msg, NewBlockWithHeader (fb_Header fb) = inr msg)
            (bm_Blocks data)) /\
    (forall fb rest nb,
       bm_Blocks data = fb :: rest -> fb_Block fb = None ->
       NewBlockWithHeader (fb_Header fb) = inl nb ->
       r = Panic "runtime error: invalid memory address or nil pointer dereference" /\
       s' = s) /\
    (forall fb block rest nb r1 bc',
       bm_Blocks data = fb :: rest -> fb_Block fb = Some block ->
       NewBlockWithHeader (fb_Header fb) = inl nb ->
       VerifyBlock (Some (WithBody nb (blk_transactions block) (blk_Validator block)))
                   (chain s) = (r1, bc') ->
       r1 <> Ok tt ->
       processBlocksMessage NewBlockWithHeader WithBody from data s
         = processBlocksMessage NewBlockWithHeader WithBody from {| bm_Blocks := rest |} s).
Proof.
  destruct (processFullBlocks_headers (bm_Blocks data) (chain s)) as [Hp Hl].
  pose proof (processFullBlocks_result (bm_Blocks data) (chain s)) as Hres.
  unfold processBlocksMessage, onChain.
  destruct (processFullBlocks NewBlockWithHeader WithBody (bm_Blocks data) (chain s))
    as [r bc1] eqn:Hrun.
  cbn [fst snd] in Hp, Hl, Hres.
  exists r, (set_chain bc1 s). split; [reflexivity|].
  split; [reflexivity|]. split; [reflexivity|]. split; [reflexivity|].
  split; [exact Hp|]. split; [exact Hl|]. split; [exact Hres|]. split.
  - intros fb rest nb Hdata Hnil Hnb. rewrite Hdata in Hrun.
    cbn [processFullBlocks] in Hrun.
    unfold bind, processFullBlock in Hrun. cbv zeta in Hrun.
    rewrite Hnb, Hnil in Hrun.
    injection Hrun as <- <-. split; [reflexivity|apply set_chain_same].
  - intros fb block rest nb r1 bc' Hdata Hblock Hnb Hv Hr1. cbn [bm_Blocks].
    assert (Heq : processFullBlocks NewBlockWithHeader WithBody (bm_Blocks data) (chain s)
                  = processFullBlocks NewBlockWithHeader WithBody rest (chain s)).
    { rewrite Hdata. cbn [processFullBlocks]. unfold bind, processFullBlock.
      cbv beta zeta. rewrite Hnb, Hblock, Hv. cbn [snd].
      apply VerifyBlock_not_ok in Hv as [_ ->]; [reflexivity|exact Hr1]. }
    rewrite <- Heq, Hrun. reflexivity.
Qed.

(** X15.  The status exchange.  A node asked for its status by a peer it
    knows answers that peer with a Status message carrying its own header
    count; by a peer it does not know, it returns "peer not found" and
    sends nothing.  The node that gets this answer starts the catch-up loop
    up to that count exactly when it is not a validator and has fewer
    headers than the node that answered. *)
Theorem status_exchange (a b : Server) (fromB fromA : Addr) :
  (peerMap a !! fromB = None ->
     processGetStatusMessage Send_nil fromB a = (Err "peer not found", a)) /\
  (forall peer,
     peerMap a !! fromB = Some peer ->
     (forall m, gob_fault (GobStatus m) = None) ->
     (forall m, send_fault peer m = None) ->
     exists status,
       sm_CurrentLength status = len (Headers (chain a)) /\
       sm_ID status = srv_ID a /\
       processGetStatusMessage Send_nil fromB a =
         (Ok tt, emit [Sent (conn_RemoteAddr peer)
                         (NewMessage MessageTypeStatus (GobStatus status) (srv_ID a))] a) /\
       processStatusMessage fromA status b =
         (Ok tt,
          if negb (isValidator b)
             && (len (Headers (chain b)) <? len (Headers (chain a)))
          then emit [Started (GoRequestBlocksLoop fromA (len (Headers (chain a))))] b
          else b)).
Proof.
  split.
  - intros Hnone. unfold processGetStatusMessage. rewrite Hnone. reflexivity.
  - intros peer Hpeer Hgob Hsend.
    exists {| sm_ID := srv_ID a; sm_CurrentLength := len (Headers (chain a)) |}.
    split; [reflexivity|]. split; [reflexivity|]. split.
    + unfold processGetStatusMessage, createStatusMessage. cbv zeta.
      rewrite Hpeer, Hgob, Hsend. reflexivity.
    + apply processStatusMessage_spec.
Qed.

(** X16.  What a message can change.  [ProcessMessage] never changes the
    peers; it changes the mempool only for a transaction; it changes the
    chain only for a block or a batch of blocks; and a message of a kind it
    does not know is answered with nil, the server as it was. *)
Theorem ProcessMessage_changes (msg : DecodeMessage) (s s' : Server) (r : Res unit) :
  ProcessMessage NewBlockWithHeader WithBody Send_nil msg s = (r, s') ->
  peerMap s' = peerMap s /\
  ((forall t, dm_Data msg <> DataTransaction t) -> memPool s' = memPool s) /\
  ((forall t, dm_Data msg <> DataBlock t) -> (forall t, dm_Data msg <> DataBlocks t) ->
   chain s' = chain s) /\
  (dm_Data msg = DataOther -> r = Ok tt /\ s' = s).
Proof.
  unfold ProcessMessage. destruct (dm_Data msg) as [t|t| |t|t|t|] eqn:Hd.
  - unfold processTransaction. cbv zeta.
    destruct (Contains _ _); intros [= <- <-]; simpl;
      (split; [reflexivity|]); (split; [intros H; exfalso; eapply H; reflexivity|]);
      (split; [reflexivity|discriminate]).
  - intros Hrun. destruct (processBlock_frame t s s' r Hrun) as (Hp & Hm).
    split; [exact Hp|]. split; [intros _; exact Hm|].
    split; [intros H; exfalso; eapply H; reflexivity|discriminate].
  - unfold processGetStatusMessage. cbv zeta.
    repeat match goal with
           | |- context [match ?x with _ => _ end] => destruct x
           end;
      intros [= <- <-]; simpl; repeat split; auto; discriminate.
  - rewrite processStatusMessage_spec.
    destruct (negb _ && _); intros [= <- <-]; simpl; repeat split; auto; discriminate.
  - unfold processGetBlocksMessage. cbv zeta.
    repeat match goal with
           | |- context [match ?x with _ => _ end] => destruct x
           end;
      intros [= <- <-]; simpl; repeat split; auto; discriminate.
  - unfold processBlocksMessage, onChain.
    destruct (processFullBlocks NewBlockWithHeader WithBody (bm_Blocks t) (chain s))
      as [r1 bc1].
    intros [= <- <-]. split; [reflexivity|]. split; [reflexivity|].
    split; [intros _ H; exfalso; eapply H; reflexivity|discriminate].
  - intros [= <- <-]. repeat split; auto.
Qed.

Lemma logged_outcome (p : Res unit * Server) (r : Res bool) (s' : Server) :
  logged p = (r, s') -> s' = p.2 /\ (r = Ok true \/ exists msg, r = Panic msg /\ p.1 = Panic msg).
Proof.
  destruct p as [[[]|e|msg] s0]; intros [= <- <-]; simpl; eauto.
Qed.

(** X17.  One turn of the loop of [Start].  No error comes out of a turn:
    the loop goes on, is left, or faults, and it is left only on quit.  An
    RPC that the decoder gives back as a nil message faults the turn, the
    message being read before the decoder's error is looked at; an RPC
    decoded with an error is dropped, the server as it was; a transaction
    from the API channel never ends the loop. *)
Theorem serve_outcomes (a : Arrival RPC) (s s' : Server) (r : Res bool) :
  serve NewBlockWithHeader WithBody Send_nil RPC RPCDecodeFunc a s = (r, s') ->
  (forall e, r <> Err e) /\
  (r = Ok false <-> a = QuitArrives RPC) /\
  (forall rpc e, a = RpcArrives RPC rpc -> RPCDecodeFunc rpc = (None, e) ->
     r = Panic "runtime error: invalid memory address or nil pointer dereference" /\ s' = s) /\
  (forall rpc msg e, a = RpcArrives RPC rpc -> RPCDecodeFunc rpc = (Some msg, Some e) ->
     r = Ok true /\ s' = s) /\
  (forall tx, a = TxArrives RPC tx -> r = Ok true /\ s' = (processTransaction tx s).2).
Proof.
  unfold serve. destruct a as [peer|tx|rpc|].
  - intros [= <- <-].
    refine (conj _ (conj (conj _ _) (conj _ (conj _ _)))); intros; discriminate.
  - intros Hl. pose proof (logged_outcome _ _ _ Hl) as [Hs Hr].
    assert (Hok : r = Ok true).
    { destruct Hr as [Hr|(msg & _ & Hp)]; [exact Hr|].
      unfold processTransaction in Hp. cbv zeta in Hp.
      destruct (Contains _ _); discriminate. }
    subst r.
    refine (conj _ (conj (conj _ _) (conj _ (conj _ _)))); try (intros; discriminate).
    intros tx' [= <-]. split; [reflexivity|exact Hs].
  - destruct (RPCDecodeFunc rpc) as [[msg|] [e|]] eqn:Hd.
    + intros [= <- <-].
      refine (conj _ (conj (conj _ _) (conj _ (conj _ _)))); try (intros; discriminate).
      * intros rpc' e' [= <-]. congruence.
      * intros rpc' msg' e' [= <-]. auto.
    + intros Hl. pose proof (logged_outcome _ _ _ Hl) as [Hs Hr].
      refine (conj _ (conj (conj _ _) (conj _ (conj _ _)))); try (intros; discriminate).
      * intros e'. destruct Hr as [->|(m & -> & _)]; discriminate.
      * destruct Hr as [->|(m & -> & _)]; discriminate.
      * intros rpc' e' [= <-]. congruence.
      * intros rpc' msg' e' [= <-]. congruence.
    + intros [= <- <-].
      refine (conj _ (conj (conj _ _) (conj _ (conj _ _)))); try (intros; discriminate).
      * intros rpc' e' [= <-]. auto.
      * intros rpc' msg' e' [= <-]. congruence.
    + intros [= <- <-].
      refine (conj _ (conj (conj _ _) (conj _ (conj _ _)))); try (intros; discriminate).
      * intros rpc' e' [= <-]. auto.
      * intros rpc' msg' e' [= <-]. congruence.
  - intros [= <- <-].
    refine (conj _ (conj (conj _ _) (conj _ (conj _ _)))); try (intros; discriminate);
      reflexivity.
Qed.

(** X18.  A peer that has arrived is a peer a broadcast reaches: after the
    turn for a new peer, [broadcast] sends its message to that peer, still
    sends it to every peer known before under another address, and sends
    exactly as many messages as there are peers. *)
Theorem serve_peer_then_broadcast (peer : TCPPeer) (s : Server) (payload : Message) :
  exists s1 sends,
    serve NewBlockWithHeader WithBody Send_nil RPC RPCDecodeFunc (PeerArrives RPC peer) s
      = (Ok true, s1) /\
    broadcast payload s1 = (Ok tt, emit sends s1) /\
    Sent (conn_RemoteAddr peer) payload ∈ sends /\
    (forall addr p, peerMap s !! addr = Some p -> addr <> conn_RemoteAddr peer ->
       Sent (conn_RemoteAddr p) payload ∈ sends) /\
    length sends = size (peerMap s1).
Proof.
  eexists. eexists. split; [reflexivity|]. split; [reflexivity|].
  cbn [peerMap set_peerMap].
  assert (Hin : forall addr p,
            <[conn_RemoteAddr peer := peer]> (peerMap s) !! addr = Some p ->
            Sent (conn_RemoteAddr p) payload
              ∈ map (fun ap : Addr * TCPPeer => Sent (conn_RemoteAddr ap.2) payload)
                    (map_to_list (<[conn_RemoteAddr peer := peer]> (peerMap s)))).
  { intros addr p Hp. apply elem_of_map_to_list in Hp.
    apply list_elem_of_In, in_map_iff. exists (addr, p).
    split; [reflexivity|]. apply list_elem_of_In. exact Hp. }
  split; [apply (Hin (conn_RemoteAddr peer)), lookup_insert_eq|].
  split.
  - intros addr p Hp Hne. apply (Hin addr). rewrite lookup_insert_ne; auto.
  - rewrite length_map. apply length_map_to_list.
Qed.

End RouterProperties.

(** ** Properties of the mutexes *)

Lemma RUnlock_RLock (h : Holds) :
  held_write h = false ->
  RLock h = Some {| held_write := false; held_read := S (held_read h) |} /\
  RUnlock {| held_write := false; held_read := S (held_read h) |} = h.
Proof.
  destruct h as [w n]. simpl. intros ->. split; reflexivity.
Qed.

(** X19.  [broadcastBlock] never sends: it takes the write lock of [s.mu]
    and then calls [broadcast], which waits for the read lock of the same
    mutex; whatever the goroutine held before, the call waits for ever
    with nothing sent.  [broadcastTx], which takes only the read lock,
    returns with its sends made and the holds as they were. *)
Theorem broadcastBlock_waits_for_itself :
  (forall (b : Block) (s : Server) (h : Holds),
     exists h', locked_broadcastBlock b s h = Waits s h') /\
  (forall (tx : Transaction) (s : Server) (h : Holds),
     held_write h = false ->
     locked_broadcastTx tx s h = Returns (Ok tt) (broadcastTx tx s).2 h).
Proof.
  split.
  - intros b s h. unfold locked_broadcastBlock, Lock.
    destruct (held_write h || (0 <? held_read h)%nat); [eauto|].
    unfold locked_broadcast, RLock. simpl. eauto.
  - intros tx s h Hw. unfold locked_broadcastTx, locked_broadcast, broadcastTx.
    destruct (RUnlock_RLock h Hw) as [-> Hu]. unfold broadcast. rewrite Hu. reflexivity.
Qed.

Lemma locked_GetBlock_spec (bc : Blockchain) (height : Z) (h : Holds) :
  held_write h = false ->
  locked_GetBlock bc height h =
    Returns (GetBlock bc height) bc
      {| held_write := false;
         held_read := if leaksReadLock bc height then S (held_read h) else held_read h |}.
Proof.
  intros Hw. destruct (RUnlock_RLock h Hw) as [Hr Hu].
  unfold locked_GetBlock, leaksReadLock, GetBlock. cbv zeta. rewrite Hr, Hu, Hr.
  destruct h as [w n]. simpl in Hw. subst w. simpl.
  destruct (Cmp height (Height bc) =? 1); [reflexivity|]. simpl.
  destruct (GetBlockHeader bc height) as [blockHeader|e|msg]; try reflexivity.
  destruct (ReadBlock _ _ _); reflexivity.
Qed.

(** X20.  [GetBlock] and the read lock of [bc.lock].  Called on a
    goroutine that does not hold the write lock, it returns what the model
    without the mutex returns, and it returns with one read lock more than
    it was called with exactly when it fails after its height test (header
    lookup failing, or block not found in the store); on the way that
    returns a block, and on the way that fails the height test, the holds
    are as before. *)
Theorem GetBlock_keeps_read_lock (bc : Blockchain) (height : Z) (h : Holds) :
  held_write h = false ->
  locked_GetBlock bc height h =
    Returns (GetBlock bc height) bc
      {| held_write := false;
         held_read := if leaksReadLock bc height then S (held_read h) else held_read h |}.
Proof. exact (locked_GetBlock_spec bc height h). Qed.

(** X21.  A read lock left behind stops the chain.  With no hold,
    [VerifyBlock] returns what the model without the mutex returns and
    holds nothing afterwards.  But after a [GetBlock] that failed past its
    height test, on the same goroutine, a [VerifyBlock] of a block that
    passes every check waits for ever for the write lock, the chain
    unchanged: the block is never appended. *)
Theorem VerifyBlock_waits_after_GetBlock_failure :
  (forall (b : option Block) (bc : Blockchain),
     locked_VerifyBlock b bc noHolds
       = Returns (VerifyBlock b bc).1 (VerifyBlock b bc).2 noHolds) /\
  (forall (bc : Blockchain) (height : Z) (blk : Block) (hdr : Header),
     leaksReadLock bc height = true ->
     blk_header blk = Some hdr -> passesValidation bc blk ->
     Forall (fun tx => tx_Verify tx = None) (blk_transactions blk) ->
     exists h1,
       locked_GetBlock bc height noHolds = Returns (GetBlock bc height) bc h1 /\
       held_read h1 = 1%nat /\
       locked_VerifyBlock (Some blk) bc h1 = Waits bc h1).
Proof.
  split.
  - intros [b|] bc; [|reflexivity]. unfold locked_VerifyBlock.
    destruct (blk_header b) as [hdr|] eqn:Hh; [|unfold VerifyBlock; rewrite Hh; reflexivity].
    rewrite (VerifyBlock_some b hdr bc Hh).
    unfold locked_addBlockWithoutValidation. simpl.
    destruct (validator bc) as [v|];
      [destruct (ValidateBlock v bc b)|];
      destruct (verifyTransactions (blk_transactions b)); try reflexivity;
      destruct (addBlockWithoutValidation b bc); reflexivity.
  - intros bc height blk hdr Hleak Hh Hpass Htxs.
    eexists. split; [apply locked_GetBlock_spec; reflexivity|].
    rewrite Hleak. split; [reflexivity|].
    unfold locked_VerifyBlock. rewrite Hh.
    apply verifyTransactions_ok in Htxs. rewrite Htxs.
    unfold passesValidation in Hpass.
    destruct (validator bc) as [v|]; [rewrite Hpass|]; reflexivity.
Qed.

(** ** Properties across the ledger and the server *)

Lemma ledgerCalls_validator (cs : list LedgerCall) (bc : Blockchain) :
  validator (ledgerCalls cs bc) = validator bc.
Proof.
  revert bc. induction cs as [|c cs IH]; intros bc; [reflexivity|].
  change (ledgerCalls (c :: cs) bc) with (ledgerCalls cs (ledgerCall c bc)).
  rewrite IH. destruct c as [b|tx|k tx]; simpl.
  - destruct (VerifyBlock b bc) as [r bc'] eqn:Hv. simpl.
    destruct r as [[]|e|msg].
    + apply VerifyBlock_ok_inv in Hv as (blk & h & _ & Hh & Hadd & _).
      destruct (addBlockWithoutValidation_spec blk h bc Hh) as (bc2 & Hadd2 & _ & _ & _ & Hval & _).
      congruence.
    + apply VerifyBlock_not_ok in Hv as [_ ->]; [reflexivity|discriminate].
    + apply VerifyBlock_not_ok in Hv as [_ ->]; [reflexivity|discriminate].
  - destruct (WriteRFQTxs tx bc) as [r bc'] eqn:E.
    destruct (WriteRFQTxs_frame _ _ _ _ E) as [-> _]. reflexivity.
  - reflexivity.
Qed.

(** X22.  A node that is not a validator.  [NewBlockchain] gives it a chain
    without any header (height -1, the genesis block it was handed is not
    committed, the store untouched), a nil head pointer and no block
    validator; and as nothing sets a validator later, after any run of
    calls it accepts every block that has a header and whose transactions
    verify, whatever the height and the parent hash of the block. *)
Theorem follower_accepts_any_block (genesis : Block) (d : Database) :
  exists bc,
    NewBlockchain genesis d false = Ok bc /\
    headers bc = [] /\ Height bc = -1 /\ db bc = d /\
    CurrentBlock bc = None /\ validator bc = None /\
    (forall cs blk h,
       blk_header blk = Some h ->
       Forall (fun tx => tx_Verify tx = None) (blk_transactions blk) ->
       exists bc',
         VerifyBlock (Some blk) (ledgerCalls cs bc) = (Ok tt, bc') /\
         headers bc' = (headers (ledgerCalls cs bc) ++ [h])%list).
Proof.
  eexists. split; [reflexivity|]. simpl.
  repeat (split; [reflexivity|]).
  intros cs blk h Hh Htxs.
  match goal with |- context [ledgerCalls cs ?b] => set (bc0 := b) end.
  rewrite (VerifyBlock_some blk h _ Hh).
  rewrite (ledgerCalls_validator cs bc0). simpl.
  apply verifyTransactions_ok in Htxs. rewrite Htxs.
  destruct (addBlockWithoutValidation_spec blk h (ledgerCalls cs bc0) Hh)
    as (bc2 & Hadd & Hhs & _).
  eauto.
Qed.

(** X23.  The catch-up loop and a peer that is not in the peer map: at the
    first turn at which the node is still short of headers and does not
    know the peer, the loop faults (the message of the error it is about to
    return reads the connection through the nil peer) instead of returning
    that error; the turns before it have each sent their request. *)
Theorem requestBlocksLoop_unknown_peer_faults (peer : Addr) (blocksIndex : Z)
    (before after : list Server) (s : Server) :
  (forall m, gob_fault (GobGetBlocks m) = None) ->
  Forall (behind peer blocksIndex) before ->
  len (Headers (chain s)) < blocksIndex ->
  peerMap s !! peer = None ->
  requestBlocksLoop peer blocksIndex (before ++ s :: after)%list =
    (Some (Panic "runtime error: invalid memory address or nil pointer dereference"),
     flat_map (catchUpRequest peer blocksIndex) before).
Proof.
  intros Hgob Hall Hlen Hnone.
  rewrite (requestBlocksLoop_behind _ _ _ _ Hall Hgob).
  cbn [requestBlocksLoop]. unfold requestBlocksTurn. cbv zeta.
  assert ((len (Headers (chain s)) >=? blocksIndex) = false) as ->.
  { rewrite Z.geb_leb. apply Z.leb_gt. lia. }
  rewrite Hgob, Hnone. cbn [fst snd]. rewrite app_nil_r. reflexivity.
Qed.

Lemma Forall2_exists {A B} (P : A -> B -> Prop) (l : list A) :
  (forall a, a ∈ l -> exists b, P a b) -> exists bs, Forall2 P l bs.
Proof.
  induction l as [|a l IH]; intros H.
  - exists []. constructor.
  - destruct (H a) as [b Hb]; [apply list_elem_of_here|].
    destruct IH as [bs Hbs]; [intros a' Ha'; apply H, list_elem_of_further, Ha'|].
    exists (b :: bs). constructor; assumption.
Qed.

(** X24.  The answer to [GetBlocks] on a chain indexed by height.  For a
    range [To .. From] that ends below the number of headers, a node that
    knows the peer (gob and the send not failing) answers once, with one
    pair per height of the range in rising order, the header of the pair
    for a height being the chain's header at that height. *)
Theorem processGetBlocksMessage_on_indexed_chain (s : Server) (from : Addr)
    (data : GetBlocksMessage) (peer : TCPPeer) :
  wellIndexed (chain s) -> len (Headers (chain s)) < two63 ->
  0 <= gbm_To data -> gbm_To data <= gbm_From data ->
  gbm_From data < len (Headers (chain s)) ->
  (forall m, gob_fault (GobBlocks m) = None) ->
  peerMap s !! from = Some peer ->
  (forall m, send_fault peer m = None) ->
  exists fbs,
    processGetBlocksMessage from data s =
      (Ok tt,
       emit [Sent (conn_RemoteAddr peer)
               (NewMessage MessageTypeBlocks (GobBlocks {| bm_Blocks := fbs |}) (srv_ID s))] s) /\
    len fbs = gbm_From data - gbm_To data + 1 /\
    (forall (i : nat) fb, fbs !! i = Some fb ->
       fb_Header fb = headers (chain s) !! Z.to_nat (gbm_To data + Z.of_nat i) /\
       exists b, fb_Block fb = Some b /\ blk_header b = fb_Header fb).
Proof.
  intros Hidx Hlen Hto Hle Hfrom Hgob Hpeer Hsend. unfold Headers in *.
  destruct (Forall2_exists
              (fun i fb => (exists b, GetBlock (chain s) i = Ok b /\
                                      fb_Block fb = Some b /\
                                      fb_Header fb = blk_header b) /\
                           fb_Header fb = headers (chain s) !! Z.to_nat i)
              (seqZ (gbm_To data) (gbm_From data - gbm_To data + 1))) as [fbs Hfbs].
  { intros i Hi. apply elem_of_seqZ in Hi.
    destruct (GetBlock_on_indexed_chain_aux (chain s) i Hidx Hlen) as (b & h & Hb & Hl & Hh);
      [unfold Height; lia|].
    exists {| fb_Block := Some b; fb_Header := blk_header b |}. simpl.
    split; [exists b; auto|]. congruence. }
  exists fbs. split; [|split].
  - apply processGetBlocksMessage_in_range; auto; try (unfold Headers; lia).
    eapply Forall2_impl; [exact Hfbs|]. intros i fb (H1 & _). exact H1.
  - apply Forall2_length in Hfbs. rewrite length_seqZ in Hfbs. unfold len. lia.
  - intros i fb Hi.
    destruct (Forall2_lookup_r _ _ _ _ _ Hfbs Hi) as (z & Hz & (b & _ & Hb & H2) & H3).
    apply lookup_seqZ in Hz as [-> _]. split; [exact H3|]. exists b. auto.
Qed.

Lemma CreateNewBlock_ok_inv (s s' : Server) :
  CreateNewBlock s = (Ok tt, s') ->
  exists currentHeader b0 key block,
    NewBlockFromPrevHeader currentHeader (Pending (memPool s)) = Ok b0 /\
    Block_Sign b0 key = Ok block /\
    VerifyBlock (Some block) (chain s) = (Ok tt, chain s').
Proof.
  unfold CreateNewBlock. run. intros Hrun.
  destruct (GetHeader (chain s) (Height (chain s))) as [currentHeader|e0|m0];
    [|discriminate..].
  destruct (NewBlockFromPrevHeader currentHeader (Pending (memPool s)))
    as [b0|e0|m0] eqn:Hnew; [|discriminate..].
  destruct (srv_PrivateKey s) as [key|]; [|discriminate].
  destruct (Block_Sign b0 key) as [block|e0|m0] eqn:Hsign; [|discriminate..].
  destruct (VerifyBlock (Some block) (chain s)) as [rv bc'] eqn:Hverify.
  destruct rv as [[]|e0|m0]; [|discriminate..].
  inversion Hrun; subst. exists currentHeader, b0, key, block. simpl. auto.
Qed.

(** X25.  One transaction that does not verify stops the production of
    blocks.  [processTransaction] admits it unchecked; [CreateNewBlock]
    builds its block from all pending transactions and clears the pool only
    after [VerifyBlock] has accepted the block.  So, the block constructor
    and the signing keeping the transactions they are given: while such a
    transaction is pending, [CreateNewBlock] never returns nil, and through
    any number of ticks of the validator loop the server stays exactly as it
    is, the chain not a header longer and the transaction still pending. *)
Theorem bad_transaction_stops_validator (s : Server) (tx : Transaction) (e : error) :
  (forall hdr txs b, NewBlockFromPrevHeader hdr txs = Ok b -> blk_transactions b = txs) ->
  (forall b key b', Block_Sign b key = Ok b' -> blk_transactions b' = blk_transactions b) ->
  tx ∈ Pending (memPool s) -> tx_Verify tx = Some e ->
  (forall s', CreateNewBlock s <> (Ok tt, s')) /\
  (forall ticks r s', validatorLoop ticks s = (r, s') -> s' = s).
Proof.
  intros Hnew Hsign Hin Hbad.
  assert (Hno : forall s', CreateNewBlock s <> (Ok tt, s')).
  { intros s' Hc.
    apply CreateNewBlock_ok_inv in Hc as (hdr & b0 & key & block & Hb0 & Hblock & Hv).
    apply VerifyBlock_ok_inv in Hv as (blk & h & [= <-] & _ & _ & _ & Htxs).
    rewrite (Hsign _ _ _ Hblock), (Hnew _ _ _ Hb0) in Htxs.
    destruct (verifyTransactions_failure _ _ _ Hin Hbad) as [e' He']. congruence. }
  split; [exact Hno|].
  induction ticks as [|ticks IH]; intros r s'.
  - intros [= <- <-]. reflexivity.
  - cbn [validatorLoop]. destruct (CreateNewBlock s) as [r1 s1] eqn:Hc.
    assert (s1 = s) as ->.
    { destruct (CreateNewBlock_cases _ _ _ Hc) as [(-> & _)|[_ ->]]; [|reflexivity].
      exfalso. exact (Hno s1 eq_refl). }
    destruct r1 as [[]|e1|m1]; [apply IH|apply IH|intros [= <- <-]; reflexivity].
Qed.

End Relayer.

(** ** The codec of the request table *)

































(** ** The statements on the reference data *)

(** A validator's chain right after [NewBlockchain]: the genesis block
    committed, the head pointer nil. *)
Local Abbreviation validatorChain :=
  (set_currentBlock unit None
     (set_genesisBlock unit (Some Sample.genesis)
        (set_genesisBlock unit (Some Sample.genesis)
           (set_currentBlock unit (Some Sample.genesisHeader)
              (set_db unit (WriteBlock Sample.header_Hash empty_db Sample.genesis)
                 (set_headers unit [Sample.genesisHeader]
                    (SetValidator unit tt (emptyChain unit empty_db)))))))).

Local Abbreviation acceptAll := (fun (_ : unit) (_ : Blockchain unit) (_ : Block) => @None error).
Local Abbreviation noGobFault := (fun _ : Payload => @None error).
Local Abbreviation noSendFault := (fun (_ : TCPPeer) (_ : Message) => @None error).

Local Abbreviation peerB := {| conn_RemoteAddr := "10.0.0.2:4000"; Outgoing := false |}.

(** A validator node with one peer and one pending transaction. *)
Local Abbreviation validatorNode :=
  {| srv_ID := "validator"; peerMap := {["10.0.0.2:4000" := peerB]};
     memPool := {| pool_all := [Sample.requestTx]; pool_maxLength := 1000 |};
     chain := validatorChain; isValidator := true;
     srv_PrivateKey := Some [x2a]; events := [] |}.

(** A node that is not a validator, with [n] headers, that knows the
    validator. *)
Local Abbreviation follower hs :=
  {| srv_ID := "follower";
     peerMap := {["10.0.0.1:3000" := {| conn_RemoteAddr := "10.0.0.1:3000"; Outgoing := true |}]};
     memPool := NewTxPool 1000;
     chain := set_headers unit hs (emptyChain unit empty_db); isValidator := false;
     srv_PrivateKey := None; events := [] |}.

Lemma NewBlockchain_sample :
  NewBlockchain Sample.header_Hash unit tt Sample.genesis empty_db true = Ok validatorChain.
Proof. vm_compute. reflexivity. Qed.

Lemma VerifyBlock_rejects_or_appends_witness :
  exists bc', VerifyBlock Sample.header_Hash Sample.tx_Verify unit acceptAll
                (Some Sample.block1) validatorChain = (Ok tt, bc').
Proof.
  apply (VerifyBlock_rejects_or_appends Sample.header_Hash Sample.tx_Verify unit
           acceptAll validatorChain) with (h := Sample.header1).
  - reflexivity.
  - reflexivity.
  - repeat constructor.
Defined.

Lemma GetBlockHeader_one_past_last_faults_witness :
  len (headers unit validatorChain) < two63 /\
  GetBlockHeader unit validatorChain 1 =
    Panic "runtime error: index out of range [1] with length 1".
Proof.
  split; [reflexivity|].
  exact (proj2 (proj2 (GetBlockHeader_one_past_last_faults Sample.header_Hash unit
                         validatorChain eq_refl))).
Defined.

Lemma NewBlockchain_validator_head_is_nil_witness :
  NewBlockchain Sample.header_Hash unit tt Sample.genesis empty_db true = Ok validatorChain /\
  CurrentBlock unit validatorChain = None /\ Height unit validatorChain = 0.
Proof.
  split; [exact NewBlockchain_sample|].
  pose proof (NewBlockchain_validator_head_is_nil Sample.header_Hash Sample.tx_Verify
                unit acceptAll tt Sample.genesis empty_db validatorChain
                NewBlockchain_sample) as (Hcur & Hheight & _).
  split; assumption.
Defined.

Lemma typeTags_sample : NoDup (typeTags 0 1 2 3 4 5).
Proof.
  unfold typeTags. apply (bool_decide_unpack _). vm_compute. exact I.
Qed.

Local Abbreviation requestTx2 :=
  {| tx_Type := 0; tx_From := Some [x0b; x11]; tx_RFQData := Some Sample.rfq119;
     tx_V := Some 28; tx_R := Some 11; tx_S := Some 12;
     tx_ReferenceTxHash := []; tx_Data := [x31; x32; x30] |}.

Local Abbreviation requestWithoutToken :=
  {| tx_Type := 0; tx_From := Some [x0a; x64; x89; x18];
     tx_RFQData :=
       Some {| RequestorId := "119"; BaseTokenAmount := Some 1000000000000000000;
               BaseToken := None; QuoteToken := Some Sample.usdc;
               RFQDurationMs := 60000 |};
     tx_V := Some 27; tx_R := Some 123456789; tx_S := Some 987654321;
     tx_ReferenceTxHash := []; tx_Data := [x31; x31; x39] |}.

Local Abbreviation tx9 :=
  {| tx_Type := 9; tx_From := None; tx_RFQData := None; tx_V := None;
     tx_R := None; tx_S := None; tx_ReferenceTxHash := []; tx_Data := [] |}.

Lemma WriteRFQTxs_routes_by_type_witness :
  standardTables unit validatorChain /\
  NoDup (typeTags 0 1 2 3 4 5) /\
  WriteRFQTxs Sample.tx_Hash Sample.no_put_fault Rlp.EncodeRLP 0 1 2 3 4 5 unit
    tx9 validatorChain
  = (Err "unknown transaction type: 9", validatorChain).
Proof.
  assert (Hstd : standardTables unit validatorChain) by (repeat split).
  split; [exact Hstd|]. split; [exact typeTags_sample|].
  refine (eq_trans (proj2 (proj2 (WriteRFQTxs_routes_by_type Sample.tx_Hash
                     Sample.no_put_fault Rlp.EncodeRLP 0 1 2 3 4 5 unit
                     validatorChain tx9 Hstd typeTags_sample)) _) _).
  - apply (bool_decide_unpack _). vm_compute. exact I.
  - apply (f_equal (fun e : error => (@Err unit e, validatorChain))).
    vm_compute. reflexivity.
Defined.



Lemma processGetBlocksMessage_at_length_no_reply_witness :
  exists r,
    processGetBlocksMessage Sample.header_Hash unit noGobFault noSendFault
      "10.0.0.2:4000" {| gbm_From := 1; gbm_To := 0 |} validatorNode
    = (r, validatorNode) /\ r <> Ok tt.
Proof.
  apply (processGetBlocksMessage_at_length_no_reply Sample.header_Hash unit
           noGobFault noSendFault validatorNode).
  - reflexivity.
  - reflexivity.
  - simpl. lia.
Defined.

Lemma processTransaction_dedup_witness :
  processTransaction Sample.tx_Hash unit Sample.requestTx validatorNode
    = (Ok tt, validatorNode) /\
  (exists s',
     processTransaction Sample.tx_Hash unit requestTx2 validatorNode = (Ok tt, s') /\
     Pending (memPool unit s') = [Sample.requestTx; requestTx2] /\
     events unit s' = [Started (GoBroadcastTx requestTx2)]) /\
  broadcastTx unit requestTx2 validatorNode
    = (Ok tt, emit unit [Sent "10.0.0.2:4000"
                           (NewMessage MessageTypeTx EmptyBuffer "validator")]
                validatorNode) /\
  broadcastTx unit Sample.requestTx validatorNode
    = broadcastTx unit requestTx2 validatorNode.
Proof.
  destruct (processTransaction_dedup Sample.tx_Hash unit validatorNode Sample.requestTx)
    as (Hknown & _).
  destruct (processTransaction_dedup Sample.tx_Hash unit validatorNode requestTx2)
    as (_ & Hnew & _ & _ & Hsame).
  split; [apply Hknown; vm_compute; reflexivity|].
  split.
  - destruct Hnew as (s' & Hrun & Hpend & Hev & _); [vm_compute; reflexivity|].
    exists s'. split; [exact Hrun|]. split; [exact Hpend | exact Hev].
  - split; [vm_compute; reflexivity|]. apply Hsame.
Defined.

Lemma processTransaction_no_signature_check_witness :
  Sample.tx_Verify Sample.unsignedTx = Some "invalid transaction signature" /\
  (exists s',
     processTransaction Sample.tx_Hash unit Sample.unsignedTx (follower []) = (Ok tt, s') /\
     Sample.unsignedTx ∈ Pending (memPool unit s') /\
     Started (GoBroadcastTx Sample.unsignedTx) ∈ events unit s') /\
  Sent "10.0.0.1:3000" (NewMessage MessageTypeTx EmptyBuffer "follower")
    ∈ events unit (broadcastTx unit Sample.unsignedTx (follower [])).2 /\
  broadcastTx unit Sample.unsignedTx (follower [])
    = broadcastTx unit requestTx2 (follower []).
Proof.
  split; [reflexivity|].
  destruct (processTransaction_no_signature_check Sample.header_Hash Sample.tx_Hash
              Sample.tx_Verify unit acceptAll (follower []) Sample.unsignedTx
              "invalid transaction signature" eq_refl eq_refl)
    as (Hadd & _ & Hsent & Hsame).
  split; [exact Hadd|]. split; [|apply Hsame].
  apply (Hsent (follower []) "10.0.0.1:3000"
           {| conn_RemoteAddr := "10.0.0.1:3000"; Outgoing := true |}).
  reflexivity.
Defined.

Lemma status_catch_up_loop_witness :
  requestBlocksLoop unit noGobFault "10.0.0.1:3000" 1
    [follower []; follower []; follower [Sample.genesisHeader]; follower []]
  = (Some (Ok tt),
     (catchUpRequest unit "10.0.0.1:3000" 1 (follower [])
      ++ catchUpRequest unit "10.0.0.1:3000" 1 (follower []))%list).
Proof.
  pose proof (proj1 (proj2 (status_catch_up_loop unit noGobFault))
                "10.0.0.1:3000" 1 [follower []; follower []] [follower []]
                (follower [Sample.genesisHeader])) as H.
  apply H.
  - reflexivity.
  - repeat constructor; vm_compute; eauto.
  - vm_compute. discriminate.
Defined.

Lemma CreateNewBlock_clears_after_commit_witness :
  exists s' block,
    CreateNewBlock Sample.header_Hash Sample.tx_Verify unit acceptAll
      (GetBlockHeader unit) Sample.NewBlockFromPrevHeader Sample.Block_Sign
      validatorNode = (Ok tt, s') /\
    Pending (memPool unit s') = [] /\
    events unit s' = [Started (GoBroadcastBlock block)] /\
    exists h', locked_broadcastBlock unit block s' noHolds = @Waits _ _ s' h'.
Proof.
  destruct (CreateNewBlock Sample.header_Hash Sample.tx_Verify unit acceptAll
              (GetBlockHeader unit) Sample.NewBlockFromPrevHeader Sample.Block_Sign
              validatorNode) as [r s'] eqn:E.
  assert (Hr : r = Ok tt).
  { change r with (fst (r, s')). rewrite <- E. vm_compute. reflexivity. }
  subst r.
  destruct (CreateNewBlock_clears_after_commit Sample.header_Hash
              Sample.tx_Verify unit acceptAll (GetBlockHeader unit)
              Sample.NewBlockFromPrevHeader Sample.Block_Sign
              validatorNode (Ok tt) s' E) as [H _].
  destruct (H eq_refl)
    as (currentHeader & b0 & key & block & _ & _ & _ & _ & _ & Hp & Hev & Hwaits).
  exists s', block. split; [reflexivity|]. split; [exact Hp|].
  split; [exact Hev|]. exact (Hwaits s' noHolds).
Defined.

(** ** The further statements on the reference data *)

Local Abbreviation openTx :=
  {| tx_Type := 1; tx_From := None; tx_RFQData := None; tx_V := Some 27;
     tx_R := Some 5; tx_S := Some 6; tx_ReferenceTxHash := [x00; x31; x31; x39];
     tx_Data := [x6f; x70; x65; x6e] |}.

(** A node that is not a validator, which has taken block 1 before any
    other block. *)
Local Abbreviation lateFollowerChain :=
  (VerifyBlock Sample.header_Hash Sample.tx_Verify unit acceptAll
     (Some Sample.block1) (emptyChain unit empty_db)).2.

Local Abbreviation poisonedNode :=
  {| srv_ID := "validator"; peerMap := {["10.0.0.2:4000" := peerB]};
     memPool := {| pool_all := [Sample.requestTx; Sample.unsignedTx];
                   pool_maxLength := 1000 |};
     chain := validatorChain; isValidator := true;
     srv_PrivateKey := Some [x2a]; events := [] |}.

Local Abbreviation rebuildHeader :=
  (fun h : option Header =>
     match h with
     | Some _ =>
         @inl Block string
           {| blk_header := h; blk_transactions := []; blk_Validator := None |}
     | None =>
         inr "runtime error: invalid memory address or nil pointer dereference"
     end).
Local Abbreviation rebuildBody :=
  (fun (b : Block) (txs : list Transaction) (v : option PublicKey) =>
     {| blk_header := blk_header b; blk_transactions := txs; blk_Validator := v |}).
Local Abbreviation sendNil := (fun _ : TCPPeer => @Panic unit "nil message").
Local Abbreviation decodeNothing :=
  (fun _ : nat => (@None DecodeMessage, Some "gob: unexpected EOF")).

Lemma wellIndexed_sample : wellIndexed Sample.header_Hash unit validatorChain.
Proof.
  exact (wellIndexed_NewBlockchain Sample.header_Hash unit tt Sample.genesis empty_db
           Sample.genesisHeader validatorChain eq_refl eq_refl NewBlockchain_sample).
Qed.

Lemma WriteRFQTxs_changes_only_pairs_witness :
  exists r bc',
    WriteRFQTxs Sample.tx_Hash Sample.no_put_fault Rlp.EncodeRLP 0 1 2 3 4 5 unit
      Sample.requestTx validatorChain = (r, bc') /\
    headers unit bc' = [Sample.genesisHeader] /\ CurrentBlock unit bc' = None.
Proof.
  destruct (WriteRFQTxs Sample.tx_Hash Sample.no_put_fault Rlp.EncodeRLP 0 1 2 3 4 5 unit
              Sample.requestTx validatorChain) as [r bc'] eqn:E.
  exists r, bc'. split; [reflexivity|].
  destruct (WriteRFQTxs_changes_only_pairs Sample.tx_Hash Sample.no_put_fault
              Rlp.EncodeRLP 0 1 2 3 4 5 unit _ _ _ _ E) as [-> _].
  split; reflexivity.
Defined.

Lemma GetTxByHash_never_finds_witness :
  NewBlockchain Sample.header_Hash unit tt Sample.genesis empty_db true = Ok validatorChain /\
  GetTxByHash unit
    (ledgerCalls Sample.header_Hash Sample.tx_Hash Sample.tx_Verify Sample.no_put_fault
       Rlp.EncodeRLP 0 1 2 3 4 5 unit acceptAll
       [CallVerifyBlock (Some Sample.block1); CallWriteRFQTxs Sample.requestTx]
       validatorChain)
    (Sample.tx_Hash Sample.requestTx)
  = Err ("transaction with hash [" +:+ hex (Sample.tx_Hash Sample.requestTx)
         +:+ "] not found").
Proof.
  split; [exact NewBlockchain_sample|].
  exact (GetTxByHash_never_finds Sample.header_Hash Sample.tx_Hash Sample.tx_Verify
           Sample.no_put_fault Rlp.EncodeRLP 0 1 2 3 4 5 unit acceptAll tt
           Sample.genesis empty_db true validatorChain _ _ NewBlockchain_sample).
Defined.

Lemma GetBlock_on_indexed_chain_witness :
  exists b h,
    GetBlock Sample.header_Hash unit validatorChain 0 = Ok b /\
    headers unit validatorChain !! Z.to_nat 0 = Some h /\
    blk_header b = Some h /\ hdr_Height h = 0.
Proof.
  apply (GetBlock_on_indexed_chain Sample.header_Hash unit validatorChain 0).
  - exact wellIndexed_sample.
  - reflexivity.
  - split; [reflexivity|]. vm_compute. discriminate.
Defined.

Lemma GetBlock_after_misnumbered_block_witness :
  exists bc',
    VerifyBlock Sample.header_Hash Sample.tx_Verify unit acceptAll
      (Some Sample.block1) (emptyChain unit empty_db) = (Ok tt, bc') /\
    GetBlock Sample.header_Hash unit bc' 0 =
      Err ("block with hash [" +:+ hex (Sample.header_Hash Sample.header1)
           +:+ "] not found").
Proof.
  destruct (VerifyBlock Sample.header_Hash Sample.tx_Verify unit acceptAll
              (Some Sample.block1) (emptyChain unit empty_db)) as [r bc'] eqn:E.
  assert (Hr : r = Ok tt).
  { change r with (fst (r, bc')). rewrite <- E. vm_compute. reflexivity. }
  subst r. exists bc'. split; [reflexivity|].
  apply (GetBlock_after_misnumbered_block Sample.header_Hash Sample.tx_Verify unit
           acceptAll Sample.block1 Sample.header1 (emptyChain unit empty_db) bc').
  - reflexivity.
  - reflexivity.
  - vm_compute. discriminate.
  - reflexivity.
  - exact E.
Defined.

Lemma WriteRFQTxs_twice_witness :
  exists bc1,
    WriteRFQTxs Sample.tx_Hash Sample.no_put_fault Rlp.EncodeRLP 0 1 2 3 4 5 unit
      Sample.requestTx validatorChain = (Ok tt, bc1) /\
    WriteRFQTxs Sample.tx_Hash Sample.no_put_fault Rlp.EncodeRLP 0 1 2 3 4 5 unit
      Sample.requestTx bc1 = (Ok tt, bc1).
Proof.
  destruct (WriteRFQTxs Sample.tx_Hash Sample.no_put_fault Rlp.EncodeRLP 0 1 2 3 4 5 unit
              Sample.requestTx validatorChain) as [r bc1] eqn:E.
  assert (Hr : r = Ok tt).
  { change r with (fst (r, bc1)). rewrite <- E. vm_compute. reflexivity. }
  subst r. exists bc1. split; [reflexivity|].
  apply (WriteRFQTxs_twice Sample.tx_Hash Sample.no_put_fault Rlp.EncodeRLP
           0 1 2 3 4 5 unit Sample.requestTx validatorChain bc1 E).
  intros k v. reflexivity.
Defined.

Lemma WriteRFQTxs_other_type_keeps_requests_witness :
  exists r bc',
    WriteRFQTxs Sample.tx_Hash Sample.no_put_fault Rlp.EncodeRLP 0 1 2 3 4 5 unit
      openTx validatorChain = (r, bc') /\
    GetRFQRequests Sample.no_iter_fault Rlp.DecodeBytes unit bc'
      = GetRFQRequests Sample.no_iter_fault Rlp.DecodeBytes unit validatorChain.
Proof.
  destruct (WriteRFQTxs Sample.tx_Hash Sample.no_put_fault Rlp.EncodeRLP 0 1 2 3 4 5 unit
              openTx validatorChain) as [r bc'] eqn:E.
  exists r, bc'. split; [reflexivity|].
  apply (WriteRFQTxs_other_type_keeps_requests Sample.tx_Hash Sample.no_put_fault
           Sample.no_iter_fault Rlp.EncodeRLP Rlp.DecodeBytes 0 1 2 3 4 5 unit
           openTx validatorChain bc' r).
  - repeat split.
  - discriminate.
  - exact E.
  - reflexivity.
Defined.

Lemma WriteRFQTxs_requests_commute_witness :
  Sample.tx_Hash Sample.requestTx <> Sample.tx_Hash requestTx2 /\
  GetRFQRequests Sample.no_iter_fault Rlp.DecodeBytes unit
    (WriteRFQTxs Sample.tx_Hash Sample.no_put_fault Rlp.EncodeRLP 0 1 2 3 4 5 unit requestTx2
       (WriteRFQTxs Sample.tx_Hash Sample.no_put_fault Rlp.EncodeRLP 0 1 2 3 4 5 unit
          Sample.requestTx validatorChain).2).2
  = GetRFQRequests Sample.no_iter_fault Rlp.DecodeBytes unit
      (WriteRFQTxs Sample.tx_Hash Sample.no_put_fault Rlp.EncodeRLP 0 1 2 3 4 5 unit
         Sample.requestTx
         (WriteRFQTxs Sample.tx_Hash Sample.no_put_fault Rlp.EncodeRLP 0 1 2 3 4 5 unit
            requestTx2 validatorChain).2).2.
Proof.
  assert (Hne : Sample.tx_Hash Sample.requestTx <> Sample.tx_Hash requestTx2)
    by (vm_compute; discriminate).
  split; [exact Hne|].
  apply (WriteRFQTxs_requests_commute Sample.tx_Hash Sample.no_put_fault
           Sample.no_iter_fault Rlp.EncodeRLP Rlp.DecodeBytes 0 1 2 3 4 5 unit
           Sample.requestTx requestTx2 validatorChain).
  - intros d k v. reflexivity.
  - reflexivity.
  - reflexivity.
  - exact Hne.
Defined.

Lemma processBlock_broadcasts_only_accepted_witness :
  exists s',
    processBlock Sample.header_Hash Sample.tx_Verify unit acceptAll
      (Some Sample.block1) validatorNode = (Ok tt, s') /\
    headers unit (chain unit s') = [Sample.genesisHeader; Sample.header1] /\
    events unit s' = [Started (GoBroadcastBlock Sample.block1)].
Proof.
  destruct (processBlock Sample.header_Hash Sample.tx_Verify unit acceptAll
              (Some Sample.block1) validatorNode) as [r s'] eqn:E.
  assert (Hr : r = Ok tt).
  { change r with (fst (r, s')). rewrite <- E. vm_compute. reflexivity. }
  subst r. exists s'. split; [reflexivity|].
  destruct (processBlock_broadcasts_only_accepted Sample.header_Hash Sample.tx_Verify
              unit acceptAll (Some Sample.block1) validatorNode s' (Ok tt) E)
    as [H _].
  destruct (H eq_refl) as (blk & h & Hb & Hh & _ & Hhs & Hev & _).
  injection Hb as <-. injection Hh as <-.
  split; [exact Hhs | exact Hev].
Defined.

Lemma validatorLoop_grows_witness :
  exists r s',
    validatorLoop Sample.header_Hash Sample.tx_Verify unit acceptAll
      (GetBlockHeader unit) Sample.NewBlockFromPrevHeader Sample.Block_Sign
      3 validatorNode = (r, s') /\
    len (headers unit (chain unit s')) <= 1 + 3 /\
    peerMap unit s' = {["10.0.0.2:4000" := peerB]}.
Proof.
  destruct (validatorLoop Sample.header_Hash Sample.tx_Verify unit acceptAll
              (GetBlockHeader unit) Sample.NewBlockFromPrevHeader Sample.Block_Sign
              3 validatorNode) as [r s'] eqn:E.
  exists r, s'. split; [reflexivity|].
  destruct (validatorLoop_grows Sample.header_Hash Sample.tx_Verify unit acceptAll
              (GetBlockHeader unit) Sample.NewBlockFromPrevHeader Sample.Block_Sign
              3 validatorNode s' r E) as (_ & Hlen & _ & Hpeers & _).
  split; [exact Hlen | exact Hpeers].
Defined.

Lemma ProcessMessage_changes_witness :
  ProcessMessage Sample.header_Hash Sample.tx_Hash Sample.tx_Verify unit acceptAll
    noGobFault noSendFault rebuildHeader rebuildBody sendNil
    {| dm_From := "10.0.0.2:4000"; dm_Data := DataOther |} validatorNode
  = (Ok tt, validatorNode).
Proof.
  destruct (ProcessMessage Sample.header_Hash Sample.tx_Hash Sample.tx_Verify unit
              acceptAll noGobFault noSendFault rebuildHeader rebuildBody sendNil
              {| dm_From := "10.0.0.2:4000"; dm_Data := DataOther |} validatorNode)
    as [r s'] eqn:E.
  destruct (ProcessMessage_changes Sample.header_Hash Sample.tx_Hash Sample.tx_Verify
              unit acceptAll noGobFault noSendFault rebuildHeader rebuildBody sendNil
              _ _ _ _ E) as (_ & _ & _ & H).
  destruct (H eq_refl) as [-> ->]. reflexivity.
Defined.

Lemma serve_outcomes_witness :
  serve Sample.header_Hash Sample.tx_Hash Sample.tx_Verify unit acceptAll
    noGobFault noSendFault rebuildHeader rebuildBody sendNil nat decodeNothing
    (RpcArrives nat 0%nat) validatorNode
  = (Panic "runtime error: invalid memory address or nil pointer dereference",
     validatorNode).
Proof.
  destruct (serve Sample.header_Hash Sample.tx_Hash Sample.tx_Verify unit acceptAll
              noGobFault noSendFault rebuildHeader rebuildBody sendNil nat decodeNothing
              (RpcArrives nat 0%nat) validatorNode) as [r s'] eqn:E.
  destruct (serve_outcomes Sample.header_Hash Sample.tx_Hash Sample.tx_Verify unit
              acceptAll noGobFault noSendFault rebuildHeader rebuildBody sendNil nat
              decodeNothing _ _ _ _ E) as (_ & _ & H & _).
  destruct (H 0%nat _ eq_refl eq_refl) as [-> ->]. reflexivity.
Defined.

Lemma GetBlock_keeps_read_lock_witness :
  held_write noHolds = false /\
  locked_GetBlock Sample.header_Hash unit lateFollowerChain 0 noHolds =
    @Returns _ _ (GetBlock Sample.header_Hash unit lateFollowerChain 0) lateFollowerChain
      {| held_write := false; held_read := 1 |}.
Proof.
  split; [reflexivity|].
  refine (eq_trans (GetBlock_keeps_read_lock Sample.header_Hash unit lateFollowerChain 0
                      noHolds eq_refl) _).
  apply (f_equal (fun n : nat =>
           @Returns (Blockchain unit) Block
             (GetBlock Sample.header_Hash unit lateFollowerChain 0) lateFollowerChain
             {| held_write := false; held_read := n |})).
  vm_compute. reflexivity.
Defined.

Lemma requestBlocksLoop_unknown_peer_faults_witness :
  requestBlocksLoop unit noGobFault "10.0.0.9:9000" 2 [follower []; validatorNode] =
    (Some (Panic "runtime error: invalid memory address or nil pointer dereference"),
     []).
Proof.
  apply (requestBlocksLoop_unknown_peer_faults unit noGobFault "10.0.0.9:9000" 2
           [] [validatorNode] (follower [])).
  - intros m. reflexivity.
  - constructor.
  - reflexivity.
  - reflexivity.
Defined.

Lemma processGetBlocksMessage_on_indexed_chain_witness :
  exists fbs,
    processGetBlocksMessage Sample.header_Hash unit noGobFault noSendFault
      "10.0.0.2:4000" {| gbm_From := 0; gbm_To := 0 |} validatorNode =
      (Ok tt,
       emit unit
         [Sent (conn_RemoteAddr peerB)
            (NewMessage MessageTypeBlocks (GobBlocks {| bm_Blocks := fbs |}) "validator")]
         validatorNode) /\
    len fbs = 1.
Proof.
  destruct (processGetBlocksMessage_on_indexed_chain Sample.header_Hash unit
              noGobFault noSendFault validatorNode "10.0.0.2:4000"
              {| gbm_From := 0; gbm_To := 0 |} peerB) as (fbs & Hrun & Hlen & _).
  - exact wellIndexed_sample.
  - reflexivity.
  - cbn. lia.
  - cbn. lia.
  - reflexivity.
  - intros m. reflexivity.
  - reflexivity.
  - intros m. reflexivity.
  - exists fbs. split; [exact Hrun | exact Hlen].
Defined.

Lemma bad_transaction_stops_validator_witness :
  Sample.unsignedTx ∈ Pending (memPool unit poisonedNode) /\
  exists r,
    validatorLoop Sample.header_Hash Sample.tx_Verify unit acceptAll
      (GetBlockHeader unit) Sample.NewBlockFromPrevHeader Sample.Block_Sign
      2 poisonedNode = (r, poisonedNode).
Proof.
  assert (Hin : Sample.unsignedTx ∈ Pending (memPool unit poisonedNode)).
  { cbn. apply elem_of_cons; right; apply elem_of_cons; left; reflexivity. }
  split; [exact Hin|].
  destruct (Sample.tx_Verify Sample.unsignedTx) as [e|] eqn:Hv; [|discriminate Hv].
  destruct (validatorLoop Sample.header_Hash Sample.tx_Verify unit acceptAll
              (GetBlockHeader unit) Sample.NewBlockFromPrevHeader Sample.Block_Sign
              2 poisonedNode) as [r s'] eqn:E.
  exists r. apply (f_equal (pair r)).
  refine (proj2 (bad_transaction_stops_validator Sample.header_Hash Sample.tx_Verify
                   unit acceptAll (GetBlockHeader unit) Sample.NewBlockFromPrevHeader
                   Sample.Block_Sign poisonedNode Sample.unsignedTx e _ _ Hin Hv)
            2%nat r s' E).
  - intros hdr txs b [= <-]. reflexivity.
  - intros b key b'. unfold Sample.Block_Sign.
    destruct (blk_header b); [intros [= <-]; reflexivity | discriminate].
Defined.

Lemma processGetBlocksMessage_beyond_length_witness :
  processGetBlocksMessage Sample.header_Hash unit noGobFault noSendFault
    "10.0.0.2:4000" {| gbm_From := 5; gbm_To := 0 |} validatorNode =
    (Ok tt,
     emit unit
       [Sent (conn_RemoteAddr peerB)
          (NewMessage MessageTypeBlocks (GobBlocks {| bm_Blocks := [] |}) "validator")]
       validatorNode).
Proof.
  apply (processGetBlocksMessage_beyond_length Sample.header_Hash unit noGobFault
           noSendFault validatorNode "10.0.0.2:4000" {| gbm_From := 5; gbm_To := 0 |}
           peerB).
  - left. vm_compute. reflexivity.
  - intros m. reflexivity.
  - reflexivity.
  - intros m. reflexivity.
Defined.

Local Abbreviation rejectedPair :=
  {| fb_Block := Some {| blk_header := Some Sample.header1;
                         blk_transactions := [Sample.unsignedTx];
                         blk_Validator := Some [x01] |};
     fb_Header := Some Sample.header1 |}.
Local Abbreviation acceptedPair :=
  {| fb_Block := Some Sample.block1; fb_Header := Some Sample.header1 |}.
Local Abbreviation pairWithoutBlock :=
  {| fb_Block := None; fb_Header := Some Sample.header1 |}.

Lemma wellIndexed_kept_witness :
  wellIndexed Sample.header_Hash unit validatorChain /\
  exists bc',
    VerifyBlock Sample.header_Hash Sample.tx_Verify unit acceptAll
      (Some Sample.block1) validatorChain = (Ok tt, bc') /\
    wellIndexed Sample.header_Hash unit bc'.
Proof.
  destruct (wellIndexed_kept Sample.header_Hash Sample.tx_Verify unit acceptAll tt)
    as [Hnew Hstep].
  assert (Hw : wellIndexed Sample.header_Hash unit validatorChain).
  { exact (Hnew Sample.genesis empty_db Sample.genesisHeader validatorChain
             eq_refl eq_refl NewBlockchain_sample). }
  split; [exact Hw|].
  destruct (VerifyBlock Sample.header_Hash Sample.tx_Verify unit acceptAll
              (Some Sample.block1) validatorChain) as [r bc'] eqn:E.
  assert (Hr : r = Ok tt).
  { change r with (fst (r, bc')). rewrite <- E. vm_compute. reflexivity. }
  subst r. exists bc'. split; [reflexivity|].
  apply (Hstep Sample.block1 Sample.header1 validatorChain bc' Hw);
    [reflexivity | reflexivity | reflexivity | exact E].
Defined.

Lemma HasBlock_and_negative_heights_witness :
  HasBlock unit validatorChain (-1) = true /\
  GetBlock Sample.header_Hash unit validatorChain (-1) =
    Panic "runtime error: index out of range [-1]".
Proof.
  destruct (proj2 (HasBlock_and_negative_heights Sample.header_Hash unit
                     validatorChain (-1))) as (Hhas & _ & Hget).
  - split; [vm_compute; discriminate | reflexivity].
  - split; [exact Hhas | exact Hget].
Defined.

Lemma statusLoop_start_witness :
  statusLoop_lastBroadcastHeight unit validatorNode =
    Panic "runtime error: invalid memory address or nil pointer dereference" /\
  exists s' h,
    CreateNewBlock Sample.header_Hash Sample.tx_Verify unit acceptAll
      (GetBlockHeader unit) Sample.NewBlockFromPrevHeader Sample.Block_Sign
      validatorNode = (Ok tt, s') /\
    last (headers unit (chain unit s')) = Some h /\
    statusLoop_lastBroadcastHeight unit s' = Ok (hdr_Height h).
Proof.
  destruct (statusLoop_start Sample.header_Hash Sample.tx_Verify unit acceptAll tt
              (GetBlockHeader unit) Sample.NewBlockFromPrevHeader Sample.Block_Sign)
    as [Hnil Hhead].
  split.
  - exact (Hnil Sample.genesis empty_db true validatorChain validatorNode
             NewBlockchain_sample eq_refl).
  - destruct (CreateNewBlock Sample.header_Hash Sample.tx_Verify unit acceptAll
                (GetBlockHeader unit) Sample.NewBlockFromPrevHeader Sample.Block_Sign
                validatorNode) as [r s'] eqn:E.
    assert (Hr : r = Ok tt).
    { change r with (fst (r, s')). rewrite <- E. vm_compute. reflexivity. }
    subst r. destruct (Hhead validatorNode s' E) as (h & Hlast & Hread).
    exists s', h. split; [reflexivity|]. split; [exact Hlast | exact Hread].
Defined.

Lemma processBlocksMessage_skips_rejected_witness :
  processBlocksMessage Sample.header_Hash Sample.tx_Verify unit acceptAll
    rebuildHeader rebuildBody "10.0.0.1:3000"
    {| bm_Blocks := [rejectedPair; acceptedPair] |} (follower [])
  = processBlocksMessage Sample.header_Hash Sample.tx_Verify unit acceptAll
      rebuildHeader rebuildBody "10.0.0.1:3000"
      {| bm_Blocks := [acceptedPair] |} (follower []) /\
  processBlocksMessage Sample.header_Hash Sample.tx_Verify unit acceptAll
    rebuildHeader rebuildBody "10.0.0.1:3000"
    {| bm_Blocks := [pairWithoutBlock; acceptedPair] |} (follower [])
  = (Panic "runtime error: invalid memory address or nil pointer dereference",
     follower []).
Proof.
  split.
  - destruct (processBlocksMessage_skips_rejected Sample.header_Hash Sample.tx_Verify
                unit acceptAll rebuildHeader rebuildBody "10.0.0.1:3000"
                {| bm_Blocks := [rejectedPair; acceptedPair] |} (follower []))
      as (r & s' & _ & _ & _ & _ & _ & _ & _ & _ & Hskip).
    apply (Hskip rejectedPair _ [acceptedPair] _ _ _ eq_refl eq_refl eq_refl
             (surjective_pairing _)).
    vm_compute. discriminate.
  - destruct (processBlocksMessage_skips_rejected Sample.header_Hash Sample.tx_Verify
                unit acceptAll rebuildHeader rebuildBody "10.0.0.1:3000"
                {| bm_Blocks := [pairWithoutBlock; acceptedPair] |} (follower []))
      as (r & s' & Hrun & _ & _ & _ & _ & _ & _ & Hnil & _).
    destruct (Hnil pairWithoutBlock [acceptedPair] _ eq_refl eq_refl eq_refl) as [-> ->].
    exact Hrun.
Defined.

Lemma status_exchange_witness :
  processGetStatusMessage unit noGobFault noSendFault sendNil "10.0.0.9:9000"
    validatorNode = (Err "peer not found", validatorNode) /\
  exists status,
    sm_CurrentLength status = 1 /\
    processGetStatusMessage unit noGobFault noSendFault sendNil "10.0.0.2:4000"
      validatorNode =
      (Ok tt, emit unit [Sent (conn_RemoteAddr peerB)
                           (NewMessage MessageTypeStatus (GobStatus status) "validator")]
                validatorNode) /\
    processStatusMessage unit "10.0.0.1:3000" status (follower []) =
      (Ok tt, emit unit [Started (GoRequestBlocksLoop "10.0.0.1:3000" 1)] (follower [])).
Proof.
  split.
  - apply (proj1 (status_exchange unit noGobFault noSendFault sendNil validatorNode
                    (follower []) "10.0.0.9:9000" "10.0.0.1:3000")).
    reflexivity.
  - destruct (proj2 (status_exchange unit noGobFault noSendFault sendNil validatorNode
                       (follower []) "10.0.0.2:4000" "10.0.0.1:3000") peerB)
      as (status & Hlen & _ & Hsend & Hrecv).
    + reflexivity.
    + intros m. reflexivity.
    + intros m. reflexivity.
    + exists status. split; [exact Hlen|]. split; [exact Hsend | exact Hrecv].
Defined.

Lemma serve_peer_then_broadcast_witness :
  exists s1 sends,
    serve Sample.header_Hash Sample.tx_Hash Sample.tx_Verify unit acceptAll
      noGobFault noSendFault rebuildHeader rebuildBody sendNil nat decodeNothing
      (PeerArrives nat {| conn_RemoteAddr := "10.0.0.3:5000"; Outgoing := false |})
      validatorNode = (Ok true, s1) /\
    broadcast unit (NewMessage MessageTypeTx EmptyBuffer "validator") s1
      = (Ok tt, emit unit sends s1) /\
    Sent "10.0.0.3:5000" (NewMessage MessageTypeTx EmptyBuffer "validator") ∈ sends /\
    Sent "10.0.0.2:4000" (NewMessage MessageTypeTx EmptyBuffer "validator") ∈ sends.
Proof.
  destruct (serve_peer_then_broadcast Sample.header_Hash Sample.tx_Hash
              Sample.tx_Verify unit acceptAll noGobFault noSendFault rebuildHeader
              rebuildBody sendNil nat decodeNothing
              {| conn_RemoteAddr := "10.0.0.3:5000"; Outgoing := false |}
              validatorNode (NewMessage MessageTypeTx EmptyBuffer "validator"))
    as (s1 & sends & Hserve & Hcast & Hnew & Hold & _).
  exists s1, sends. split; [exact Hserve|]. split; [exact Hcast|].
  split; [exact Hnew|].
  apply (Hold "10.0.0.2:4000" peerB); [reflexivity | discriminate].
Defined.

Lemma broadcastBlock_waits_for_itself_witness :
  (exists h', locked_broadcastBlock unit Sample.block1 validatorNode noHolds
                = @Waits _ _ validatorNode h') /\
  locked_broadcastTx unit Sample.requestTx validatorNode noHolds
    = @Returns _ _ (Ok tt) (broadcastTx unit Sample.requestTx validatorNode).2 noHolds.
Proof.
  destruct (broadcastBlock_waits_for_itself unit) as [Hblock Htx].
  split.
  - exact (Hblock Sample.block1 validatorNode noHolds).
  - exact (Htx Sample.requestTx validatorNode noHolds eq_refl).
Defined.

Lemma VerifyBlock_waits_after_GetBlock_failure_witness :
  leaksReadLock Sample.header_Hash unit lateFollowerChain 0 = true /\
  exists h1,
    locked_GetBlock Sample.header_Hash unit lateFollowerChain 0 noHolds
      = @Returns _ _ (GetBlock Sample.header_Hash unit lateFollowerChain 0)
          lateFollowerChain h1 /\
    held_read h1 = 1%nat /\
    locked_VerifyBlock Sample.header_Hash Sample.tx_Verify unit acceptAll
      (Some Sample.block1) lateFollowerChain h1 = @Waits _ _ lateFollowerChain h1.
Proof.
  assert (Hleak : leaksReadLock Sample.header_Hash unit lateFollowerChain 0 = true)
    by (vm_compute; reflexivity).
  split; [exact Hleak|].
  apply (proj2 (VerifyBlock_waits_after_GetBlock_failure Sample.header_Hash
                  Sample.tx_Verify unit acceptAll)
           lateFollowerChain 0 Sample.block1 Sample.header1 Hleak eq_refl).
  - vm_compute. exact I.
  - repeat constructor.
Defined.

Lemma follower_accepts_any_block_witness :
  exists bc,
    NewBlockchain Sample.header_Hash unit tt Sample.genesis empty_db false = Ok bc /\
    headers unit bc = [] /\
    exists bc',
      VerifyBlock Sample.header_Hash Sample.tx_Verify unit acceptAll
        (Some Sample.block1)
        (ledgerCalls Sample.header_Hash Sample.tx_Hash Sample.tx_Verify
           Sample.no_put_fault Rlp.EncodeRLP 0 1 2 3 4 5 unit acceptAll
           [CallWriteRFQTxs Sample.requestTx] bc) = (Ok tt, bc') /\
      headers unit bc' = [Sample.header1].
Proof.
  destruct (follower_accepts_any_block Sample.header_Hash Sample.tx_Hash
              Sample.tx_Verify Sample.no_put_fault Rlp.EncodeRLP 0 1 2 3 4 5 unit
              acceptAll tt Sample.genesis empty_db)
    as (bc & Hnew & Hhs & _ & _ & _ & _ & Hany).
  exists bc. split; [exact Hnew|]. split; [exact Hhs|].
  destruct (Hany [CallWriteRFQTxs Sample.requestTx] Sample.block1 Sample.header1 eq_refl)
    as (bc' & Hrun & Hhs').
  - repeat constructor.
  - exists bc'. split; [exact Hrun|]. rewrite Hhs'.
    injection Hnew as <-. reflexivity.
Defined.
